(** * Streaming format detection and statistics aggregation

    A shallow embedding of the format sniffer and of the per-column
    aggregation loops of the CSV pipeline
    ([data_pipeline.py], [example_analysis.py], [quick_demo.py]),
    together with the properties the specification states about them.

    Python [str] values are [string]s, [dict]s are [gmap]s (dictionary
    equality ignores insertion order), Python integers are [Z] or [nat]
    (lengths).  The cells of a numeric column are finite numbers, held
    as exact rationals [Q]: counts, comparisons, minima and maxima are
    those of the program.  Sums and means are rounded by the program
    and not by [Q]; what the rounding does to them is stated on the
    binary64 numbers of [Float64].  The order of the keys of a
    dictionary, which [top_5_values] shows, is kept in [TopValues]. *)

From Stdlib Require Import ZArith QArith String Ascii List Bool Lia Lqa.
From Stdlib Require PrimFloat Uint63.
From stdpp Require Import base option list strings gmap fin_maps.

Local Open Scope string_scope.
Local Open Scope list_scope.

(** ** Python string primitives used by the sniffer and the analyzers *)

Module PyStr.

(** [str.isspace] on one code point below 256: TAB..CR, FS..US, SPACE,
    NEL and NBSP. *)
Definition is_space (c : ascii) : bool :=
  let n := N_of_ascii c in
  ((9 <=? n) && (n <=? 13) || (28 <=? n) && (n <=? 32)
   || (n =? 133) || (n =? 160))%N.

Fixpoint lstrip (s : string) : string :=
  match s with
  | EmptyString => EmptyString
  | String c r => if is_space c then lstrip r else s
  end.

Fixpoint rstrip (s : string) : string :=
  match s with
  | EmptyString => EmptyString
  | String c r =>
      match rstrip r with
      | EmptyString => if is_space c then EmptyString else String c EmptyString
      | r' => String c r'
      end
  end.

(** [s.strip()] *)
Definition strip (s : string) : string := rstrip (lstrip s).

(** Truthiness of a [str]: non-empty. *)
Definition truthy (s : string) : bool :=
  match s with EmptyString => false | String _ _ => true end.

(** [s.split(sep)] for a one-character separator. *)
Fixpoint split (sep : ascii) (s : string) : list string :=
  match s with
  | EmptyString => [EmptyString]
  | String c r =>
      if Ascii.eqb c sep then EmptyString :: split sep r
      else match split sep r with
           | f :: fs => String c f :: fs
           | [] => [String c EmptyString]
           end
  end.

(** Number of occurrences of a character. *)
Fixpoint occurrences (sep : ascii) (s : string) : nat :=
  match s with
  | EmptyString => 0
  | String c r => (if Ascii.eqb c sep then 1 else 0) + occurrences sep r
  end.

End PyStr.

(** ** FormatSniffer: separator and encoding detection *)

Module Sniffer.
Import PyStr.

(** [separators = [',', ';', '\t', '|']] *)
Definition separators : list ascii :=
  [","%char; ";"%char; "009"%char; "|"%char].

(** One iteration of the [for sep in separators] loop; the state is
    [(max_columns, best_separator)]. *)
Definition scan_step (first_line : string) (st : nat * ascii) (sep : ascii)
  : nat * ascii :=
  let columns := split sep first_line in
  if Nat.ltb (fst st) (length columns) then (length columns, sep) else st.

Definition scan (first_line : string) (seps : list ascii) (st : nat * ascii)
  : nat * ascii :=
  fold_left (scan_step first_line) seps st.

(** The separator loop shared verbatim by [detect_file_properties],
    [detect_encoding_and_separator] and [_detect_properties]:
    [max_columns = 0; best_separator = ','] and then the scan.  The
    result is [(max_columns, best_separator)]. *)
Definition detect_separator (first_line : string) : nat * ascii :=
  scan first_line separators (0, ","%char).

Definition fields (sep : ascii) (line : string) : nat :=
  length (split sep line).

(** *** [SimpleDataAnalyzer.detect_encoding_and_separator] *)

(** A file on disk as the text layer sees it: for a codec name, what
    [open(path, 'r', encoding=codec).readline()] returns, [None]
    standing for [UnicodeDecodeError]. *)
Definition text_file := string -> option string.

Inductive exn := UnicodeDecodeError.

Inductive outcome (A : Type) :=
| Ok (a : A)
| Raise (e : exn).
Arguments Ok {A} a.
Arguments Raise {A} e.

Record profile := Profile {
  encoding : string;
  separator : ascii;
  columns_count : nat
}.

Definition encodings_to_try : list string := ["utf-8"; "latin-1"; "cp1252"].

(** The [for encoding in encodings_to_try] loop with its [break] and
    its [except UnicodeDecodeError: continue]; [current] is
    [self.encoding]. *)
Fixpoint try_encodings (f : text_file) (encs : list string) (current : string)
  : string :=
  match encs with
  | [] => current
  | enc :: rest =>
      match f enc with
      | Some line =>
          if truthy (strip line) then enc else try_encodings f rest current
      | None => try_encodings f rest current
      end
  end.

(** [self.encoding] is ['utf-8'] from [__init__]. *)
Definition detect_encoding_and_separator (f : text_file) : outcome profile :=
  let enc := try_encodings f encodings_to_try "utf-8" in
  match f enc with
  | None => Raise UnicodeDecodeError
  | Some line =>
      let first_line := strip line in
      let '(max_columns, best_separator) := detect_separator first_line in
      Ok (Profile enc best_separator max_columns)
  end.

(** The empty file: [readline] returns [''] under every codec. *)
Definition empty_file : text_file := fun _ => Some EmptyString.

(** *** [EfficientDataPipeline.detect_file_properties] *)

Record file_properties := FileProperties {
  fp_encoding : option string;
  fp_separator : ascii;
  fp_confidence : Q;
  fp_columns_count : nat
}.

(** [chardet.detect(raw_data)] is a third-party heuristic and is taken
    as given: [detected] holds its ['encoding'], [None] when it names
    none, and its ['confidence'].  The file [f] is read under that
    encoding, [None] selecting the platform's default codec. *)
Definition detect_file_properties (detected : option string * Q)
    (f : option string -> option string) : outcome file_properties :=
  match f detected.1 with
  | None => Raise UnicodeDecodeError
  | Some line =>
      let first_line := strip line in
      let '(max_columns, best_separator) := detect_separator first_line in
      Ok (FileProperties detected.1 best_separator detected.2 max_columns)
  end.

End Sniffer.

(** ** Python containers used by the row-by-row analyzers *)

Module PyData.

(** [enumerate(l)] *)
Fixpoint enum_from {A} (i : nat) (l : list A) : list (nat * A) :=
  match l with
  | [] => []
  | x :: r => (i, x) :: enum_from (S i) r
  end.

Definition enumerate {A} (l : list A) : list (nat * A) := enum_from 0 l.

(** A [collections.Counter] keyed by strings, in insertion order. *)
Definition counter := list (string * nat).

(** [c[key] += 1] *)
Fixpoint counter_incr (key : string) (c : counter) : counter :=
  match c with
  | [] => [(key, 1)]
  | (k, n) :: r =>
      if String.eqb k key then (k, S n) :: r else (k, n) :: counter_incr key r
  end.

(** [sum(c.values())] *)
Definition counter_total (c : counter) : nat :=
  fold_right (fun kv acc => snd kv + acc) 0 c.

(** Insertion into a list sorted by decreasing count, after the
    entries of equal count: the sort is stable. *)
Fixpoint insert_by_count (kv : string * nat) (l : list (string * nat))
  : list (string * nat) :=
  match l with
  | [] => [kv]
  | kv' :: r =>
      if Nat.ltb (snd kv') (snd kv) then kv :: l else kv' :: insert_by_count kv r
  end.

Definition sort_by_count (l : list (string * nat)) : list (string * nat) :=
  fold_left (fun acc kv => insert_by_count kv acc) l [].

(** [c.most_common(n)] *)
Definition most_common (n : nat) (c : counter) : list (string * nat) :=
  firstn n (sort_by_count c).

(** [sum(l)] of a list of floats. *)
Definition qsum (l : list Q) : Q := fold_left Qplus l 0%Q.

Definition Qltb (a b : Q) : bool := negb (Qle_bool b a).

(** [min(l)] and [max(l)]: the first minimal, resp. maximal, element;
    [None] for the empty list, on which Python raises. *)
Definition py_min (l : list Q) : option Q :=
  match l with
  | [] => None
  | x :: r => Some (fold_left (fun m y => if Qltb y m then y else m) r x)
  end.

Definition py_max (l : list Q) : option Q :=
  match l with
  | [] => None
  | x :: r => Some (fold_left (fun m y => if Qltb m y then y else m) r x)
  end.

(** The decimal fragment of Python's [float(s)]: surrounding
    whitespace, an optional sign, digits with an optional fractional
    part.  Used to run the analyzers on concrete files. *)
Definition digit (c : ascii) : option Z :=
  let n := N_of_ascii c in
  if ((48 <=? n) && (n <=? 57))%N then Some (Z.of_N (n - 48)) else None.

Fixpoint scan_digits (s : string) (acc : Z) (k : nat) : Z * nat * string :=
  match s with
  | EmptyString => (acc, k, EmptyString)
  | String c r =>
      match digit c with
      | Some d => scan_digits r (10 * acc + d)%Z (S k)
      | None => (acc, k, s)
      end
  end.

Definition pow10 (k : nat) : positive := Pos.pow 10 (Pos.of_nat k).

Definition dec_unsigned (s : string) : option Q :=
  let '(ip, ni, rest) := scan_digits s 0%Z 0 in
  match rest with
  | EmptyString => if Nat.eqb ni 0 then None else Some (inject_Z ip)
  | String "."%char r =>
      let '(fp, nf, rest') := scan_digits r 0%Z 0 in
      match rest' with
      | EmptyString =>
          if Nat.eqb (ni + nf) 0 then None
          else if Nat.eqb nf 0 then Some (inject_Z ip)
          else Some (Qred (Qmake (ip * Zpos (pow10 nf) + fp) (pow10 nf)))
      | _ => None
      end
  | _ => None
  end.

Definition dec_float (s : string) : option Q :=
  match PyStr.strip s with
  | String "-"%char r => Qopp <$> dec_unsigned r
  | String "+"%char r => dec_unsigned r
  | r => dec_unsigned r
  end.

End PyData.

(** ** The row-by-row analyzer of [example_analysis.py]

    [QuickDataAnalyzer] in [quick_demo.py] runs the same loops on the
    first [max_rows] rows. *)

Module Simple.
Import PyStr PyData.

Section Analyzer.

(** [float(value)]: [None] stands for [ValueError]. *)
Variable to_float : string -> option Q.

(** The header and the data rows as [csv.reader] yields them. *)
Variable columns : list string.

(** *** [analyze_null_values] *)

(** [null_counts[key] += 1] on a [defaultdict(int)] *)
Definition bump (key : string) (m : gmap string nat) : gmap string nat :=
  <[key := S (default 0 (m !! key))]> m.

(** The body of [for i, value in enumerate(row)]. *)
Definition null_cell (nc : gmap string nat) (iv : nat * string)
  : gmap string nat :=
  match columns !! iv.1 with
  | Some col => if truthy (strip iv.2) then nc else bump col nc
  | None => nc
  end.

Record null_state := NullState {
  null_counts : gmap string nat;
  total_rows : nat
}.

(** The body of [for row in reader]. *)
Definition null_row (st : null_state) (row : list string) : null_state :=
  NullState (fold_left null_cell (enumerate row) (null_counts st))
            (S (total_rows st)).

Record null_analysis := NullAnalysis {
  na_null_counts : gmap string nat;
  na_null_percentages : gmap string Q;
  na_total_rows : nat
}.

Definition analyze_null_values (rows : list (list string)) : null_analysis :=
  let st := fold_left null_row rows (NullState ∅ 0) in
  NullAnalysis
    (null_counts st)
    ((fun count => (inject_Z (Z.of_nat count)
                    / inject_Z (Z.of_nat (total_rows st))) * 100)%Q
       <$> null_counts st)
    (total_rows st).

(** *** [calculate_basic_statistics] *)

Record col_stats := ColStats {
  numeric_values : list Q;
  string_values : counter;
  total_count : nat
}.

Definition empty_col_stats : col_stats := ColStats [] [] 0.

(** The body of [if i < len(columns)] once [col] is known, applied to
    [stats[col]]. *)
Definition stats_value (value : string) (cs : col_stats) : col_stats :=
  let cs := ColStats (numeric_values cs) (string_values cs) (S (total_count cs)) in
  match to_float value with
  | Some numeric_val =>
      ColStats (numeric_values cs ++ [numeric_val]) (string_values cs)
               (total_count cs)
  | None =>
      if truthy (strip value)
      then ColStats (numeric_values cs) (counter_incr value (string_values cs))
                    (total_count cs)
      else cs
  end.

Definition stats_cell (stats : gmap string col_stats) (iv : nat * string)
  : gmap string col_stats :=
  match columns !! iv.1 with
  | Some col => alter (stats_value iv.2) col stats
  | None => stats
  end.

Definition stats_row (stats : gmap string col_stats) (row : list string)
  : gmap string col_stats :=
  fold_left stats_cell (enumerate row) stats.

(** [for col in columns: stats[col] = {...}] *)
Definition init_stats : gmap string col_stats :=
  fold_left (fun stats col => <[col := empty_col_stats]> stats) columns ∅.

Definition accumulate (rows : list (list string)) : gmap string col_stats :=
  fold_left stats_row rows init_stats.

Inductive summary :=
| Numeric (count : nat) (mean : Q) (min max : option Q) (null_count : Z)
| Categorical (unique_values : nat) (top_5_values : list (string * nat))
              (null_count : Z).

(** The body of [for col, col_stats in stats.items()]. *)
Definition finalize (cs : col_stats) : summary :=
  let numeric_vals := numeric_values cs in
  let string_vals := string_values cs in
  match numeric_vals with
  | _ :: _ =>
      Numeric (length numeric_vals)
              (qsum numeric_vals / inject_Z (Z.of_nat (length numeric_vals)))%Q
              (py_min numeric_vals) (py_max numeric_vals)
              (Z.of_nat (total_count cs) - Z.of_nat (length numeric_vals))%Z
  | [] =>
      Categorical (length string_vals) (most_common 5 string_vals)
                  (Z.of_nat (total_count cs) - Z.of_nat (counter_total string_vals))%Z
  end.

Definition calculate_basic_statistics (rows : list (list string))
  : gmap string summary :=
  finalize <$> accumulate rows.

End Analyzer.

(** The cells found at position [i] of the rows, in row order; a row
    with fewer than [i + 1] fields has none. *)
Definition column_cells (i : nat) (rows : list (list string)) : list string :=
  omap (fun row : list string => row !! i) rows.

(** A cell is blank when nothing is left after trimming whitespace. *)
Definition blank (value : string) : bool := negb (truthy (strip value)).

(** A cell routed to the string counter: it does not parse and is not
    blank. *)
Definition string_cell (to_float : string -> option Q) (v : string) : bool :=
  match to_float v with
  | Some _ => false
  | None => truthy (strip v)
  end.

(** Rows too short to have a cell at position [i]. *)
Definition short_rows (i : nat) (rows : list (list string)) : list (list string) :=
  filter (fun row : list string => length row <= i) rows.

(** *** [QuickDataAnalyzer]: the same loops, left at [i >= max_rows] *)

Definition _analyze_nulls (columns : list string) (max_rows : nat)
    (rows : list (list string)) : null_analysis :=
  analyze_null_values columns (take max_rows rows).

Definition _calculate_stats (to_float : string -> option Q) (columns : list string)
    (max_rows : nat) (rows : list (list string)) : gmap string summary :=
  calculate_basic_statistics to_float columns (take max_rows rows).

(** The ['type'] entry of a finalized column. *)
Definition is_numeric (s : summary) : bool :=
  match s with
  | Numeric _ _ _ _ _ => true
  | Categorical _ _ _ => false
  end.

(** Lookup in a [defaultdict(int)] turned into a [dict], an absent key
    reading as zero. *)
Definition count_of (m : gmap string nat) (key : string) : nat :=
  default 0 (m !! key).

End Simple.

(** ** The chunked pipeline of [data_pipeline.py]

    A chunk is the [DataFrame] that [pd.read_csv(..., chunksize=...)]
    yields: named columns, each with the dtype pandas gave it in this
    chunk.  [None] in a cell is [NaN]. *)

Module Pipeline.
Import PyData.

Inductive series :=
| NumSeries (cells : list (option Q))
| ObjSeries (cells : list (option string))
| BoolSeries (cells : list bool).

Definition chunk := list (string * series).

(** [chunk.select_dtypes(include=[np.number]).columns], with the
    column each name stands for *)
Definition numeric_cols (c : chunk) : list (string * list (option Q)) :=
  omap (fun ns : string * series =>
          match ns.2 with
          | NumSeries cells => Some (ns.1, cells)
          | _ => None
          end) c.

(** [chunk.select_dtypes(include=['object']).columns] *)
Definition categorical_cols (c : chunk) : list (string * list (option string)) :=
  omap (fun ns : string * series =>
          match ns.2 with
          | ObjSeries cells => Some (ns.1, cells)
          | _ => None
          end) c.

(** [series.dropna().tolist()] *)
Definition dropna {A} (cells : list (option A)) : list A := omap id cells.

(** *** Running numeric statistics *)

(** A float that may be [float('inf')] or [float('-inf')]. *)
Inductive ext :=
| NegInf
| Fin (q : Q)
| PosInf.

Definition ext_ltb (a b : ext) : bool :=
  match a, b with
  | NegInf, NegInf => false
  | NegInf, _ => true
  | Fin _, NegInf => false
  | Fin p, Fin q => Qltb p q
  | Fin _, PosInf => true
  | PosInf, _ => false
  end.

(** [min(a, b)] and [max(a, b)] on a running bound [a] and a chunk
    statistic [b]; [b] is [NaN] for a chunk without values, and every
    comparison with [NaN] is false, which leaves [a]. *)
Definition min2 (a : ext) (b : option Q) : ext :=
  match b with
  | Some q => if ext_ltb (Fin q) a then Fin q else a
  | None => a
  end.

Definition max2 (a : ext) (b : option Q) : ext :=
  match b with
  | Some q => if ext_ltb a (Fin q) then Fin q else a
  | None => a
  end.

Record num_acc := NumAcc {
  acc_sum : Q;
  acc_count : Z;
  acc_min : ext;
  acc_max : ext;
  acc_values : list Q
}.

(** The dictionary a column gets when it is first seen. *)
Definition new_num_acc : num_acc := NumAcc 0 0 PosInf NegInf [].

(** The cap of the sample of values kept per numeric column. *)
Definition values_cap : Z := 10000.

(** "Update running statistics" and "Store sample values" for one
    numeric column of one chunk.  The sum is kept without rounding
    here; [Float64] has the sum as the program rounds it. *)
Definition update_numeric (stats : num_acc) (cells : list (option Q)) : num_acc :=
  let vals := dropna cells in
  NumAcc (acc_sum stats + qsum vals)%Q
         (acc_count stats + Z.of_nat (length vals))%Z
         (min2 (acc_min stats) (py_min vals))
         (max2 (acc_max stats) (py_max vals))
         (if (Z.of_nat (length (acc_values stats)) <? values_cap)%Z
          then acc_values stats ++ vals
          else acc_values stats).

Definition numeric_step (numeric_stats : gmap string num_acc)
    (nc : string * list (option Q)) : gmap string num_acc :=
  let stats := default new_num_acc (numeric_stats !! nc.1) in
  <[nc.1 := update_numeric stats nc.2]> numeric_stats.

(** *** Categorical frequencies *)

(** The body of [for value, count in value_counts.items()]. *)
Definition add_count (freq : gmap string Z) (vc : string * Z) : gmap string Z :=
  match freq !! vc.1 with
  | Some n => <[vc.1 := (n + vc.2)%Z]> freq
  | None => <[vc.1 := vc.2]> freq
  end.

(** Folding the items of a table of counts into an accumulator: the
    merge of two categorical accumulators. *)
Definition merge (a b : gmap string Z) : gmap string Z :=
  fold_left add_count (map_to_list b) a.

(** [series.value_counts()]: the number of occurrences of each value
    that is not [NaN]. *)
Definition value_counts (cells : list (option string)) : gmap string Z :=
  fold_left (fun m v => <[v := (default 0 (m !! v) + 1)%Z]> m) (dropna cells) ∅.

Definition categorical_step (categorical_stats : gmap string (gmap string Z))
    (oc : string * list (option string)) : gmap string (gmap string Z) :=
  let freq := default ∅ (categorical_stats !! oc.1) in
  <[oc.1 := merge freq (value_counts oc.2)]> categorical_stats.

(** *** [calculate_descriptive_statistics] *)

Record stats_state := StatsState {
  numeric_stats : gmap string num_acc;
  categorical_stats : gmap string (gmap string Z)
}.

(** The body of [for chunk in pd.read_csv(...)]. *)
Definition process_chunk (st : stats_state) (c : chunk) : stats_state :=
  StatsState (fold_left numeric_step (numeric_cols c) (numeric_stats st))
             (fold_left categorical_step (categorical_cols c) (categorical_stats st)).

Definition process_chunks (chunks : list chunk) : stats_state :=
  fold_left process_chunk chunks (StatsState ∅ ∅).

(** An entry of [final_stats].  The ['top_5_values'] entry, which
    orders the keys of equal count by their insertion into the
    dictionary, is kept apart, in [TopValues]. *)
Inductive final_entry :=
| FinalNumeric (mean : Q) (min max : ext) (count null_count : Z)
| FinalCategorical (unique_values : nat) (null_count : Z).

(** The body of [for col, stats in numeric_stats.items()]: an entry is
    written only [if stats['count'] > 0]. *)
Definition finalize_numeric (total_rows : Z) (stats : num_acc) : option final_entry :=
  if (0 <? acc_count stats)%Z
  then Some (FinalNumeric (acc_sum stats / inject_Z (acc_count stats))%Q
                          (acc_min stats) (acc_max stats) (acc_count stats)
                          (total_rows - acc_count stats)%Z)
  else None.

(** [sum(value_counts.values())] *)
Definition total_counts (freq : gmap string Z) : Z :=
  map_fold (fun _ n acc => (n + acc)%Z) 0%Z freq.

Definition finalize_categorical (total_rows : Z) (freq : gmap string Z) : final_entry :=
  FinalCategorical (size freq) (total_rows - total_counts freq)%Z.

(** The entries of the categorical columns are written after those of
    the numeric columns and replace them. *)
Definition final_stats (total_rows : Z) (st : stats_state) : gmap string final_entry :=
  (finalize_categorical total_rows <$> categorical_stats st)
  ∪ omap (finalize_numeric total_rows) (numeric_stats st).

(** [total_rows] is [self.total_rows], set by [analyze_file_structure]. *)
Definition calculate_descriptive_statistics (total_rows : Z) (chunks : list chunk)
  : gmap string final_entry :=
  final_stats total_rows (process_chunks chunks).

(** *** [analyze_null_values] *)

Definition series_len (s : series) : nat :=
  match s with
  | NumSeries cells => length cells
  | ObjSeries cells => length cells
  | BoolSeries cells => length cells
  end.

(** [len(chunk)] *)
Definition chunk_len (c : chunk) : nat :=
  match c with
  | [] => 0
  | (_, s) :: _ => series_len s
  end.

Definition count_none {A} (cells : list (option A)) : nat :=
  length (filter (fun o => o = None) cells).

Definition series_nulls (s : series) : Z :=
  match s with
  | NumSeries cells => Z.of_nat (count_none cells)
  | ObjSeries cells => Z.of_nat (count_none cells)
  | BoolSeries _ => 0
  end.

(** [chunk.isnull().sum()] *)
Definition isnull_sum (c : chunk) : gmap string Z :=
  list_to_map (map (fun ns : string * series => (ns.1, series_nulls ns.2)) c).

Inductive py_exn := KeyError | ZeroDivisionError.

Inductive py_result (A : Type) :=
| Return (a : A)
| Raised (e : py_exn).
Arguments Return {A} a.
Arguments Raised {A} e.

(** [for col in null_counts: null_counts[col] += chunk_nulls[col]] *)
Definition add_nulls (null_counts chunk_nulls : gmap string Z)
  : py_result (gmap string Z) :=
  if bool_decide (dom null_counts ⊆ dom chunk_nulls)
  then Return (map_imap (fun col n => Some (n + default 0 (chunk_nulls !! col))%Z)
                        null_counts)
  else Raised KeyError.

Record null_state := NullState {
  null_counts : gmap string Z;
  total_rows : Z
}.

(** The body of the loop over the chunks. *)
Definition null_step (st : null_state) (c : chunk) : py_result null_state :=
  let rows := (total_rows st + Z.of_nat (chunk_len c))%Z in
  if (total_rows st =? 0)%Z
  then Return (NullState (isnull_sum c) rows)
  else match add_nulls (null_counts st) (isnull_sum c) with
       | Return nc => Return (NullState nc rows)
       | Raised e => Raised e
       end.

Fixpoint null_loop (chunks : list chunk) (st : null_state) : py_result null_state :=
  match chunks with
  | [] => Return st
  | c :: rest =>
      match null_step st c with
      | Return st' => null_loop rest st'
      | Raised e => Raised e
      end
  end.

Record null_analysis := NullAnalysis {
  na_null_counts : gmap string Z;
  na_null_percentages : gmap string Q;
  na_total_rows : Z
}.

(** The percentages divide by [total_rows]: with integer operands the
    division raises when [total_rows] is zero and there is a column. *)
Definition analyze_null_values (chunks : list chunk) : py_result null_analysis :=
  match null_loop chunks (NullState ∅ 0) with
  | Raised e => Raised e
  | Return st =>
      if (total_rows st =? 0)%Z && negb (bool_decide (null_counts st = ∅))
      then Raised ZeroDivisionError
      else Return (NullAnalysis
                     (null_counts st)
                     ((fun count => (inject_Z count / inject_Z (total_rows st)) * 100)%Q
                        <$> null_counts st)
                     (total_rows st))
  end.

(** *** The chunks pandas reads from a file

    [pd.read_csv(path, chunksize=n)] parses [n] rows at a time and
    infers the dtype of every column from the cells of the chunk at
    hand: a column is numeric in a chunk when each of its cells there is
    missing or a number, boolean when each is a boolean literal, and
    [object] otherwise. *)

(** The default [na_values] of [read_csv]. *)
Definition na_values : list string :=
  [""; "#N/A"; "#N/A N/A"; "#NA"; "-1.#IND"; "-1.#QNAN"; "-NaN"; "-nan";
   "1.#IND"; "1.#QNAN"; "<NA>"; "N/A"; "NA"; "NULL"; "NaN"; "None"; "n/a";
   "nan"; "null"].

Definition is_na (s : string) : bool := bool_decide (s ∈ na_values).

Definition true_values : list string := ["True"; "TRUE"; "true"].
Definition false_values : list string := ["False"; "FALSE"; "false"].

Section Reader.

(** The parser of numeric literals. *)
Variable to_float : string -> option Q.

Definition numeric_cell (s : string) : bool :=
  is_na s || bool_decide (is_Some (to_float s)).

Definition bool_cell (s : string) : bool :=
  bool_decide (s ∈ true_values) || bool_decide (s ∈ false_values).

Definition infer_series (cells : list string) : series :=
  if forallb numeric_cell cells
  then NumSeries (map (fun s => if is_na s then None else to_float s) cells)
  else if forallb bool_cell cells
  then BoolSeries (map (fun s => bool_decide (s ∈ true_values)) cells)
  else ObjSeries (map (fun s => if is_na s then None else Some s) cells).

(** Consecutive groups of [n] rows, the last one possibly shorter;
    [k] is the room left in the group [cur] being filled (in reverse). *)
Fixpoint group_rows {A} (n k : nat) (cur : list A) (l : list A) : list (list A) :=
  match l with
  | [] => match cur with [] => [] | _ => [rev cur] end
  | x :: r =>
      match k with
      | 0 => rev cur :: group_rows n (n - 1) [x] r
      | S k' => group_rows n k' (x :: cur) r
      end
  end.

(** The frame of one group of rows: a row too short for a column has
    a missing cell there. *)
Definition frame_of (header : list string) (rows : list (list string)) : chunk :=
  map (fun jn : nat * string =>
         (jn.2, infer_series (map (fun row : list string => nth jn.1 row "") rows)))
      (enumerate header).

(** The chunks of a file with the given header and data rows;
    [chunksize] is at least one. *)
Definition read_csv (chunksize : nat) (header : list string)
    (rows : list (list string)) : list chunk :=
  match chunksize with
  | 0 => []
  | S _ => map (frame_of header) (group_rows chunksize chunksize [] rows)
  end.

End Reader.

(** *** Chunks that cut one table *)

(** Rows of [b] appended to the rows of [a], when the dtypes agree. *)
Definition append_series (a b : series) : option series :=
  match a, b with
  | NumSeries x, NumSeries y => Some (NumSeries (x ++ y))
  | ObjSeries x, ObjSeries y => Some (ObjSeries (x ++ y))
  | BoolSeries x, BoolSeries y => Some (BoolSeries (x ++ y))
  | _, _ => None
  end.

Fixpoint append_chunk (a b : chunk) : option chunk :=
  match a, b with
  | [], [] => Some []
  | (na, sa) :: ra, (nb, sb) :: rb =>
      if String.eqb na nb
      then match append_series sa sb, append_chunk ra rb with
           | Some s, Some r => Some ((na, s) :: r)
           | _, _ => None
           end
      else None
  | _, _ => None
  end.

(** The table a non-empty list of chunks cuts, when all the chunks
    have the same columns with the same dtypes. *)
Fixpoint concat_chunks (first : chunk) (rest : list chunk) : option chunk :=
  match rest with
  | [] => Some first
  | c :: rest' =>
      match append_chunk first c with
      | Some fc => concat_chunks fc rest'
      | None => None
      end
  end.

(** [chunks] is a cut of the table [t] into chunks with rows. *)
Definition chunking_of (t : chunk) (chunks : list chunk) : Prop :=
  match chunks with
  | [] => False
  | c :: rest => concat_chunks c rest = Some t
  end
  /\ Forall (fun c => 0 < chunk_len c) chunks.

(** No column of the chunk has more than [k] rows. *)
Definition rows_at_most (k : nat) (c : chunk) : Prop :=
  Forall (fun ns : string * series => series_len ns.2 <= k) c.

(** *** Chunks that cut one table, as pandas types them

    A column that has no value at all in a chunk is read there as
    float64, whatever its dtype in the chunks that hold a value of it:
    the third chunk of the file [id,amount,category], [1,10.5,X],
    [2,,Y], [3,20.0,] read one row at a time has a float64 column
    [category]. *)

Definition all_missing {A} (cells : list (option A)) : bool :=
  forallb (fun o => match o with None => true | Some _ => false end) cells.

(** As many missing cells as [cells] has cells. *)
Definition missing {A B} (cells : list (option A)) : list (option B) :=
  map (fun _ => None) cells.

(** Rows of [b] appended to the rows of [a]: the dtypes agree, or one
    of the two is an [object] column and the other has missing cells
    only. *)
Definition join_series (a b : series) : option series :=
  match a, b with
  | NumSeries x, NumSeries y => Some (NumSeries (x ++ y))
  | ObjSeries x, ObjSeries y => Some (ObjSeries (x ++ y))
  | BoolSeries x, BoolSeries y => Some (BoolSeries (x ++ y))
  | ObjSeries x, NumSeries y =>
      if all_missing y then Some (ObjSeries (x ++ missing y)) else None
  | NumSeries x, ObjSeries y =>
      if all_missing x then Some (ObjSeries (missing x ++ y)) else None
  | _, _ => None
  end.

Fixpoint join_chunk (a b : chunk) : option chunk :=
  match a, b with
  | [], [] => Some []
  | (na, sa) :: ra, (nb, sb) :: rb =>
      if String.eqb na nb
      then match join_series sa sb, join_chunk ra rb with
           | Some s, Some r => Some ((na, s) :: r)
           | _, _ => None
           end
      else None
  | _, _ => None
  end.

Fixpoint join_chunks (first : chunk) (rest : list chunk) : option chunk :=
  match rest with
  | [] => Some first
  | c :: rest' =>
      match join_chunk first c with
      | Some fc => join_chunks fc rest'
      | None => None
      end
  end.

(** [chunks] holds the rows of the table [t] in order, every chunk has
    a row, and every column has in each chunk the dtype it has in [t],
    or is float64 in a chunk where all its cells are missing. *)
Definition cut_of (t : chunk) (chunks : list chunk) : Prop :=
  match chunks with
  | [] => False
  | c :: rest => join_chunks c rest = Some t
  end
  /\ Forall (fun c => 0 < chunk_len c) chunks.

(** *** What is compared between two chunk sizes *)

(** The count, min and max of a numeric accumulator that has counted
    a value. *)
Definition numeric_summary (a : num_acc) : option (Z * ext * ext) :=
  if (0 <? acc_count a)%Z
  then Some (acc_count a, acc_min a, acc_max a)
  else None.

(** An entry of [final_stats] without its mean. *)
Inductive entry_summary :=
| NumericSummary (min max : ext) (count null_count : Z)
| CategoricalSummary (unique_values : nat) (null_count : Z).

Definition summary_of (e : final_entry) : entry_summary :=
  match e with
  | FinalNumeric _ lo hi count null_count => NumericSummary lo hi count null_count
  | FinalCategorical unique null_count => CategoricalSummary unique null_count
  end.

(** *** A run as a whole

    The numeric accumulators without their sample of values, the
    frequency maps, the finalized entries and the null analysis. *)
Definition forget_values (a : num_acc) : num_acc :=
  NumAcc (acc_sum a) (acc_count a) (acc_min a) (acc_max a) [].

Record aggregation := Aggregation {
  agg_numeric : gmap string num_acc;
  agg_categorical : gmap string (gmap string Z);
  agg_final : gmap string final_entry;
  agg_nulls : py_result null_analysis
}.

Definition aggregate (total_rows : Z) (chunks : list chunk) : aggregation :=
  let st := process_chunks chunks in
  Aggregation (forget_values <$> numeric_stats st)
              (categorical_stats st)
              (calculate_descriptive_statistics total_rows chunks)
              (analyze_null_values chunks).

End Pipeline.

(** ** The running sum of a float64 column

    [numeric_stats[col]['sum'] += chunk[col].sum()] adds binary64
    numbers, and every addition rounds to the nearest one.  The cells
    are those of one column of dtype float64, chunk after chunk. *)

Module Float64.
Import PrimFloat Pipeline.

(** [chunk[col].sum()]: the missing cells are skipped and the others
    are added one after the other.  (numpy does so below eight values
    and adds longer arrays in blocks; the chunks this is run on have
    seven rows at most.) *)
Definition series_sum (cells : list (option float)) : float :=
  fold_left PrimFloat.add (dropna cells) 0%float.

(** The ['sum'] and the ['count'] of the accumulator. *)
Record sum_acc := SumAcc {
  float_sum : float;
  float_count : Z
}.

(** ['sum': 0, 'count': 0] *)
Definition new_sum_acc : sum_acc := SumAcc 0%float 0.

(** [numeric_stats[col]['sum'] += chunk[col].sum()] and
    [numeric_stats[col]['count'] += chunk[col].count()] *)
Definition update_sum (stats : sum_acc) (cells : list (option float)) : sum_acc :=
  SumAcc (float_sum stats + series_sum cells)%float
         (float_count stats + Z.of_nat (length (dropna cells)))%Z.

Definition process_column (chunks : list (list (option float))) : sum_acc :=
  fold_left update_sum chunks new_sum_acc.

(** [mean = stats['sum'] / stats['count']] *)
Definition mean (stats : sum_acc) : float :=
  (float_sum stats / of_uint63 (Uint63.of_Z (float_count stats)))%float.

(** The cells of the column, [chunksize] rows at a time. *)
Definition read_column (chunksize : nat) (cells : list (option float))
  : list (list (option float)) :=
  match chunksize with
  | 0 => []
  | S _ => group_rows chunksize chunksize [] cells
  end.

(** The cell [1.0], and the binary64 number nearest to 0.1, which a
    cell [0.1] is read as. *)
Definition one : float := 1%float.
Definition tenth : float := 0x1.999999999999ap-4%float.

End Float64.

(** ** The order of the frequency dictionary

    [categorical_stats[col]] is a Python [dict]: it lists its keys in
    the order of their insertion, and [sorted] is stable, so that
    ['top_5_values'] lists the values of equal count in the order in
    which the loop over the chunks met them. *)

Module TopValues.
Import Pipeline.

(** A [dict] from values to counts, in insertion order. *)
Definition odict := list (string * Z).

(** [if value in d: d[value] += count] [else: d[value] = count] *)
Fixpoint add_item (d : odict) (vc : string * Z) : odict :=
  match d with
  | [] => [vc]
  | kn :: r =>
      if String.eqb kn.1 vc.1 then (kn.1, (kn.2 + vc.2)%Z) :: r
      else kn :: add_item r vc
  end.

(** Insertion into a list sorted by decreasing count, after the
    entries of equal count. *)
Fixpoint insert_desc (kv : string * Z) (l : list (string * Z))
  : list (string * Z) :=
  match l with
  | [] => [kv]
  | kv' :: r =>
      if (kv'.2 <? kv.2)%Z then kv :: l else kv' :: insert_desc kv r
  end.

(** [sorted(items, key=lambda x: x[1], reverse=True)] *)
Definition sorted_by_count (items : list (string * Z)) : list (string * Z) :=
  fold_left (fun acc kv => insert_desc kv acc) items [].

(** [series.value_counts().items()]: the values that are not [NaN]
    with their counts, the most frequent first; pandas lists values of
    equal count in the order of their first occurrence. *)
Definition value_counts_items (cells : list (option string)) : list (string * Z) :=
  sorted_by_count (fold_left (fun d v => add_item d (v, 1%Z)) (dropna cells) []).

(** The body of the loop over the chunks for the column [col]: nothing
    happens in a chunk that does not type it as [object]. *)
Definition column_step (col : string) (o : option odict) (c : chunk)
  : option odict :=
  match find (fun oc : string * list (option string) => String.eqb oc.1 col)
             (categorical_cols c) with
  | Some oc => Some (fold_left add_item (value_counts_items oc.2) (default [] o))
  | None => o
  end.

(** [categorical_stats.get(col)] after the loop. *)
Definition frequencies (col : string) (chunks : list chunk) : option odict :=
  fold_left (column_step col) chunks None.

(** [final_stats[col]['top_5_values']] *)
Definition top_5_values (col : string) (chunks : list chunk)
  : option (list (string * Z)) :=
  (fun d => firstn 5 (sorted_by_count d)) <$> frequencies col chunks.

End TopValues.

(** ** The passes of [SimpleDataAnalyzer] over the file

    The file as [csv.reader] yields it, header row first.  Every pass
    opens the file anew and starts with [next(reader)]. *)

Module SimpleFile.
Import PyData Simple.

Inductive exn := StopIteration.

Inductive outcome (A : Type) :=
| Ok (a : A)
| Raise (e : exn).
Arguments Ok {A} a.
Arguments Raise {A} e.

(** [count_rows_and_columns]: the [StopIteration] of an empty file is
    caught and leaves [total_rows = 0] and [columns = []].  The result
    is [(total_rows, columns)]. *)
Definition count_rows_and_columns (reader : list (list string))
  : nat * list string :=
  match reader with
  | [] => (0, [])
  | columns :: rest => (length rest, columns)
  end.

(** [get_sample_data]: [next(reader)] skips the header outside any
    [try]; the loop stops at [i >= nrows]. *)
Definition get_sample_data (nrows : nat) (reader : list (list string))
  : outcome (list (list string)) :=
  match reader with
  | [] => Raise StopIteration
  | _ :: rest => Ok (take nrows rest)
  end.

Definition analyze_null_values (reader : list (list string))
  : outcome null_analysis :=
  match reader with
  | [] => Raise StopIteration
  | columns :: rows => Ok (Simple.analyze_null_values columns rows)
  end.

Definition calculate_basic_statistics (to_float : string -> option Q)
    (reader : list (list string)) : outcome (gmap string summary) :=
  match reader with
  | [] => Raise StopIteration
  | columns :: rows => Ok (Simple.calculate_basic_statistics to_float columns rows)
  end.

End SimpleFile.

(** ** The sampling loop of [create_visualizations]

    For a numeric column the chunks are read with [usecols=[col]] and
    their values gathered for the histogram until more than 10000 are
    held. *)

Module Visual.
Import Pipeline.

Definition plot_limit : Z := 10000.

(** [values.extend(chunk[col].dropna().tolist())] and then
    [if len(values) > 10000: break], chunk after chunk. *)
Fixpoint gather_values {A} (chunks : list (list (option A))) (values : list A)
  : list A :=
  match chunks with
  | [] => values
  | cells :: rest =>
      let values := values ++ dropna cells in
      if (plot_limit <? Z.of_nat (length values))%Z then values
      else gather_values rest values
  end.

End Visual.


(** ** [generate_summary_report] of the pipeline

    The report is built line by line and joined with newlines.  The
    format specifications of the f-strings ([:,], [.1f], [.2f]) and
    [str] are taken as given; what is modelled is which values they
    are applied to: a format specification for a number applied to the
    default ['N/A'] of [dict.get] raises [ValueError]. *)

Module Report.
Import PyData Pipeline.

Inductive exn := ValueError.

Inductive outcome (A : Type) :=
| Ok (a : A)
| Raise (e : exn).
Arguments Ok {A} a.
Arguments Raise {A} e.

(** An entry of [descriptive_stats] as the report reads it: the keys
    it looks up with [stats.get], [None] for an absent key. *)
Record stats_dict := StatsDict {
  sd_mean : option Q;
  sd_min : option ext;
  sd_max : option ext;
  sd_count : option Z;
  sd_unique_values : option nat;
  sd_top_5_values : option (list (string * Z))
}.

(** The entry [calculate_descriptive_statistics] writes, [top_5] being
    its ['top_5_values']. *)
Definition stats_dict_of (top_5 : list (string * Z)) (e : final_entry) : stats_dict :=
  match e with
  | FinalNumeric mean lo hi count _ =>
      StatsDict (Some mean) (Some lo) (Some hi) (Some count) None None
  | FinalCategorical unique _ =>
      StatsDict None None None None (Some unique) (Some top_5)
  end.

Record structure_info := StructureInfo {
  si_total_rows : Z;
  si_columns_count : nat;
  si_file_size_mb : Q;
  si_estimated_memory_mb : Q
}.

(** [sub in s] *)
Fixpoint contains (sub s : string) : bool :=
  String.prefix sub s
  || match s with
     | EmptyString => false
     | String _ r => contains sub r
     end.

(** The pieces of an f-string put together. *)
Definition cat (pieces : list string) : string := String.concat "" pieces.

(** [c * n] *)
Fixpoint times (c : ascii) (n : nat) : string :=
  match n with
  | 0 => EmptyString
  | S n' => String c (times c n')
  end.

(** ["\n".join(report)] *)
Fixpoint join_lines (report : list string) : string :=
  match report with
  | [] => EmptyString
  | [l] => l
  | l :: r => String.append l (String "010"%char (join_lines r))
  end.

Section Formats.

(** [f"{n:,}"], [f"{x:.1f}"], [f"{x:.2f}"] and [str] on the values
    the report prints. *)
Variable fmt_thousands : Z -> string.
Variable fmt_1f : Q -> string.
Variable fmt_2f : Q -> string.
Variable str_float : ext -> string.
Variable str_int : nat -> string.

(** [self.csv_path], [self.encoding], [self.separator], [self.dtypes]:
    the dtypes are the items of the dictionary, in order, with
    [str(dtype)]. *)
Variable csv_path : string.
Variable encoding : option string.
Variable separator : string.
Variable dtypes : option (list (string * string)).

(** [f"{stats.get(key, 'N/A'):<spec>}"] with a numeric format
    specification. *)
Definition format_number {A} (fmt : A -> string) (value : option A) : outcome string :=
  match value with
  | Some x => Ok (fmt x)
  | None => Raise ValueError
  end.

(** [f"{stats.get(key, 'N/A')}"] *)
Definition format_plain {A} (str : A -> string) (value : option A) : string :=
  match value with
  | Some x => str x
  | None => "N/A"
  end.

(** The lines of one column of the "Numeric Columns" section. *)
Definition numeric_lines (descriptive_stats : gmap string stats_dict) (col : string)
  : outcome (list string) :=
  match descriptive_stats !! col with
  | None => Ok []
  | Some stats =>
      match format_number fmt_2f (sd_mean stats) with
      | Raise e => Raise e
      | Ok mean =>
          match format_number fmt_thousands (sd_count stats) with
          | Raise e => Raise e
          | Ok count =>
              Ok [ cat ["  "; col; ":"];
                   cat ["    Mean: "; mean];
                   cat ["    Min: "; format_plain str_float (sd_min stats)];
                   cat ["    Max: "; format_plain str_float (sd_max stats)];
                   cat ["    Count: "; count] ]
          end
      end
  end.

Fixpoint numeric_section (descriptive_stats : gmap string stats_dict)
    (cols : list string) : outcome (list string) :=
  match cols with
  | [] => Ok []
  | col :: rest =>
      match numeric_lines descriptive_stats col with
      | Raise e => Raise e
      | Ok lines =>
          match numeric_section descriptive_stats rest with
          | Raise e => Raise e
          | Ok more => Ok (lines ++ more)
          end
      end
  end.

(** The lines of one column of the "Categorical Columns" section. *)
Definition categorical_lines (descriptive_stats : gmap string stats_dict) (col : string)
  : list string :=
  match descriptive_stats !! col with
  | None => []
  | Some stats =>
      [ cat ["  "; col; ":"];
        cat ["    Unique values: "; format_plain str_int (sd_unique_values stats)];
        "    Top 5 values:" ]
      ++ map (fun vc : string * Z => cat ["      "; vc.1; ": "; fmt_thousands vc.2])
             (take 5 (default [] (sd_top_5_values stats)))
  end.

(** [[col for col, dtype in self.dtypes.items() if 'int' in str(dtype)
    or 'float' in str(dtype)]] and its categorical counterpart. *)
Definition numeric_dtype_cols (dt : list (string * string)) : list string :=
  map fst (List.filter (fun cd => contains "int" cd.2 || contains "float" cd.2) dt).

Definition object_dtype_cols (dt : list (string * string)) : list string :=
  map fst (List.filter (fun cd => contains "object" cd.2) dt).

(** "if self.dtypes:": neither [None] nor empty. *)
Definition dtypes_given : list (string * string) :=
  match dtypes with
  | Some dt => dt
  | None => []
  end.

Definition statistics_lines (descriptive_stats : gmap string stats_dict)
  : outcome (list string) :=
  let numeric_cols := numeric_dtype_cols dtypes_given in
  let categorical_cols := object_dtype_cols dtypes_given in
  match numeric_section descriptive_stats (take 5 numeric_cols) with
  | Raise e => Raise e
  | Ok numeric =>
      Ok ((match numeric_cols with
           | [] => []
           | _ :: _ => "Numeric Columns:" :: numeric
           end)
          ++
          (match categorical_cols with
           | [] => []
           | _ :: _ =>
               String "010"%char "Categorical Columns:"
               :: concat (map (categorical_lines descriptive_stats)
                              (take 5 categorical_cols))
           end))
  end.

(** [null_percentages] are the items of the dictionary, in order. *)
Definition generate_summary_report (info : structure_info)
    (null_percentages : list (string * Q))
    (descriptive_stats : gmap string stats_dict) : outcome string :=
  let head :=
    [ times "="%char 80;
      "EFFICIENT DATA PIPELINE ANALYSIS REPORT";
      times "="%char 80;
      "";
      "FILE INFORMATION:";
      times "-"%char 40;
      cat ["File path: "; csv_path];
      cat ["Encoding: "; match encoding with Some e => e | None => "None" end];
      cat ["Separator: '"; separator; "'"];
      cat ["Total rows: "; fmt_thousands (si_total_rows info)];
      cat ["Total columns: "; str_int (si_columns_count info)];
      cat ["File size: "; fmt_1f (si_file_size_mb info); " MB"];
      cat ["Estimated memory usage: "; fmt_1f (si_estimated_memory_mb info); " MB"];
      "";
      "COLUMN INFORMATION:";
      times "-"%char 40 ]
    ++ map (fun cd : string * string => cat [cd.1; ": "; cd.2]) dtypes_given
    ++ [ "";
         "NULL VALUE ANALYSIS:";
         times "-"%char 40 ]
    ++ map (fun cp : string * Q => cat [cp.1; ": "; fmt_2f cp.2; "% null values"])
           (List.filter (fun cp => Qltb 0 cp.2) null_percentages)
    ++ [ "";
         "DESCRIPTIVE STATISTICS:";
         times "-"%char 40 ] in
  let tail :=
    [ "";
      "MEMORY EFFICIENCY NOTES:";
      times "-"%char 40;
      "- Used chunked processing to avoid loading entire file into memory";
      "- Implemented memory management with explicit deletion of chunks";
      "- Limited visualization data to prevent memory overflow";
      "- Used efficient data types and avoided unnecessary copies";
      "";
      "RECOMMENDATIONS:";
      times "-"%char 40;
      "1. Consider data type optimization for memory reduction";
      "2. Implement data validation for data quality improvement";
      "3. Add data lineage tracking for production environments";
      "4. Consider partitioning for very large datasets";
      "5. Implement incremental processing for real-time updates" ] in
  match statistics_lines descriptive_stats with
  | Raise e => Raise e
  | Ok stats => Ok (join_lines (head ++ stats ++ tail))
  end.

End Formats.

End Report.


(** * Properties *)

Module PyStrFacts.
Import PyStr.

Lemma split_nonempty sep s : split sep s <> [].
Proof.
  destruct s as [|c r]; simpl; [discriminate|].
  destruct (Ascii.eqb c sep); [discriminate|].
  destruct (split sep r); discriminate.
Qed.

Lemma length_split sep s : length (split sep s) = S (occurrences sep s).
Proof.
  induction s as [|c r IH]; simpl; [reflexivity|].
  destruct (Ascii.eqb c sep); simpl; [now rewrite IH|].
  destruct (split sep r) as [|f fs] eqn:E; [now apply split_nonempty in E|].
  simpl in *. exact IH.
Qed.

Lemma strip_all_space s :
  strip s = EmptyString <-> (forall c, In c (list_ascii_of_string s) -> is_space c = true).
Proof.
  unfold strip. induction s as [|c r IH]; simpl.
  - split; [intros _ ? []|reflexivity].
  - destruct (is_space c) eqn:Ec.
    + rewrite IH. split.
      * intros H x [<-|Hx]; auto.
      * intros H x Hx. apply H. now right.
    + simpl. split.
      * destruct (rstrip r); rewrite ?Ec; discriminate.
      * intros H. specialize (H c (or_introl eq_refl)). congruence.
Qed.

End PyStrFacts.

Module SnifferFacts.
Import PyStr PyStrFacts Sniffer.

Lemma fields_pos sep line : 1 <= fields sep line.
Proof. unfold fields. rewrite length_split. lia. Qed.

Lemma fields_absent sep line : occurrences sep line = 0 -> fields sep line = 1.
Proof. unfold fields. rewrite length_split. lia. Qed.

(** What one run of the scanning loop establishes, from any start
    state [(m, b)]. *)
Lemma scan_inv line (l : list ascii) : forall m b,
  let r := scan line l (m, b) in
  m <= r.1 /\
  (forall c, c ∈ l -> fields c line <= r.1) /\
  ((r.1 = m /\ r.2 = b) \/
   (m < r.1 /\ exists i, l !! i = Some r.2 /\ fields r.2 line = r.1 /\
      forall j c, j < i -> l !! j = Some c -> fields c line < r.1)).
Proof.
  induction l as [|c l IH]; intros m b; cbv zeta.
  - simpl. split; [lia|]. split; [intros c Hc; inversion Hc|]. now left.
  - change (scan line (c :: l) (m, b))
      with (scan line l (scan_step line (m, b) c)).
    unfold scan_step. cbn [fst]. fold (fields c line).
    destruct (Nat.ltb_spec m (fields c line)) as [Hlt|Hge].
    + destruct (IH (fields c line) c) as (Hle & Hall & Hcase).
      set (r := scan line l (fields c line, c)) in *.
      split; [lia|]. split.
      * intros c' Hc'. apply elem_of_cons in Hc' as [->|Hc']; auto.
      * right. split; [lia|]. destruct Hcase as [[Hn Hs]|(Hn & i & Hi & Hf & Hbefore)].
        -- exists 0. rewrite Hs. simpl. split; [reflexivity|]. split; [lia|].
           intros j c' Hj. lia.
        -- exists (S i). simpl. split; [exact Hi|]. split; [exact Hf|].
           intros [|j] c' Hj Hc'; simpl in Hc'.
           ++ injection Hc' as <-. lia.
           ++ apply (Hbefore j); [lia|exact Hc'].
    + destruct (IH m b) as (Hle & Hall & Hcase).
      set (r := scan line l (m, b)) in *.
      split; [lia|]. split.
      * intros c' Hc'. apply elem_of_cons in Hc' as [->|Hc']; [lia|auto].
      * destruct Hcase as [Hsame|(Hn & i & Hi & Hf & Hbefore)]; [now left|].
        right. split; [lia|]. exists (S i). simpl.
        split; [exact Hi|]. split; [exact Hf|].
        intros [|j] c' Hj Hc'; simpl in Hc'.
        -- injection Hc' as <-. lia.
        -- apply (Hbefore j); [lia|exact Hc'].
Qed.

Lemma separators_NoDup : NoDup separators.
Proof. apply (bool_decide_unpack _). vm_compute. reflexivity. Qed.

(** The detector returns a candidate of maximal field count, and the
    earliest such candidate. *)
Lemma detect_separator_earliest_max line :
  let r := detect_separator line in
  r.2 ∈ separators /\
  r.1 = fields r.2 line /\
  (forall c, c ∈ separators -> fields c line <= r.1) /\
  (forall i j c, separators !! i = Some r.2 -> separators !! j = Some c ->
                 j < i -> fields c line < r.1).
Proof.
  intros r. destruct (scan_inv line separators 0 ","%char) as (_ & Hall & Hcase).
  fold (detect_separator line) in Hall, Hcase. fold r in Hall, Hcase.
  destruct Hcase as [[Hn _]|(_ & i & Hi & Hf & Hbefore)].
  - assert (H : fields ","%char line <= r.1) by (apply Hall; set_solver).
    pose proof (fields_pos ","%char line). lia.
  - split; [eapply list_elem_of_lookup_2; exact Hi|].
    split; [symmetry; exact Hf|]. split; [exact Hall|].
    intros i' j c Hi' Hj Hlt.
    assert (i' = i) as -> by (eapply NoDup_lookup; eauto using separators_NoDup).
    eapply Hbefore; eauto.
Qed.

End SnifferFacts.

Module SnifferSpec.
Import PyStr PyStrFacts Sniffer SnifferFacts.

(** C5, as stated, fails on its example: splitting ["a,b;c,d,e"] on
    the comma gives four fields, not three. *)
Lemma C5_comma_yields_four_not_three :
  fields ","%char "a,b;c,d,e" = 4 /\ fields ","%char "a,b;c,d,e" <> 3.
Proof. split; [reflexivity|discriminate]. Qed.

(** C5 (amended): for every first line the detector returns a
    candidate of [separators] whose field count is the maximum over
    all candidates, and every candidate earlier in the list has a
    strictly smaller field count (ties go to the earlier candidate);
    on ["a,b;c,d,e"] the comma yields 4 fields, the semicolon 2, and
    the comma is selected. *)
Theorem C5_detect_separator_earliest_maximum :
  (forall line,
      let r := detect_separator line in
      r.2 ∈ separators /\
      r.1 = fields r.2 line /\
      (forall c, c ∈ separators -> fields c line <= r.1) /\
      (forall i j c, separators !! i = Some r.2 -> separators !! j = Some c ->
                     j < i -> fields c line < r.1)) /\
  fields ","%char "a,b;c,d,e" = 4 /\
  fields ";"%char "a,b;c,d,e" = 2 /\
  detect_separator "a,b;c,d,e" = (4, ","%char).
Proof.
  split; [exact detect_separator_earliest_max|].
  repeat split; reflexivity.
Qed.

(** C10: a first line containing none of the candidate separators is
    detected as comma-separated with one column, and in every case
    the returned separator belongs to the candidate list, whose
    first element, the comma, is the default. *)
Theorem C10_default_separator :
  (forall line,
      (forall c, c ∈ separators -> occurrences c line = 0) ->
      detect_separator line = (1, ","%char)) /\
  (forall line, (detect_separator line).2 ∈ separators) /\
  separators !! 0 = Some ","%char.
Proof.
  split; [|split; [|reflexivity]].
  - intros line Hnone. unfold detect_separator, scan, separators. simpl.
    unfold scan_step. simpl.
    assert (Hf : forall c, c ∈ separators -> length (split c line) = 1)
      by (intros c Hc; apply fields_absent, Hnone, Hc).
    rewrite !Hf by (unfold separators; set_solver). reflexivity.
  - intros line. apply (detect_separator_earliest_max line).
Qed.

(** C9, as stated, fails: on the empty file detection raises nothing
    and returns a profile, in the row-by-row analyzer and in the
    pipeline ([chardet] names no encoding for an empty sample). *)
Lemma C9_empty_file_yields_profile :
  detect_encoding_and_separator empty_file = Ok (Profile "utf-8" ","%char 1) /\
  ~ (exists e, detect_encoding_and_separator empty_file = Raise e) /\
  detect_file_properties (None, 0%Q) (fun _ => Some EmptyString)
    = Ok (FileProperties None ","%char 0%Q 1).
Proof.
  split; [reflexivity|]. split; [|reflexivity].
  intros [e He]. discriminate He.
Qed.

(** C9 (amended): when the first line is blank under every candidate
    encoding (in particular for an empty file), detection signals no
    error; it returns the default profile: encoding utf-8, separator
    comma, one column (in the pipeline: the encoding and confidence
    reported by the detector, separator comma, one column).  The only
    error detection signals is the decoding error of reading the first
    line under the encoding it settled on. *)
Theorem C9_blank_first_line_default_profile :
  (forall f : text_file,
      (forall enc, enc ∈ encodings_to_try ->
                   exists line, f enc = Some line /\ strip line = EmptyString) ->
      detect_encoding_and_separator f = Ok (Profile "utf-8" ","%char 1)) /\
  (forall (f : text_file) e,
      detect_encoding_and_separator f = Raise e ->
      e = UnicodeDecodeError /\
      f (try_encodings f encodings_to_try "utf-8") = None) /\
  (forall detected f line,
      f detected.1 = Some line -> strip line = EmptyString ->
      detect_file_properties detected f
      = Ok (FileProperties detected.1 ","%char detected.2 1)).
Proof.
  split; [|split].
  - intros f Hblank. unfold detect_encoding_and_separator.
    assert (Henc : try_encodings f encodings_to_try "utf-8" = "utf-8").
    { unfold encodings_to_try in *. simpl.
      destruct (Hblank "utf-8") as (l1 & -> & ->); [set_solver|].
      destruct (Hblank "latin-1") as (l2 & -> & ->); [set_solver|].
      destruct (Hblank "cp1252") as (l3 & -> & ->); [set_solver|].
      reflexivity. }
    rewrite Henc. destruct (Hblank "utf-8") as (l & -> & ->);
      [unfold encodings_to_try; set_solver|]. reflexivity.
  - intros f e. unfold detect_encoding_and_separator.
    destruct (f (try_encodings f encodings_to_try "utf-8")) as [line|].
    + destruct (detect_separator (strip line)). discriminate.
    + destruct e. auto.
  - intros detected f line Hf Hline. unfold detect_file_properties.
    rewrite Hf, Hline. reflexivity.
Qed.

Lemma C9_blank_first_line_default_profile_witness :
  detect_encoding_and_separator empty_file = Ok (Profile "utf-8" ","%char 1).
Proof.
  apply (proj1 C9_blank_first_line_default_profile empty_file).
  intros enc _. exists EmptyString. split; reflexivity.
Defined.

Lemma single_column_header_example :
  detect_separator "customer_id" = (1, ","%char).
Proof. reflexivity. Qed.

End SnifferSpec.

Module SimpleFacts.
Import PyStr PyStrFacts PyData Simple.

(** The cell of [row] that [enum_from k row] pairs with index [i]. *)
Definition hit (i k : nat) (row : list string) : option string :=
  if decide (k <= i) then row !! (i - k) else None.

Lemma hit_cons_here i v row : hit i i (v :: row) = Some v.
Proof. unfold hit. rewrite decide_True by lia. now rewrite Nat.sub_diag. Qed.

Lemma hit_cons_other i k v row : k <> i -> hit i k (v :: row) = hit i (S k) row.
Proof.
  intros Hne. unfold hit. destruct (decide (k <= i)) as [Hle|Hgt].
  - rewrite decide_True by lia. replace (i - k) with (S (i - S k)) by lia.
    reflexivity.
  - now rewrite decide_False by lia.
Qed.

Lemma hit_nil i k : hit i k [] = None.
Proof. unfold hit. now destruct (decide (k <= i)). Qed.

Lemma hit_zero i row : hit i 0 row = row !! i.
Proof. unfold hit. rewrite decide_True by lia. now rewrite Nat.sub_0_r. Qed.

Lemma count_of_bump key col m :
  count_of (bump key m) col =
  if decide (key = col) then S (count_of m col) else count_of m col.
Proof.
  unfold count_of, bump. rewrite lookup_insert.
  destruct (decide (key = col)) as [->|]; reflexivity.
Qed.

Section Column.

Variable to_float : string -> option Q.
Variable columns : list string.
Hypothesis columns_unique : NoDup columns.

Variable i : nat.
Variable col : string.
Hypothesis col_at_i : columns !! i = Some col.

Lemma index_of_col k : columns !! k = Some col -> k = i.
Proof. intros Hk. eapply NoDup_lookup; eauto. Qed.

(** **** Null counting, seen from one column *)

Definition null_incr (o : option string) : nat :=
  match o with
  | Some v => if blank v then 1 else 0
  | None => 0
  end.

Lemma null_cells_col row : forall k nc,
  count_of (fold_left (null_cell columns) (enum_from k row) nc) col =
  count_of nc col + null_incr (hit i k row).
Proof.
  induction row as [|v row IH]; intros k nc; simpl.
  - rewrite hit_nil. simpl. lia.
  - rewrite IH. unfold null_cell. simpl.
    destruct (decide (k = i)) as [->|Hne].
    + rewrite col_at_i, hit_cons_here.
      assert (Hnext : hit i (S i) row = None)
        by (unfold hit; now rewrite decide_False by lia).
      rewrite Hnext. simpl. unfold blank.
      destruct (truthy (strip v)); simpl; [lia|].
      rewrite count_of_bump, decide_True by reflexivity. lia.
    + rewrite (hit_cons_other i k v row Hne).
      destruct (columns !! k) as [c|] eqn:Ek; [|reflexivity].
      destruct (truthy (strip v)); [reflexivity|].
      rewrite count_of_bump, decide_False; [reflexivity|].
      intros ->. apply Hne, index_of_col, Ek.
Qed.

Lemma null_rows_col rows : forall st,
  let st' := fold_left (null_row columns) rows st in
  count_of (null_counts st') col =
    count_of (null_counts st) col + length (filter (fun v => blank v = true) (column_cells i rows))
  /\ total_rows st' = total_rows st + length rows.
Proof.
  induction rows as [|row rows IH]; intros st; cbv zeta; simpl.
  - split; lia.
  - destruct (IH (null_row columns st row)) as [Hc Ht]. rewrite Hc, Ht.
    unfold null_row, enumerate. simpl.
    rewrite null_cells_col, hit_zero. unfold column_cells. simpl.
    fold (column_cells i rows).
    destruct (row !! i) as [v|]; simpl; [|split; lia].
    rewrite filter_cons. destruct (blank v) eqn:Eb; simpl; split; lia.
Qed.

(** **** Statistics, seen from one column *)

Definition stats_apply (o : option string) (cs : col_stats) : col_stats :=
  match o with
  | Some v => stats_value to_float v cs
  | None => cs
  end.

Lemma stats_cells_col row : forall k stats,
  fold_left (stats_cell to_float columns) (enum_from k row) stats !! col =
  stats_apply (hit i k row) <$> stats !! col.
Proof.
  induction row as [|v row IH]; intros k stats; simpl.
  - rewrite hit_nil. simpl. now destruct (stats !! col).
  - rewrite IH. unfold stats_cell. simpl.
    destruct (decide (k = i)) as [->|Hne].
    + rewrite col_at_i, hit_cons_here.
      assert (Hnext : hit i (S i) row = None)
        by (unfold hit; now rewrite decide_False by lia).
      rewrite Hnext, lookup_alter_eq. simpl. now destruct (stats !! col).
    + rewrite (hit_cons_other i k v row Hne).
      destruct (columns !! k) as [c|] eqn:Ek; [|reflexivity].
      rewrite lookup_alter_ne; [reflexivity|].
      intros ->. apply Hne, index_of_col, Ek.
Qed.

Definition stats_fold (cells : list string) (cs : col_stats) : col_stats :=
  fold_left (fun cs v => stats_value to_float v cs) cells cs.

Lemma stats_rows_col rows : forall stats,
  fold_left (stats_row to_float columns) rows stats !! col =
  stats_fold (column_cells i rows) <$> stats !! col.
Proof.
  induction rows as [|row rows IH]; intros stats; simpl.
  - now destruct (stats !! col).
  - rewrite IH. unfold stats_row, enumerate.
    rewrite stats_cells_col, hit_zero. unfold column_cells. simpl.
    fold (column_cells i rows).
    destruct (stats !! col) as [cs|]; simpl; [|reflexivity].
    now destruct (row !! i).
Qed.

Lemma init_stats_lookup_gen (l : list string) :
  forall (m : gmap string col_stats) (c : string),
  fold_left (fun stats col => <[col := empty_col_stats]> stats) l m !! c =
  if decide (c ∈ l) then Some empty_col_stats else m !! c.
Proof.
  induction l as [|x l IH]; intros m c; cbn [fold_left].
  - rewrite decide_False; [reflexivity|]. apply not_elem_of_nil.
  - rewrite IH. destruct (decide (c ∈ l)) as [Hin|Hnin].
    + rewrite decide_True; [reflexivity|]. now apply elem_of_cons; right.
    + destruct (decide (c = x)) as [->|Hne].
      * rewrite lookup_insert_eq, decide_True; [reflexivity|]. apply elem_of_cons; now left.
      * rewrite lookup_insert_ne by congruence. rewrite decide_False; [reflexivity|].
        intros [->|H]%elem_of_cons; contradiction.
Qed.

Lemma init_stats_col : init_stats columns !! col = Some empty_col_stats.
Proof.
  unfold init_stats. rewrite init_stats_lookup_gen, decide_True; [reflexivity|].
  eapply list_elem_of_lookup_2, col_at_i.
Qed.

Lemma accumulate_col rows :
  accumulate to_float columns rows !! col =
  Some (stats_fold (column_cells i rows) empty_col_stats).
Proof. unfold accumulate. now rewrite stats_rows_col, init_stats_col. Qed.

End Column.

(** **** One column's accumulator as a function of its cells *)

Section Cells.

Variable to_float : string -> option Q.

Lemma counter_total_incr key c : counter_total (counter_incr key c) = S (counter_total c).
Proof.
  unfold counter_total.
  induction c as [|[k n] c IH]; cbn [counter_incr]; [reflexivity|].
  destruct (String.eqb k key); cbn [fold_right snd]; [reflexivity|].
  rewrite IH. lia.
Qed.

Lemma stats_fold_numeric cells : forall cs,
  numeric_values (stats_fold to_float cells cs) =
  numeric_values cs ++ omap to_float cells.
Proof.
  induction cells as [|v cells IH]; intros cs; simpl.
  - now rewrite app_nil_r.
  - unfold stats_fold in *. rewrite IH. unfold stats_value. simpl.
    destruct (to_float v) as [q|]; simpl.
    + now rewrite <- app_assoc.
    + now destruct (truthy (strip v)).
Qed.

Lemma stats_fold_total cells : forall cs,
  total_count (stats_fold to_float cells cs) = total_count cs + length cells.
Proof.
  induction cells as [|v cells IH]; intros cs; simpl; [lia|].
  unfold stats_fold in *. rewrite IH. unfold stats_value. simpl.
  destruct (to_float v); simpl; [lia|].
  destruct (truthy (strip v)); simpl; lia.
Qed.

Lemma stats_fold_strings cells : forall cs,
  string_values (stats_fold to_float cells cs) =
  fold_left (fun c v => counter_incr v c)
            (filter (fun v => string_cell to_float v = true) cells) (string_values cs).
Proof.
  induction cells as [|v cells IH]; intros cs; simpl; [reflexivity|].
  unfold stats_fold in *. rewrite IH, filter_cons. unfold stats_value, string_cell.
  destruct (to_float v); simpl; [reflexivity|].
  destruct (truthy (strip v)); reflexivity.
Qed.

Lemma counter_total_fold (l : list string) : forall c,
  counter_total (fold_left (fun c v => counter_incr v c) l c) =
  counter_total c + length l.
Proof.
  induction l as [|v l IH]; intros c; simpl; [lia|].
  rewrite IH, counter_total_incr. lia.
Qed.

(** Every cell is numeric, a string, or blank, and exactly one of the
    three, as soon as blank cells do not parse. *)
Lemma cells_partition (cells : list string) :
  (forall s, blank s = true -> to_float s = None) ->
  length (filter (fun v => blank v = true) cells)
  + (length (omap to_float cells)
     + length (filter (fun v => string_cell to_float v = true) cells))
  = length cells.
Proof.
  intros Hblank. induction cells as [|v cells IH]; [reflexivity|].
  rewrite !filter_cons. cbn [omap list_omap].
  pose proof (Hblank v) as Hv.
  destruct (decide (blank v = true)) as [Eb|Eb],
           (decide (string_cell to_float v = true)) as [Es|Es];
    unfold string_cell, blank in Eb, Es, Hv;
    destruct (to_float v) as [q|], (truthy (strip v));
    simpl in *; try lia; try discriminate; try congruence.
  discriminate Hv; reflexivity.
Qed.

End Cells.

Lemma column_cells_cons i row rows :
  column_cells i (row :: rows) =
  match row !! i with
  | Some v => v :: column_cells i rows
  | None => column_cells i rows
  end.
Proof. reflexivity. Qed.

Lemma column_cells_length i rows :
  length (column_cells i rows) + length (short_rows i rows) = length rows.
Proof.
  unfold short_rows.
  induction rows as [|row rows IH]; [reflexivity|].
  rewrite filter_cons, column_cells_cons. destruct (row !! i) as [v|] eqn:E.
  - apply lookup_lt_Some in E. rewrite decide_False by lia. cbn [length]. lia.
  - apply lookup_ge_None in E. rewrite decide_True by lia. cbn [length]. lia.
Qed.

Lemma dec_float_blank s : blank s = true -> dec_float s = None.
Proof.
  unfold blank, dec_float. destruct (strip s); [reflexivity|discriminate].
Qed.

(** **** Cells beyond the header are ignored *)

Section Beyond.

Variable to_float : string -> option Q.
Variable columns : list string.

Lemma null_cells_take row : forall k nc,
  fold_left (null_cell columns) (enum_from k (take (length columns - k) row)) nc =
  fold_left (null_cell columns) (enum_from k row) nc.
Proof.
  induction row as [|v row IH]; intros k nc.
  - now rewrite take_nil.
  - destruct (decide (k < length columns)) as [Hlt|Hge].
    + replace (length columns - k) with (S (length columns - S k)) by lia.
      simpl. apply IH.
    + replace (length columns - k) with 0 by lia. simpl.
      unfold null_cell at 2. simpl.
      rewrite (proj2 (lookup_ge_None columns k)) by lia.
      rewrite <- IH. replace (length columns - S k) with 0 by lia. reflexivity.
Qed.

Lemma stats_cells_take row : forall k stats,
  fold_left (stats_cell to_float columns)
            (enum_from k (take (length columns - k) row)) stats =
  fold_left (stats_cell to_float columns) (enum_from k row) stats.
Proof.
  induction row as [|v row IH]; intros k stats.
  - now rewrite take_nil.
  - destruct (decide (k < length columns)) as [Hlt|Hge].
    + replace (length columns - k) with (S (length columns - S k)) by lia.
      simpl. apply IH.
    + replace (length columns - k) with 0 by lia. simpl.
      unfold stats_cell at 2. simpl.
      rewrite (proj2 (lookup_ge_None columns k)) by lia.
      rewrite <- IH. replace (length columns - S k) with 0 by lia. reflexivity.
Qed.

Lemma null_rows_take rows : forall st,
  fold_left (null_row columns) (map (take (length columns)) rows) st =
  fold_left (null_row columns) rows st.
Proof.
  induction rows as [|row rows IH]; intros st; simpl; [reflexivity|].
  rewrite IH. f_equal. unfold null_row, enumerate. f_equal.
  rewrite <- (null_cells_take row 0). now rewrite Nat.sub_0_r.
Qed.

Lemma stats_rows_take rows : forall stats,
  fold_left (stats_row to_float columns) (map (take (length columns)) rows) stats =
  fold_left (stats_row to_float columns) rows stats.
Proof.
  induction rows as [|row rows IH]; intros stats; simpl; [reflexivity|].
  rewrite IH. f_equal. unfold stats_row, enumerate.
  rewrite <- (stats_cells_take row 0). now rewrite Nat.sub_0_r.
Qed.

End Beyond.

End SimpleFacts.

Module SimpleSpec.
Import PyStr PyData Simple SimpleFacts.

(** C3, as stated, fails: in the column ["1"; "x"; "2"] the value "x"
    is neither blank nor a number, yet the column is finalized as
    numeric, and "2", which comes after "x", is counted (count is 2);
    the quick analyzer, with its default of 10000 rows, does the same. *)
Lemma C3_mixed_column_is_numeric :
  dec_float "x" = None /\ blank "x" = false /\
  calculate_basic_statistics dec_float ["c"] [["1"]; ["x"]; ["2"]] !! "c"
  = Some (Numeric 2 (3 # 2) (Some 1%Q) (Some 2%Q) 1) /\
  _calculate_stats dec_float ["c"] (Z.to_nat 10000) [["1"]; ["x"]; ["2"]] !! "c"
  = Some (Numeric 2 (3 # 2) (Some 1%Q) (Some 2%Q) 1).
Proof. repeat split; vm_compute; reflexivity. Qed.

(** C3 (amended): each cell is routed on its own.  For every column of
    a header with unique names, the numeric values are the parsed
    values of all the cells that parse, wherever they stand in the
    column; the string counter counts the cells that neither parse nor
    are blank; and the column is finalized as numeric if and only if
    at least one of its cells parses as a number. *)
Theorem C3_cells_routed_independently
    (to_float : string -> option Q) (columns : list string)
    (rows : list (list string)) (i : nat) (col : string) :
  NoDup columns ->
  columns !! i = Some col ->
  let cells := column_cells i rows in
  exists cs,
    accumulate to_float columns rows !! col = Some cs /\
    numeric_values cs = omap to_float cells /\
    string_values cs =
      fold_left (fun c v => counter_incr v c)
                (filter (fun v => string_cell to_float v = true) cells) [] /\
    calculate_basic_statistics to_float columns rows !! col = Some (finalize cs) /\
    (is_numeric (finalize cs) = true <->
     exists v, v ∈ cells /\ is_Some (to_float v)).
Proof.
  intros Hnd Hcol cells.
  exists (stats_fold to_float cells empty_col_stats).
  pose proof (accumulate_col to_float columns Hnd i col Hcol rows) as Hacc.
  fold cells in Hacc.
  split; [exact Hacc|]. split; [apply stats_fold_numeric|].
  split; [apply stats_fold_strings|]. split.
  - unfold calculate_basic_statistics. now rewrite lookup_fmap, Hacc.
  - unfold finalize. rewrite stats_fold_numeric. simpl.
    destruct (omap to_float cells) as [|q qs] eqn:E; simpl.
    + split; [discriminate|]. intros (v & Hv & [q Hq]).
      assert (Hin : q ∈ omap to_float cells)
        by (apply list_elem_of_omap; eauto).
      rewrite E in Hin. inversion Hin.
    + split; [|reflexivity]. intros _.
      assert (Hin : q ∈ omap to_float cells) by (rewrite E; left).
      apply list_elem_of_omap in Hin as (v & Hv & Hq). eauto.
Qed.

Lemma C3_cells_routed_independently_witness :
  exists cs,
    accumulate dec_float ["c"] [["1"]; ["x"]; ["2"]] !! "c" = Some cs /\
    numeric_values cs = [1%Q; 2%Q].
Proof.
  destruct (C3_cells_routed_independently dec_float ["c"]
              [["1"]; ["x"]; ["2"]] 0 "c") as (cs & Hacc & Hnum & _).
  - apply (bool_decide_unpack _). vm_compute. reflexivity.
  - reflexivity.
  - exists cs. split; [exact Hacc|]. rewrite Hnum. vm_compute. reflexivity.
Defined.

(** C6, as stated, fails: with the header [a, b], the one-field row
    [" "] is not skipped: its cell is counted as a null of [a] and is
    counted in the statistics of [a]. *)
Lemma C6_short_row_is_accumulated :
  na_null_counts (analyze_null_values ["a"; "b"] [[" "]]) !! "a" = Some 1 /\
  na_null_counts (analyze_null_values ["a"; "b"] []) !! "a" = None /\
  total_count <$> (accumulate dec_float ["a"; "b"] [[" "]] !! "a") = Some 1.
Proof. repeat split; vm_compute; reflexivity. Qed.

(** C6 (amended): every row counts toward [total_rows], whatever its
    field count, and no count of malformed rows is kept.  Each cell of
    a row standing below the header's column count is folded into the
    accumulators of its column, also when the row's field count
    differs from the header's: the null count of a column is the number
    of blank cells found at its position, and its [total_count] the
    number of cells found there.  Only the cells beyond the header's
    column count are ignored. *)
Theorem C6_rows_are_never_skipped
    (to_float : string -> option Q) (columns : list string)
    (rows : list (list string)) (i : nat) (col : string) :
  NoDup columns ->
  columns !! i = Some col ->
  na_total_rows (analyze_null_values columns rows) = length rows /\
  count_of (na_null_counts (analyze_null_values columns rows)) col
    = length (filter (fun v => blank v = true) (column_cells i rows)) /\
  total_count <$> (accumulate to_float columns rows !! col)
    = Some (length (column_cells i rows)) /\
  analyze_null_values columns (map (take (length columns)) rows)
    = analyze_null_values columns rows /\
  calculate_basic_statistics to_float columns (map (take (length columns)) rows)
    = calculate_basic_statistics to_float columns rows.
Proof.
  intros Hnd Hcol.
  destruct (null_rows_col columns Hnd i col Hcol rows (NullState ∅ 0))
    as [Hnull Htotal].
  unfold analyze_null_values. cbn [na_total_rows na_null_counts].
  split; [exact Htotal|]. split; [rewrite Hnull; reflexivity|]. split.
  - rewrite (accumulate_col to_float columns Hnd i col Hcol). simpl.
    now rewrite stats_fold_total.
  - split.
    + now rewrite null_rows_take.
    + unfold calculate_basic_statistics, accumulate.
      now rewrite stats_rows_take.
Qed.

Lemma C6_rows_are_never_skipped_witness :
  na_total_rows (analyze_null_values ["a"; "b"] [[" "]; ["1"; "2"; "3"]]) = 2.
Proof.
  destruct (C6_rows_are_never_skipped dec_float ["a"; "b"]
              [[" "]; ["1"; "2"; "3"]] 0 "a") as (Htotal & _).
  - apply (bool_decide_unpack _). vm_compute. reflexivity.
  - reflexivity.
  - exact Htotal.
Defined.



End SimpleSpec.

Module MergeFacts.
Import Pipeline.

(** Key-wise addition on the union of the keys. *)
Definition add_maps (a b : gmap string Z) : gmap string Z :=
  union_with (fun x y => Some (x + y)%Z) a b.

Lemma add_count_lookup (a : gmap string Z) (vc : string * Z) (k : string) :
  add_count a vc !! k =
  if decide (vc.1 = k)
  then Some (match a !! k with Some n => (n + vc.2)%Z | None => vc.2 end)
  else a !! k.
Proof.
  unfold add_count. destruct vc as [v c]; simpl.
  destruct (decide (v = k)) as [->|Hne].
  - destruct (a !! k); now rewrite lookup_insert_eq.
  - destruct (a !! v); now rewrite lookup_insert_ne.
Qed.

Lemma fold_add_count_lookup (l : list (string * Z)) :
  NoDup l.*1 ->
  forall (a : gmap string Z) (k : string),
    fold_left add_count l a !! k =
    union_with (fun x y => Some (x + y)%Z) (a !! k)
               ((list_to_map l : gmap string Z) !! k).
Proof.
  induction l as [|[v c] l IH]; intros Hnd a k; simpl.
  - rewrite lookup_empty. now destruct (a !! k).
  - apply NoDup_cons in Hnd as [Hv Hnd]. rewrite (IH Hnd), add_count_lookup. simpl.
    destruct (decide (v = k)) as [->|Hne].
    + rewrite lookup_insert_eq.
      rewrite (not_elem_of_list_to_map_1 (M := gmap string) l k Hv).
      now destruct (a !! k).
    + now rewrite lookup_insert_ne.
Qed.

Lemma merge_add_maps (a b : gmap string Z) : merge a b = add_maps a b.
Proof.
  apply map_eq. intros k. unfold merge, add_maps.
  rewrite fold_add_count_lookup by apply NoDup_fst_map_to_list.
  now rewrite list_to_map_to_list, lookup_union_with.
Qed.

Lemma merge_lookup (a b : gmap string Z) (k : string) :
  merge a b !! k =
  match a !! k, b !! k with
  | Some x, Some y => Some (x + y)%Z
  | Some x, None => Some x
  | None, Some y => Some y
  | None, None => None
  end.
Proof.
  rewrite merge_add_maps. unfold add_maps. rewrite lookup_union_with.
  now destruct (a !! k), (b !! k).
Qed.

Lemma merge_comm (a b : gmap string Z) : merge a b = merge b a.
Proof.
  apply map_eq. intros k. rewrite !merge_lookup.
  destruct (a !! k), (b !! k); f_equal; lia.
Qed.

Lemma merge_assoc (a b c : gmap string Z) :
  merge (merge a b) c = merge a (merge b c).
Proof.
  apply map_eq. intros k. rewrite !merge_lookup.
  destruct (a !! k), (b !! k), (c !! k); f_equal; lia.
Qed.

Lemma merge_empty_l (a : gmap string Z) : merge ∅ a = a.
Proof.
  apply map_eq. intros k. rewrite merge_lookup, lookup_empty. now destruct (a !! k).
Qed.

Lemma merge_empty_r (a : gmap string Z) : merge a ∅ = a.
Proof. reflexivity. Qed.

Lemma dom_merge (a b : gmap string Z) : dom (merge a b) = dom a ∪ dom b.
Proof.
  apply set_eq. intros k. rewrite elem_of_union, !elem_of_dom, merge_lookup.
  destruct (a !! k) as [x|], (b !! k) as [y|]; split; intros H;
    try (destruct H as [H|H]); try (now destruct H as [? H]); eauto.
Qed.

End MergeFacts.

Module MergeSpec.
Import Pipeline MergeFacts.

(** C1: merging two categorical accumulators adds the counts key by
    key over the union of the keys; the merge is associative and
    commutative; and merging {"X": 3} with {"X": 2, "Y": 1} gives
    {"X": 5, "Y": 1}. *)
Theorem C1_merge_keywise_sum_assoc_comm :
  (forall (a b : gmap string Z) (k : string),
      merge a b !! k =
      match a !! k, b !! k with
      | Some x, Some y => Some (x + y)%Z
      | Some x, None => Some x
      | None, Some y => Some y
      | None, None => None
      end) /\
  (forall a b : gmap string Z, dom (merge a b) = dom a ∪ dom b) /\
  (forall a b c : gmap string Z, merge (merge a b) c = merge a (merge b c)) /\
  (forall a b : gmap string Z, merge a b = merge b a) /\
  merge {[ "X" := 3%Z ]} (<[ "Y" := 1%Z ]> {[ "X" := 2%Z ]})
    = <[ "Y" := 1%Z ]> {[ "X" := 5%Z ]}.
Proof.
  split; [exact merge_lookup|]. split; [exact dom_merge|].
  split; [exact merge_assoc|]. split; [exact merge_comm|].
  apply (bool_decide_unpack _). vm_compute. reflexivity.
Qed.

End MergeSpec.

(** ** Exact sums and running bounds *)

Module NumFacts.
Import PyData Pipeline.

Lemma Qplus_assoc_eq (x y z : Q) : (x + y + z = x + (y + z))%Q.
Proof.
  destruct x as [a b], y as [c d], z as [e f]. unfold Qplus. simpl.
  f_equal; [|now rewrite Pos.mul_assoc].
  rewrite !Pos2Z.inj_mul. ring.
Qed.

Lemma Qplus_0_l_eq (x : Q) : (0 + x = x)%Q.
Proof. destruct x as [a b]. unfold Qplus. simpl. f_equal. lia. Qed.

Lemma fold_Qplus_start (l : list Q) : forall x, fold_left Qplus l x = (x + qsum l)%Q.
Proof.
  unfold qsum. induction l as [|y l IH]; intros x; simpl.
  - destruct x as [a b]. unfold Qplus. simpl. f_equal; [lia|].
    now rewrite Pos.mul_1_r.
  - rewrite (IH (x + y)%Q), (IH (0 + y)%Q), Qplus_0_l_eq. apply Qplus_assoc_eq.
Qed.

Lemma qsum_app (u v : list Q) : qsum (u ++ v) = (qsum u + qsum v)%Q.
Proof.
  unfold qsum at 1. rewrite fold_left_app. fold (qsum u). apply fold_Qplus_start.
Qed.

Lemma Qltb_lt (p q : Q) : Qltb p q = true <-> (p < q)%Q.
Proof.
  unfold Qltb. rewrite negb_true_iff. split.
  - intros H. apply Qnot_le_lt. intros Hle. apply Qle_bool_iff in Hle. congruence.
  - intros H. destruct (Qle_bool q p) eqn:E; [|reflexivity].
    apply Qle_bool_iff in E. exfalso. exact (Qlt_not_le _ _ H E).
Qed.

Lemma ext_ltb_trans (a b c : ext) :
  ext_ltb a b = true -> ext_ltb b c = true -> ext_ltb a c = true.
Proof.
  destruct a as [|p|], b as [|q|], c as [|r|]; simpl; try congruence.
  rewrite !Qltb_lt. apply Qlt_trans.
Qed.

Lemma ext_ltb_cotrans (a b c : ext) :
  ext_ltb a c = true -> ext_ltb a b = true \/ ext_ltb b c = true.
Proof.
  destruct a as [|p|], b as [|q|], c as [|r|]; simpl; auto; try congruence.
  rewrite !Qltb_lt. intros H. destruct (Qlt_le_dec p q) as [Hlt|Hle]; [now left|].
  right. eapply Qle_lt_trans; eauto.
Qed.

(** Running extrema for any strict order [R] on the extended floats;
    [R x y] reads "x replaces y". *)
Section Extremum.

Variable R : ext -> ext -> bool.
Hypothesis R_trans : forall a b c, R a b = true -> R b c = true -> R a c = true.
Hypothesis R_cotrans : forall a b c, R a c = true -> R a b = true \/ R b c = true.

Definition pick2 (a : ext) (b : option Q) : ext :=
  match b with
  | Some q => if R (Fin q) a then Fin q else a
  | None => a
  end.

Definition pick_list (l : list Q) : option Q :=
  match l with
  | [] => None
  | x :: r => Some (fold_left (fun m y => if R (Fin y) (Fin m) then y else m) r x)
  end.

Definition fold_ext (a : ext) (l : list Q) : ext :=
  fold_left (fun m y => if R (Fin y) m then Fin y else m) l a.

Lemma fold_ext_Fin (r : list Q) : forall x,
  fold_ext (Fin x) r
  = Fin (fold_left (fun m y => if R (Fin y) (Fin m) then y else m) r x).
Proof.
  unfold fold_ext. induction r as [|y r IH]; intros x; simpl; [reflexivity|].
  destruct (R (Fin y) (Fin x)); apply IH.
Qed.

Lemma fold_ext_replaces (r : list Q) : forall e a,
  R e a = true -> R (fold_ext e r) a = true.
Proof.
  unfold fold_ext. induction r as [|y r IH]; intros e a He; simpl; [exact He|].
  apply IH. destruct (R (Fin y) e) eqn:Ey; [|exact He].
  eapply R_trans; eauto.
Qed.

Lemma fold_ext_later (r : list Q) : forall e a,
  R e a = false ->
  (if R (fold_ext e r) a then fold_ext e r else a) = fold_ext a r.
Proof.
  induction r as [|y r IH]; intros e a He.
  - simpl. now rewrite He.
  - change (fold_ext e (y :: r))
      with (fold_ext (if R (Fin y) e then Fin y else e) r).
    change (fold_ext a (y :: r))
      with (fold_ext (if R (Fin y) a then Fin y else a) r).
    destruct (R (Fin y) a) eqn:Eya.
    + destruct (R_cotrans (Fin y) e a Eya) as [Eye|Eea]; [|congruence].
      rewrite Eye. now rewrite (fold_ext_replaces r (Fin y) a Eya).
    + apply IH. now destruct (R (Fin y) e).
Qed.

Lemma pick2_fold (l : list Q) (a : ext) : pick2 a (pick_list l) = fold_ext a l.
Proof.
  destruct l as [|x r]; [reflexivity|].
  unfold pick2, pick_list. rewrite <- fold_ext_Fin.
  change (fold_ext a (x :: r))
    with (fold_ext (if R (Fin x) a then Fin x else a) r).
  destruct (R (Fin x) a) eqn:Ex.
  - now rewrite (fold_ext_replaces r (Fin x) a Ex).
  - now apply fold_ext_later.
Qed.

Lemma pick2_app (u v : list Q) (a : ext) :
  pick2 (pick2 a (pick_list u)) (pick_list v) = pick2 a (pick_list (u ++ v)).
Proof.
  rewrite !pick2_fold. unfold fold_ext. now rewrite fold_left_app.
Qed.

End Extremum.

Lemma min2_app (u v : list Q) (a : ext) :
  min2 (min2 a (py_min u)) (py_min v) = min2 a (py_min (u ++ v)).
Proof.
  apply (pick2_app ext_ltb ext_ltb_trans ext_ltb_cotrans u v a).
Qed.

Lemma max2_app (u v : list Q) (a : ext) :
  max2 (max2 a (py_max u)) (py_max v) = max2 a (py_max (u ++ v)).
Proof.
  apply (pick2_app (fun x y => ext_ltb y x)).
  - intros x y z Hxy Hyz. eapply ext_ltb_trans; eauto.
  - intros x y z Hxz. destruct (ext_ltb_cotrans z y x Hxz); auto.
Qed.

Lemma dropna_app {A} (u v : list (option A)) : dropna (u ++ v) = dropna u ++ dropna v.
Proof. unfold dropna. apply omap_app. Qed.

(** Two updates in a row are one update with the cells appended, up
    to the sample of values. *)
Lemma update_numeric_app (s : num_acc) (u v : list (option Q)) :
  forget_values (update_numeric (update_numeric s u) v)
  = forget_values (update_numeric s (u ++ v)).
Proof.
  unfold forget_values, update_numeric. cbn [acc_sum acc_count acc_min acc_max].
  rewrite dropna_app, qsum_app, length_app, min2_app, max2_app, Qplus_assoc_eq.
  f_equal. lia.
Qed.

Lemma update_numeric_forget (s s' : num_acc) (cells : list (option Q)) :
  forget_values s = forget_values s' ->
  forget_values (update_numeric s cells) = forget_values (update_numeric s' cells).
Proof.
  unfold forget_values, update_numeric. cbn [acc_sum acc_count acc_min acc_max].
  intros H. injection H as -> -> -> ->. reflexivity.
Qed.

End NumFacts.

(** ** The chunked pipeline, column by column *)

Module PipelineFacts.
Import PyData Pipeline MergeFacts NumFacts.

(** [chunk[col]]: the first column of that name. *)
Fixpoint assoc {A} (k : string) (l : list (string * A)) : option A :=
  match l with
  | [] => None
  | kx :: r => if decide (kx.1 = k) then Some kx.2 else assoc k r
  end.

Definition num_of (o : option series) : option (list (option Q)) :=
  match o with
  | Some (NumSeries cells) => Some cells
  | _ => None
  end.

Definition obj_of (o : option series) : option (list (option string)) :=
  match o with
  | Some (ObjSeries cells) => Some cells
  | _ => None
  end.

Lemma assoc_None {A} (k : string) (l : list (string * A)) :
  k ∉ l.*1 -> assoc k l = None.
Proof.
  induction l as [|[k' x] l IH]; simpl; [reflexivity|].
  intros Hk. apply not_elem_of_cons in Hk as [Hne Hk].
  rewrite decide_False by congruence. auto.
Qed.

(** A loop that rewrites the entry of each key it meets touches every
    key once when the keys are distinct. *)
Lemma fold_insert_lookup {A B} (f : option B -> A -> B) (l : list (string * A)) :
  NoDup l.*1 ->
  forall (m : gmap string B) (col : string),
    fold_left (fun (m : gmap string B) (kx : string * A) =>
                 <[kx.1 := f (m !! kx.1) kx.2]> m) l m !! col
    = match assoc col l with
      | Some x => Some (f (m !! col) x)
      | None => m !! col
      end.
Proof.
  induction l as [|[k x] l IH]; intros Hnd m col; [reflexivity|].
  apply NoDup_cons in Hnd as [Hk Hnd]. cbn [fold_left assoc fst snd].
  rewrite (IH Hnd). destruct (decide (k = col)) as [->|Hne].
  - rewrite (assoc_None col l Hk). apply lookup_insert_eq.
  - rewrite lookup_insert_ne by exact Hne. reflexivity.
Qed.

Lemma numeric_cols_names (c : chunk) (k : string) :
  k ∈ (numeric_cols c).*1 -> k ∈ c.*1.
Proof.
  unfold numeric_cols. induction c as [|[n s] c IH]; simpl; [auto|].
  destruct s; simpl; intros H; [|now right; auto..].
  apply elem_of_cons in H as [->|H]; [left|right; auto].
Qed.

Lemma categorical_cols_names (c : chunk) (k : string) :
  k ∈ (categorical_cols c).*1 -> k ∈ c.*1.
Proof.
  unfold categorical_cols. induction c as [|[n s] c IH]; simpl; [auto|].
  destruct s; simpl; intros H; [now right; auto| |now right; auto].
  apply elem_of_cons in H as [->|H]; [left|right; auto].
Qed.

Lemma numeric_cols_NoDup (c : chunk) : NoDup c.*1 -> NoDup (numeric_cols c).*1.
Proof.
  induction c as [|[n s] c IH]; intros Hnd; [constructor|].
  apply NoDup_cons in Hnd as [Hn Hnd]. specialize (IH Hnd).
  destruct s; try exact IH.
  change (NoDup (n :: (numeric_cols c).*1)). apply NoDup_cons. split; [|exact IH].
  intros Hin. apply Hn, numeric_cols_names, Hin.
Qed.

Lemma categorical_cols_NoDup (c : chunk) : NoDup c.*1 -> NoDup (categorical_cols c).*1.
Proof.
  induction c as [|[n s] c IH]; intros Hnd; [constructor|].
  apply NoDup_cons in Hnd as [Hn Hnd]. specialize (IH Hnd).
  destruct s; try exact IH.
  change (NoDup (n :: (categorical_cols c).*1)). apply NoDup_cons. split; [|exact IH].
  intros Hin. apply Hn, categorical_cols_names, Hin.
Qed.

Lemma assoc_numeric_cols (c : chunk) (col : string) :
  NoDup c.*1 -> assoc col (numeric_cols c) = num_of (assoc col c).
Proof.
  induction c as [|[n s] c IH]; intros Hnd; [reflexivity|].
  apply NoDup_cons in Hnd as [Hn Hnd]. specialize (IH Hnd).
  cbn [assoc fst snd]. destruct (decide (n = col)) as [->|Hne].
  - destruct s; cbn [num_of];
      try (change (assoc col (numeric_cols c) = None); apply assoc_None;
           intros Hin; apply Hn, numeric_cols_names, Hin).
    change (assoc col ((col, cells) :: numeric_cols c) = Some cells).
    cbn [assoc fst snd]. now rewrite decide_True.
  - rewrite <- IH. destruct s; try reflexivity.
    change (assoc col ((n, cells) :: numeric_cols c) = assoc col (numeric_cols c)).
    cbn [assoc fst snd]. now rewrite decide_False.
Qed.

Lemma assoc_categorical_cols (c : chunk) (col : string) :
  NoDup c.*1 -> assoc col (categorical_cols c) = obj_of (assoc col c).
Proof.
  induction c as [|[n s] c IH]; intros Hnd; [reflexivity|].
  apply NoDup_cons in Hnd as [Hn Hnd]. specialize (IH Hnd).
  cbn [assoc fst snd]. destruct (decide (n = col)) as [->|Hne].
  - destruct s; cbn [obj_of];
      try (change (assoc col (categorical_cols c) = None); apply assoc_None;
           intros Hin; apply Hn, categorical_cols_names, Hin).
    change (assoc col ((col, cells) :: categorical_cols c) = Some cells).
    cbn [assoc fst snd]. now rewrite decide_True.
  - rewrite <- IH. destruct s; try reflexivity.
    change (assoc col ((n, cells) :: categorical_cols c)
            = assoc col (categorical_cols c)).
    cbn [assoc fst snd]. now rewrite decide_False.
Qed.

(** What one chunk does to the accumulators of one column. *)
Definition num_apply (col : string) (c : chunk) (o : option num_acc) : option num_acc :=
  match num_of (assoc col c) with
  | Some cells => Some (update_numeric (default new_num_acc o) cells)
  | None => o
  end.

Definition cat_apply (col : string) (c : chunk) (o : option (gmap string Z))
  : option (gmap string Z) :=
  match obj_of (assoc col c) with
  | Some cells => Some (merge (default ∅ o) (value_counts cells))
  | None => o
  end.

Lemma process_chunk_num (st : stats_state) (c : chunk) (col : string) :
  NoDup c.*1 ->
  numeric_stats (process_chunk st c) !! col = num_apply col c (numeric_stats st !! col).
Proof.
  intros Hnd. unfold process_chunk, num_apply. cbn [numeric_stats].
  rewrite <- (assoc_numeric_cols c col Hnd).
  apply (fold_insert_lookup (fun o cells => update_numeric (default new_num_acc o) cells)).
  now apply numeric_cols_NoDup.
Qed.

Lemma process_chunk_cat (st : stats_state) (c : chunk) (col : string) :
  NoDup c.*1 ->
  categorical_stats (process_chunk st c) !! col
  = cat_apply col c (categorical_stats st !! col).
Proof.
  intros Hnd. unfold process_chunk, cat_apply. cbn [categorical_stats].
  rewrite <- (assoc_categorical_cols c col Hnd).
  apply (fold_insert_lookup (fun o cells => merge (default ∅ o) (value_counts cells))).
  now apply categorical_cols_NoDup.
Qed.

(** *** Appending chunks *)

Lemma append_chunk_names (a : chunk) : forall b ab,
  append_chunk a b = Some ab -> ab.*1 = a.*1 /\ b.*1 = a.*1.
Proof.
  induction a as [|[na sa] a IH]; intros [|[nb sb] b] ab H; simpl in H;
    try discriminate.
  - injection H as <-. split; reflexivity.
  - destruct (String.eqb na nb) eqn:En; [|discriminate].
    apply String.eqb_eq in En as <-.
    destruct (append_series sa sb) as [s|]; [|discriminate].
    destruct (append_chunk a b) as [r|] eqn:Er; [|discriminate].
    injection H as <-. destruct (IH b r Er) as [H1 H2].
    cbn [fmap list_fmap fst]. split; f_equal; assumption.
Qed.

(** Column by column, the series of an appended chunk is the append
    of the series. *)
Lemma assoc_append_chunk (a : chunk) : forall b ab col,
  append_chunk a b = Some ab ->
  match assoc col a, assoc col b with
  | Some x, Some y =>
      exists s, append_series x y = Some s /\ assoc col ab = Some s
  | None, None => assoc col ab = None
  | _, _ => False
  end.
Proof.
  induction a as [|[na sa] a IH]; intros [|[nb sb] b] ab col H; simpl in H;
    try discriminate.
  - injection H as <-. reflexivity.
  - destruct (String.eqb na nb) eqn:En; [|discriminate].
    apply String.eqb_eq in En as <-.
    destruct (append_series sa sb) as [s|] eqn:Es; [|discriminate].
    destruct (append_chunk a b) as [r|] eqn:Er; [|discriminate].
    injection H as <-. cbn [assoc fst snd].
    destruct (decide (na = col)) as [->|Hne]; [eauto|].
    apply (IH b r col Er).
Qed.

Lemma chunk_len_append (a b ab : chunk) :
  append_chunk a b = Some ab -> chunk_len ab = chunk_len a + chunk_len b.
Proof.
  destruct a as [|[na sa] a], b as [|[nb sb] b]; simpl; try discriminate.
  - now intros [= <-].
  - destruct (String.eqb na nb); [|discriminate].
    destruct (append_series sa sb) as [s|] eqn:Es; [|discriminate].
    destruct (append_chunk a b); [|discriminate]. intros [= <-]. simpl.
    destruct sa, sb; simpl in Es; try discriminate; injection Es as <-;
      simpl; apply length_app.
Qed.

Lemma concat_chunks_names (rest : list chunk) : forall c t,
  concat_chunks c rest = Some t -> t.*1 = c.*1.
Proof.
  induction rest as [|c2 rest IH]; intros c t H; simpl in H.
  - now injection H as <-.
  - destruct (append_chunk c c2) as [fc|] eqn:E; [|discriminate].
    rewrite (IH fc t H). apply (append_chunk_names c c2 fc E).
Qed.

(** *** Counting values chunk by chunk *)

Definition incr (m : gmap string Z) (v : string) : gmap string Z :=
  <[v := (default 0 (m !! v) + 1)%Z]> m.

Lemma incr_merge (m : gmap string Z) (v : string) : incr m v = merge m {[v := 1%Z]}.
Proof.
  apply map_eq. intros k. unfold incr. rewrite merge_lookup.
  destruct (decide (v = k)) as [->|Hne].
  - rewrite lookup_insert_eq, lookup_singleton_eq. now destruct (m !! k).
  - rewrite lookup_insert_ne, lookup_singleton_ne by exact Hne. now destruct (m !! k).
Qed.

Lemma fold_incr_merge (l : list string) : forall m : gmap string Z,
  fold_left incr l m = merge m (fold_left incr l ∅).
Proof.
  induction l as [|x l IH]; intros m; simpl; [reflexivity|].
  rewrite (IH (incr m x)), (IH (incr ∅ x)), !incr_merge, merge_empty_l.
  apply merge_assoc.
Qed.

Lemma value_counts_app (u v : list (option string)) :
  value_counts (u ++ v) = merge (value_counts u) (value_counts v).
Proof.
  unfold value_counts. rewrite dropna_app, fold_left_app.
  apply (fold_incr_merge (dropna v)).
Qed.

(** *** Runs compared up to the samples of values *)

Definition same_view (st st' : stats_state) : Prop :=
  forget_values <$> numeric_stats st = forget_values <$> numeric_stats st'
  /\ categorical_stats st = categorical_stats st'.

Lemma same_view_refl st : same_view st st.
Proof. split; reflexivity. Qed.

Lemma same_view_trans st1 st2 st3 :
  same_view st1 st2 -> same_view st2 st3 -> same_view st1 st3.
Proof. intros [H1 H2] [H3 H4]. split; congruence. Qed.

Lemma forget_default (o o' : option num_acc) :
  forget_values <$> o = forget_values <$> o' ->
  forget_values (default new_num_acc o) = forget_values (default new_num_acc o').
Proof. destruct o, o'; simpl; congruence. Qed.

Lemma numeric_step_view (m m' : gmap string num_acc) nc :
  forget_values <$> m = forget_values <$> m' ->
  forget_values <$> numeric_step m nc = forget_values <$> numeric_step m' nc.
Proof.
  intros H. unfold numeric_step. rewrite !fmap_insert. rewrite H. f_equal.
  apply update_numeric_forget, forget_default.
  now rewrite <- !lookup_fmap, H.
Qed.

Lemma process_chunk_view (c : chunk) st st' :
  same_view st st' -> same_view (process_chunk st c) (process_chunk st' c).
Proof.
  intros [Hn Hc]. unfold process_chunk. split; cbn [numeric_stats categorical_stats].
  - revert Hn. generalize (numeric_stats st), (numeric_stats st').
    induction (numeric_cols c) as [|nc l IH]; intros m m' H; simpl; [exact H|].
    apply IH, numeric_step_view, H.
  - now rewrite Hc.
Qed.

Lemma process_rest_view (l : list chunk) : forall st st',
  same_view st st' ->
  same_view (fold_left process_chunk l st) (fold_left process_chunk l st').
Proof.
  induction l as [|c l IH]; intros st st' H; simpl; [exact H|].
  apply IH, process_chunk_view, H.
Qed.

(** Two chunks in a row are the appended chunk. *)
Lemma process_chunk_append (a b ab : chunk) (st : stats_state) :
  append_chunk a b = Some ab ->
  NoDup a.*1 ->
  same_view (process_chunk (process_chunk st a) b) (process_chunk st ab).
Proof.
  intros Happ Hnd.
  destruct (append_chunk_names a b ab Happ) as [Hab Hb].
  assert (Hnd_b : NoDup b.*1) by now rewrite Hb.
  assert (Hnd_ab : NoDup ab.*1) by now rewrite Hab.
  split; apply map_eq; intros col.
  - rewrite !lookup_fmap, !process_chunk_num by assumption.
    pose proof (assoc_append_chunk a b ab col Happ) as H. unfold num_apply.
    destruct (assoc col a) as [x|], (assoc col b) as [y|]; try contradiction.
    + destruct H as (s & Hs & ->).
      destruct x, y; simpl in Hs; try discriminate; injection Hs as <-;
        cbn [num_of]; try reflexivity.
      simpl. f_equal. apply update_numeric_app.
    + rewrite H. reflexivity.
  - rewrite !process_chunk_cat by assumption.
    pose proof (assoc_append_chunk a b ab col Happ) as H. unfold cat_apply.
    destruct (assoc col a) as [x|], (assoc col b) as [y|]; try contradiction.
    + destruct H as (s & Hs & ->).
      destruct x, y; simpl in Hs; try discriminate; injection Hs as <-;
        cbn [obj_of]; try reflexivity.
      simpl. f_equal. rewrite value_counts_app. apply merge_assoc.
    + rewrite H. reflexivity.
Qed.

Lemma process_concat (rest : list chunk) : forall c t st,
  concat_chunks c rest = Some t ->
  NoDup c.*1 ->
  same_view (fold_left process_chunk rest (process_chunk st c)) (process_chunk st t).
Proof.
  induction rest as [|c2 rest IH]; intros c t st H Hnd; simpl in H.
  - injection H as <-. apply same_view_refl.
  - destruct (append_chunk c c2) as [fc|] eqn:E; [|discriminate].
    simpl. eapply same_view_trans.
    + apply process_rest_view, (process_chunk_append c c2 fc st E Hnd).
    + apply IH; [exact H|].
      destruct (append_chunk_names c c2 fc E) as [-> _]. exact Hnd.
Qed.

(** The entries of the result do not read the samples. *)
Lemma final_stats_view (total : Z) st st' :
  same_view st st' -> final_stats total st = final_stats total st'.
Proof.
  intros [Hn Hc]. unfold final_stats. rewrite Hc. f_equal.
  apply map_eq. intros col. rewrite !lookup_omap.
  assert (H : forget_values <$> numeric_stats st !! col
              = forget_values <$> numeric_stats st' !! col)
    by now rewrite <- !lookup_fmap, Hn.
  destruct (numeric_stats st !! col) as [x|], (numeric_stats st' !! col) as [y|];
    simpl in *; try discriminate; [|reflexivity].
  injection H as Hs Hk Hlo Hhi. unfold finalize_numeric.
  now rewrite Hs, Hk, Hlo, Hhi.
Qed.


(** *** Null counts chunk by chunk *)

Lemma isnull_sum_lookup (c : chunk) (col : string) :
  isnull_sum c !! col = series_nulls <$> assoc col c.
Proof.
  unfold isnull_sum. induction c as [|[n s] c IH]; [apply lookup_empty|].
  cbn [map list_to_map assoc fst snd foldr uncurry]. 
  destruct (decide (n = col)) as [->|Hne].
  - apply lookup_insert_eq.
  - rewrite <- IH. apply lookup_insert_ne, Hne.
Qed.

Lemma count_none_app {A} (u v : list (option A)) :
  count_none (u ++ v) = count_none u + count_none v.
Proof. unfold count_none. now rewrite filter_app, length_app. Qed.

Lemma series_nulls_append (x y s : series) :
  append_series x y = Some s ->
  series_nulls s = (series_nulls x + series_nulls y)%Z.
Proof.
  destruct x, y; simpl; try discriminate; intros [= <-]; simpl;
    rewrite ?count_none_app; lia.
Qed.

Lemma add_nulls_append (a b ab : chunk) :
  append_chunk a b = Some ab ->
  add_nulls (isnull_sum a) (isnull_sum b) = Return (isnull_sum ab).
Proof.
  intros Happ. unfold add_nulls. rewrite bool_decide_eq_true_2.
  - f_equal. apply map_eq. intros col.
    rewrite map_lookup_imap, !isnull_sum_lookup.
    pose proof (assoc_append_chunk a b ab col Happ) as H.
    destruct (assoc col a) as [x|], (assoc col b) as [y|]; try contradiction.
    + destruct H as (s & Hs & ->). simpl. f_equal.
      symmetry. apply series_nulls_append, Hs.
    + now rewrite H.
  - intros col. rewrite !elem_of_dom, !isnull_sum_lookup.
    pose proof (assoc_append_chunk a b ab col Happ) as H.
    destruct (assoc col a) as [x|], (assoc col b) as [y|]; try contradiction;
      simpl; eauto.
Qed.

Lemma null_loop_concat (rest : list chunk) : forall c t,
  concat_chunks c rest = Some t ->
  0 < chunk_len c ->
  null_loop rest (NullState (isnull_sum c) (Z.of_nat (chunk_len c)))
  = Return (NullState (isnull_sum t) (Z.of_nat (chunk_len t))).
Proof.
  induction rest as [|c2 rest IH]; intros c t H Hlen; simpl in H.
  - now injection H as <-.
  - destruct (append_chunk c c2) as [fc|] eqn:E; [|discriminate].
    cbn [null_loop]. unfold null_step. cbn [total_rows null_counts].
    rewrite (proj2 (Z.eqb_neq _ _)) by lia.
    rewrite (add_nulls_append c c2 fc E).
    pose proof (chunk_len_append c c2 fc E) as Hfc.
    replace (Z.of_nat (chunk_len c) + Z.of_nat (chunk_len c2))%Z
      with (Z.of_nat (chunk_len fc)) by lia.
    apply IH; [exact H|lia].
Qed.

Lemma analyze_null_values_chunking (t : chunk) (chunks : list chunk) :
  chunking_of t chunks -> analyze_null_values chunks = analyze_null_values [t].
Proof.
  intros [Hcat Hlen]. destruct chunks as [|c rest]; [contradiction|].
  apply Forall_cons in Hlen as [Hc _].
  assert (Hloop : forall c' rest',
             null_loop (c' :: rest') (NullState ∅ 0)
             = null_loop rest' (NullState (isnull_sum c') (Z.of_nat (chunk_len c'))))
    by reflexivity.
  unfold analyze_null_values. rewrite !Hloop.
  rewrite (null_loop_concat rest c t Hcat Hc). reflexivity.
Qed.

Lemma process_chunks_chunking (t : chunk) (chunks : list chunk) :
  NoDup t.*1 ->
  chunking_of t chunks ->
  same_view (process_chunks chunks) (process_chunks [t]).
Proof.
  intros Hnd [Hcat _]. destruct chunks as [|c rest]; [contradiction|].
  unfold process_chunks. cbn [fold_left].
  apply process_concat; [exact Hcat|].
  now rewrite <- (concat_chunks_names rest c t Hcat).
Qed.

Lemma aggregate_chunking (total : Z) (t : chunk) (chunks : list chunk) :
  NoDup t.*1 ->
  chunking_of t chunks ->
  aggregate total chunks = aggregate total [t].
Proof.
  intros Hnd Hch. unfold aggregate, calculate_descriptive_statistics.
  pose proof (process_chunks_chunking t chunks Hnd Hch) as Hview.
  rewrite (final_stats_view total _ _ Hview).
  rewrite (analyze_null_values_chunking t chunks Hch).
  destruct Hview as [-> ->]. reflexivity.
Qed.


(** *** The sample of values *)

Definition values_bounded (k : nat) (m : gmap string num_acc) : Prop :=
  forall col acc, m !! col = Some acc ->
    (Z.of_nat (length (acc_values acc)) <= values_cap - 1 + Z.of_nat k)%Z.

Lemma dropna_length {A} (cells : list (option A)) : length (dropna cells) <= length cells.
Proof.
  unfold dropna. induction cells as [|[x|] cells IH];
    cbn [omap list_omap length id] in *; lia.
Qed.

Lemma update_numeric_values_full (stats : num_acc) (cells : list (option Q)) :
  (values_cap <= Z.of_nat (length (acc_values stats)))%Z ->
  acc_values (update_numeric stats cells) = acc_values stats.
Proof.
  intros H. unfold update_numeric. cbn [acc_values].
  now rewrite (proj2 (Z.ltb_ge _ _)) by exact H.
Qed.

Lemma update_numeric_values_room (stats : num_acc) (cells : list (option Q)) :
  (Z.of_nat (length (acc_values stats)) < values_cap)%Z ->
  acc_values (update_numeric stats cells) = acc_values stats ++ dropna cells.
Proof.
  intros H. unfold update_numeric. cbn [acc_values].
  now rewrite (proj2 (Z.ltb_lt _ _)) by exact H.
Qed.

Lemma update_numeric_bounded (k : nat) (stats : num_acc) (cells : list (option Q)) :
  (Z.of_nat (length (acc_values stats)) <= values_cap - 1 + Z.of_nat k)%Z ->
  length cells <= k ->
  (Z.of_nat (length (acc_values (update_numeric stats cells)))
   <= values_cap - 1 + Z.of_nat k)%Z.
Proof.
  intros Hb Hk.
  destruct (Z.lt_ge_cases (Z.of_nat (length (acc_values stats))) values_cap)
    as [Hroom|Hfull].
  - rewrite update_numeric_values_room by exact Hroom.
    rewrite length_app. pose proof (dropna_length cells). lia.
  - now rewrite update_numeric_values_full.
Qed.

Lemma numeric_step_bounded (k : nat) (m : gmap string num_acc)
    (nc : string * list (option Q)) :
  values_bounded k m -> length nc.2 <= k -> values_bounded k (numeric_step m nc).
Proof.
  intros Hm Hk col acc. unfold numeric_step.
  destruct (decide (nc.1 = col)) as [<-|Hne].
  - rewrite lookup_insert_eq. intros [= <-].
    apply update_numeric_bounded; [|exact Hk].
    destruct (m !! nc.1) as [a|] eqn:E; simpl; [eapply Hm, E|].
    unfold values_cap. lia.
  - rewrite lookup_insert_ne by exact Hne. apply Hm.
Qed.

Lemma numeric_cols_rows (k : nat) (c : chunk) :
  rows_at_most k c -> Forall (fun nc => length nc.2 <= k) (numeric_cols c).
Proof.
  unfold rows_at_most, numeric_cols. induction 1 as [|[n s] c Hs Hc IH]; [constructor|].
  destruct s; cbn [omap list_omap snd fst]; try exact IH.
  constructor; [exact Hs|exact IH].
Qed.

Lemma process_chunk_bounded (k : nat) (st : stats_state) (c : chunk) :
  values_bounded k (numeric_stats st) -> rows_at_most k c ->
  values_bounded k (numeric_stats (process_chunk st c)).
Proof.
  intros Hst Hc. apply numeric_cols_rows in Hc.
  unfold process_chunk. cbn [numeric_stats].
  revert Hst. generalize (numeric_stats st).
  induction Hc as [|nc l Hnc Hl IH]; intros m Hm; simpl; [exact Hm|].
  apply IH, numeric_step_bounded; assumption.
Qed.

Lemma process_chunks_bounded (k : nat) (chunks : list chunk) :
  Forall (rows_at_most k) chunks ->
  values_bounded k (numeric_stats (process_chunks chunks)).
Proof.
  unfold process_chunks.
  assert (H0 : values_bounded k (numeric_stats (StatsState ∅ ∅)))
    by (intros col acc H; cbn [numeric_stats] in H;
        rewrite lookup_empty in H; discriminate).
  revert H0. generalize (StatsState ∅ ∅).
  induction chunks as [|c chunks IH]; intros st Hst Hall; simpl; [exact Hst|].
  apply Forall_cons in Hall as [Hc Hall].
  apply IH; [|exact Hall]. now apply process_chunk_bounded.
Qed.

Lemma final_stats_numeric_only (total : Z) (st : stats_state) (col : string) :
  categorical_stats st !! col = None ->
  final_stats total st !! col = numeric_stats st !! col ≫= finalize_numeric total.
Proof.
  intros H. unfold final_stats.
  rewrite lookup_union_r by (now rewrite lookup_fmap, H).
  apply lookup_omap.
Qed.

End PipelineFacts.

(** ** Chunks that cut one table, as pandas types them *)

Module CutFacts.
Import PyData Pipeline MergeFacts NumFacts PipelineFacts.

Lemma dropna_all_missing {A} (cells : list (option A)) :
  all_missing cells = true -> dropna cells = [].
Proof.
  unfold dropna. induction cells as [|[x|] cells IH]; simpl; intros H;
    [reflexivity|discriminate|auto].
Qed.

Lemma dropna_missing {A B} (cells : list (option A)) :
  dropna (missing (B := B) cells) = [].
Proof. unfold dropna, missing. induction cells as [|x cells IH]; simpl; auto. Qed.

Lemma count_none_all_missing {A} (cells : list (option A)) :
  all_missing cells = true -> count_none cells = length cells.
Proof.
  unfold count_none. induction cells as [|[x|] cells IH]; intros H;
    [reflexivity|discriminate H|].
  rewrite filter_cons, decide_True by reflexivity.
  cbn [length]. f_equal. apply IH, H.
Qed.

Lemma count_none_missing {A B} (cells : list (option A)) :
  count_none (missing (B := B) cells) = length cells.
Proof.
  unfold count_none, missing. induction cells as [|x cells IH]; [reflexivity|].
  cbn [map]. rewrite filter_cons, decide_True by reflexivity.
  cbn [length]. f_equal. exact IH.
Qed.

Lemma length_missing {A B} (cells : list (option A)) :
  length (missing (B := B) cells) = length cells.
Proof. apply length_map. Qed.

(** Appending chunks of one dtype is a join. *)
Lemma append_series_join (a b s : series) :
  append_series a b = Some s -> join_series a b = Some s.
Proof. destruct a, b; simpl; congruence. Qed.

Lemma join_chunk_names (a : chunk) : forall b ab,
  join_chunk a b = Some ab -> ab.*1 = a.*1 /\ b.*1 = a.*1.
Proof.
  induction a as [|[na sa] a IH]; intros [|[nb sb] b] ab H; simpl in H;
    try discriminate.
  - injection H as <-. split; reflexivity.
  - destruct (String.eqb na nb) eqn:En; [|discriminate].
    apply String.eqb_eq in En as <-.
    destruct (join_series sa sb) as [s|]; [|discriminate].
    destruct (join_chunk a b) as [r|] eqn:Er; [|discriminate].
    injection H as <-. destruct (IH b r Er) as [H1 H2].
    cbn [fmap list_fmap fst]. split; f_equal; assumption.
Qed.

Lemma assoc_join_chunk (a : chunk) : forall b ab col,
  join_chunk a b = Some ab ->
  match assoc col a, assoc col b with
  | Some x, Some y =>
      exists s, join_series x y = Some s /\ assoc col ab = Some s
  | None, None => assoc col ab = None
  | _, _ => False
  end.
Proof.
  induction a as [|[na sa] a IH]; intros [|[nb sb] b] ab col H; simpl in H;
    try discriminate.
  - injection H as <-. reflexivity.
  - destruct (String.eqb na nb) eqn:En; [|discriminate].
    apply String.eqb_eq in En as <-.
    destruct (join_series sa sb) as [s|] eqn:Es; [|discriminate].
    destruct (join_chunk a b) as [r|] eqn:Er; [|discriminate].
    injection H as <-. cbn [assoc fst snd].
    destruct (decide (na = col)) as [->|Hne]; [eauto|].
    apply (IH b r col Er).
Qed.

Lemma series_len_join (x y s : series) :
  join_series x y = Some s -> series_len s = series_len x + series_len y.
Proof.
  destruct x as [x|x|x], y as [y|y|y]; simpl; try discriminate.
  - intros [= <-]. apply length_app.
  - destruct (all_missing x); [|discriminate]. intros [= <-]. simpl.
    now rewrite length_app, length_missing.
  - destruct (all_missing y); [|discriminate]. intros [= <-]. simpl.
    now rewrite length_app, length_missing.
  - intros [= <-]. apply length_app.
  - intros [= <-]. apply length_app.
Qed.

Lemma chunk_len_join (a b ab : chunk) :
  join_chunk a b = Some ab -> chunk_len ab = chunk_len a + chunk_len b.
Proof.
  destruct a as [|[na sa] a], b as [|[nb sb] b]; simpl; try discriminate.
  - now intros [= <-].
  - destruct (String.eqb na nb); [|discriminate].
    destruct (join_series sa sb) as [s|] eqn:Es; [|discriminate].
    destruct (join_chunk a b); [|discriminate]. intros [= <-]. simpl.
    apply series_len_join, Es.
Qed.

Lemma join_chunks_names (rest : list chunk) : forall c t,
  join_chunks c rest = Some t ->
  t.*1 = c.*1 /\ Forall (fun c' : chunk => c'.*1 = c.*1) rest.
Proof.
  induction rest as [|c2 rest IH]; intros c t H; simpl in H.
  - injection H as <-. split; [reflexivity|constructor].
  - destruct (join_chunk c c2) as [fc|] eqn:E; [|discriminate].
    destruct (join_chunk_names c c2 fc E) as [Hfc Hc2].
    destruct (IH fc t H) as [Ht Hrest]. split; [congruence|].
    constructor; [exact Hc2|].
    eapply Forall_impl; [exact Hrest|]. intros c' Hc'. simpl in Hc'. congruence.
Qed.

(** *** The null analysis *)

Lemma series_nulls_join (x y s : series) :
  join_series x y = Some s ->
  series_nulls s = (series_nulls x + series_nulls y)%Z.
Proof.
  destruct x as [x|x|x], y as [y|y|y]; simpl; try discriminate.
  - intros [= <-]. simpl. rewrite count_none_app. lia.
  - destruct (all_missing x) eqn:E; [|discriminate]. intros [= <-]. simpl.
    rewrite count_none_app, count_none_missing, (count_none_all_missing x E). lia.
  - destruct (all_missing y) eqn:E; [|discriminate]. intros [= <-]. simpl.
    rewrite count_none_app, count_none_missing, (count_none_all_missing y E). lia.
  - intros [= <-]. simpl. rewrite count_none_app. lia.
  - intros [= <-]. reflexivity.
Qed.

Lemma add_nulls_join (a b ab : chunk) :
  join_chunk a b = Some ab ->
  add_nulls (isnull_sum a) (isnull_sum b) = Return (isnull_sum ab).
Proof.
  intros Happ. unfold add_nulls. rewrite bool_decide_eq_true_2.
  - f_equal. apply map_eq. intros col.
    rewrite map_lookup_imap, !isnull_sum_lookup.
    pose proof (assoc_join_chunk a b ab col Happ) as H.
    destruct (assoc col a) as [x|], (assoc col b) as [y|]; try contradiction.
    + destruct H as (s & Hs & ->). simpl. f_equal.
      symmetry. apply series_nulls_join, Hs.
    + now rewrite H.
  - intros col. rewrite !elem_of_dom, !isnull_sum_lookup.
    pose proof (assoc_join_chunk a b ab col Happ) as H.
    destruct (assoc col a) as [x|], (assoc col b) as [y|]; try contradiction;
      simpl; eauto.
Qed.

Lemma null_loop_join (rest : list chunk) : forall c t,
  join_chunks c rest = Some t ->
  0 < chunk_len c ->
  null_loop rest (NullState (isnull_sum c) (Z.of_nat (chunk_len c)))
  = Return (NullState (isnull_sum t) (Z.of_nat (chunk_len t))).
Proof.
  induction rest as [|c2 rest IH]; intros c t H Hlen; simpl in H.
  - now injection H as <-.
  - destruct (join_chunk c c2) as [fc|] eqn:E; [|discriminate].
    cbn [null_loop]. unfold null_step. cbn [total_rows null_counts].
    rewrite (proj2 (Z.eqb_neq _ _)) by lia.
    rewrite (add_nulls_join c c2 fc E).
    pose proof (chunk_len_join c c2 fc E) as Hfc.
    replace (Z.of_nat (chunk_len c) + Z.of_nat (chunk_len c2))%Z
      with (Z.of_nat (chunk_len fc)) by lia.
    apply IH; [exact H|lia].
Qed.

Lemma analyze_null_values_cut (t : chunk) (chunks : list chunk) :
  cut_of t chunks -> analyze_null_values chunks = analyze_null_values [t].
Proof.
  intros [Hcat Hlen]. destruct chunks as [|c rest]; [contradiction|].
  apply Forall_cons in Hlen as [Hc _].
  assert (Hloop : forall c' rest',
             null_loop (c' :: rest') (NullState ∅ 0)
             = null_loop rest' (NullState (isnull_sum c') (Z.of_nat (chunk_len c'))))
    by reflexivity.
  unfold analyze_null_values. rewrite !Hloop.
  rewrite (null_loop_join rest c t Hcat Hc). reflexivity.
Qed.

(** *** The statistics, up to the sums and the samples *)

(** The count and the bounds a column has reached; a column that has
    no accumulator yet is as good as one that has a new one. *)
Definition num_view (o : option num_acc) : Z * ext * ext :=
  let a := default new_num_acc o in (acc_count a, acc_min a, acc_max a).

Definition same_summary (st st' : stats_state) : Prop :=
  (forall col, num_view (numeric_stats st !! col) = num_view (numeric_stats st' !! col))
  /\ categorical_stats st = categorical_stats st'.

Lemma same_summary_refl st : same_summary st st.
Proof. split; reflexivity. Qed.

Lemma same_summary_sym st st' : same_summary st st' -> same_summary st' st.
Proof. intros [H1 H2]. split; [intros col; symmetry; apply H1|now symmetry]. Qed.

Lemma same_summary_trans st1 st2 st3 :
  same_summary st1 st2 -> same_summary st2 st3 -> same_summary st1 st3.
Proof.
  intros [H1 H2] [H3 H4]. split; [intros col; now rewrite H1|congruence].
Qed.

Lemma num_view_update (a a' : num_acc) (cells : list (option Q)) :
  num_view (Some a) = num_view (Some a') ->
  num_view (Some (update_numeric a cells)) = num_view (Some (update_numeric a' cells)).
Proof.
  unfold num_view, update_numeric. cbn [default acc_count acc_min acc_max].
  intros [= -> -> ->]. reflexivity.
Qed.

Lemma num_view_default (o : option num_acc) :
  num_view (Some (default new_num_acc o)) = num_view o.
Proof. reflexivity. Qed.

Lemma num_view_apply (col : string) (c : chunk) (o o' : option num_acc) :
  num_view o = num_view o' ->
  num_view (num_apply col c o) = num_view (num_apply col c o').
Proof.
  intros H. unfold num_apply. destruct (num_of (assoc col c)) as [cells|]; [|exact H].
  apply num_view_update. now rewrite !num_view_default.
Qed.

(** A chunk in which the column has no value leaves its count and its
    bounds as they are. *)
Lemma num_view_update_missing (o : option num_acc) (cells : list (option Q)) :
  all_missing cells = true ->
  num_view (Some (update_numeric (default new_num_acc o) cells)) = num_view o.
Proof.
  intros H. rewrite <- (num_view_default o).
  unfold num_view, update_numeric. cbn [default acc_count acc_min acc_max].
  rewrite (dropna_all_missing cells H). cbn [length py_min py_max min2 max2 Z.of_nat].
  now rewrite Z.add_0_r.
Qed.

Lemma num_view_update_app (o : option num_acc) (u v : list (option Q)) :
  num_view (Some (update_numeric (update_numeric (default new_num_acc o) u) v))
  = num_view (Some (update_numeric (default new_num_acc o) (u ++ v))).
Proof.
  pose proof (update_numeric_app (default new_num_acc o) u v) as H.
  unfold num_view. cbn [default].
  apply (f_equal (fun a => (acc_count a, acc_min a, acc_max a))) in H.
  exact H.
Qed.

Lemma value_counts_missing_r {A} (x : list (option string)) (y : list (option A)) :
  value_counts (x ++ missing y) = value_counts x.
Proof.
  unfold value_counts. now rewrite dropna_app, dropna_missing, app_nil_r.
Qed.

Lemma value_counts_missing_l {A} (x : list (option A)) (y : list (option string)) :
  value_counts (missing x ++ y) = value_counts y.
Proof.
  unfold value_counts. now rewrite dropna_app, dropna_missing.
Qed.

Lemma process_chunk_summary (c : chunk) st st' :
  NoDup c.*1 ->
  same_summary st st' -> same_summary (process_chunk st c) (process_chunk st' c).
Proof.
  intros Hnd [Hn Hc]. split.
  - intros col. rewrite !process_chunk_num by exact Hnd. apply num_view_apply, Hn.
  - apply map_eq. intros col. rewrite !process_chunk_cat by exact Hnd. now rewrite Hc.
Qed.

Lemma process_rest_summary (l : list chunk) :
  Forall (fun c : chunk => NoDup c.*1) l ->
  forall st st',
    same_summary st st' ->
    same_summary (fold_left process_chunk l st) (fold_left process_chunk l st').
Proof.
  induction 1 as [|c l Hc Hl IH]; intros st st' H; simpl; [exact H|].
  apply IH, process_chunk_summary; assumption.
Qed.

(** Two chunks in a row are the joined chunk. *)
Lemma process_chunk_join (a b ab : chunk) (st : stats_state) :
  join_chunk a b = Some ab ->
  NoDup a.*1 ->
  same_summary (process_chunk (process_chunk st a) b) (process_chunk st ab).
Proof.
  intros Happ Hnd.
  destruct (join_chunk_names a b ab Happ) as [Hab Hb].
  assert (Hnd_b : NoDup b.*1) by now rewrite Hb.
  assert (Hnd_ab : NoDup ab.*1) by now rewrite Hab.
  split; [intros col|apply map_eq; intros col].
  - rewrite !process_chunk_num by assumption.
    pose proof (assoc_join_chunk a b ab col Happ) as H. unfold num_apply.
    destruct (assoc col a) as [x|], (assoc col b) as [y|]; try contradiction.
    + destruct H as (s & Hs & ->).
      destruct x as [x|x|x], y as [y|y|y]; simpl in Hs; try discriminate.
      * injection Hs as <-. cbn [num_of default]. apply num_view_update_app.
      * destruct (all_missing x) eqn:E; [|discriminate]. injection Hs as <-.
        cbn [num_of]. now apply num_view_update_missing.
      * destruct (all_missing y) eqn:E; [|discriminate]. injection Hs as <-.
        cbn [num_of]. now apply num_view_update_missing.
      * injection Hs as <-. reflexivity.
      * injection Hs as <-. reflexivity.
    + rewrite H. reflexivity.
  - rewrite !process_chunk_cat by assumption.
    pose proof (assoc_join_chunk a b ab col Happ) as H. unfold cat_apply.
    destruct (assoc col a) as [x|], (assoc col b) as [y|]; try contradiction.
    + destruct H as (s & Hs & ->).
      destruct x as [x|x|x], y as [y|y|y]; simpl in Hs; try discriminate.
      * injection Hs as <-. reflexivity.
      * destruct (all_missing x); [|discriminate]. injection Hs as <-.
        cbn [obj_of]. now rewrite value_counts_missing_l.
      * destruct (all_missing y); [|discriminate]. injection Hs as <-.
        cbn [obj_of]. now rewrite value_counts_missing_r.
      * injection Hs as <-. cbn [obj_of default]. f_equal.
        rewrite value_counts_app. apply merge_assoc.
      * injection Hs as <-. reflexivity.
    + rewrite H. reflexivity.
Qed.

Lemma process_join (rest : list chunk) : forall c t st,
  join_chunks c rest = Some t ->
  NoDup c.*1 ->
  same_summary (fold_left process_chunk rest (process_chunk st c)) (process_chunk st t).
Proof.
  induction rest as [|c2 rest IH]; intros c t st H Hnd.
  - simpl in H. injection H as <-. apply same_summary_refl.
  - pose proof (join_chunks_names (c2 :: rest) c t H) as [_ Hnames].
    simpl in H. destruct (join_chunk c c2) as [fc|] eqn:E; [|discriminate].
    apply Forall_cons in Hnames as [_ Hrest].
    cbn [fold_left]. eapply same_summary_trans.
    + apply process_rest_summary; [|apply (process_chunk_join c c2 fc st E Hnd)].
      eapply Forall_impl; [exact Hrest|]. intros c' Hc'. simpl in Hc'. now rewrite Hc'.
    + apply IH; [exact H|].
      destruct (join_chunk_names c c2 fc E) as [-> _]. exact Hnd.
Qed.

Lemma process_chunks_cut (t : chunk) (chunks : list chunk) :
  NoDup t.*1 ->
  cut_of t chunks ->
  same_summary (process_chunks chunks) (process_chunks [t]).
Proof.
  intros Hnd [Hcat _]. destruct chunks as [|c rest]; [contradiction|].
  unfold process_chunks. cbn [fold_left].
  apply process_join; [exact Hcat|].
  now rewrite <- (proj1 (join_chunks_names rest c t Hcat)).
Qed.

(** What the summaries of two runs show is the same when their states
    have the same counts, bounds and frequency maps. *)
Lemma numeric_summary_view (a : num_acc) (o : option num_acc) :
  num_view (Some a) = num_view o ->
  numeric_summary a = o ≫= numeric_summary.
Proof.
  unfold num_view, numeric_summary. destruct o as [a'|]; cbn [default mbind option_bind].
  - intros [= -> -> ->]. reflexivity.
  - cbn [new_num_acc acc_count acc_min acc_max]. intros [= -> _ _]. reflexivity.
Qed.

Lemma numeric_summary_same st st' :
  same_summary st st' ->
  omap numeric_summary (numeric_stats st) = omap numeric_summary (numeric_stats st').
Proof.
  intros [Hn _]. apply map_eq. intros col. rewrite !lookup_omap.
  specialize (Hn col).
  destruct (numeric_stats st !! col) as [a|]; cbn [mbind option_bind].
  - now apply numeric_summary_view.
  - symmetry.
    destruct (numeric_stats st' !! col) as [a'|]; cbn [mbind option_bind];
      [|reflexivity].
    apply (numeric_summary_view a' None). now symmetry.
Qed.

Lemma finalize_numeric_summary (total : Z) (a : num_acc) :
  summary_of <$> finalize_numeric total a
  = (fun cmm : Z * ext * ext =>
       NumericSummary cmm.1.2 cmm.2 cmm.1.1 (total - cmm.1.1)%Z)
    <$> numeric_summary a.
Proof.
  unfold finalize_numeric, numeric_summary. now destruct (0 <? acc_count a)%Z.
Qed.

Lemma final_stats_summary (total : Z) st st' :
  same_summary st st' ->
  summary_of <$> final_stats total st = summary_of <$> final_stats total st'.
Proof.
  intros Hsame. pose proof (numeric_summary_same st st' Hsame) as Hnum.
  destruct Hsame as [_ Hc].
  apply map_eq. intros col. rewrite !lookup_fmap. unfold final_stats.
  destruct (categorical_stats st !! col) as [freq|] eqn:E.
  - rewrite (lookup_union_Some_l _ _ col (finalize_categorical total freq))
      by (now rewrite lookup_fmap, E).
    rewrite (lookup_union_Some_l _ _ col (finalize_categorical total freq))
      by (now rewrite lookup_fmap, <- Hc, E).
    reflexivity.
  - rewrite lookup_union_r by (now rewrite lookup_fmap, E).
    rewrite lookup_union_r by (now rewrite lookup_fmap, <- Hc, E).
    rewrite !lookup_omap.
    apply (f_equal (fun m : gmap string (Z * ext * ext) => m !! col)) in Hnum.
    rewrite !lookup_omap in Hnum.
    destruct (numeric_stats st !! col) as [a|], (numeric_stats st' !! col) as [a'|];
      cbn [mbind option_bind] in *;
      rewrite ?finalize_numeric_summary; rewrite ?Hnum; try reflexivity.
    + rewrite <- Hnum. reflexivity.
Qed.

End CutFacts.

Module PipelineSpec.
Import PyData Pipeline MergeFacts NumFacts PipelineFacts CutFacts.

(** C2, as stated, fails, in three ways.

    pandas types every chunk on its own.  The file with header [c] and
    rows [1], [2], [x] read with [chunk_size = 1] gives two numeric
    chunks and one [object] chunk, hence the frequency map {"x": 1};
    read with [chunk_size = 3], the total number of rows, it gives one
    [object] chunk and the map {"1": 1, "2": 1, "x": 1}.

    The sum is a binary64 number and every addition rounds.  A column
    of seven cells [1.0] followed by two cells [0.1] is float64 in
    every chunk.  Read with [chunk_size = 1] its sum is
    (7.0 + 0.1) + 0.1; read with [chunk_size = 7] it is
    7.0 + (0.1 + 0.1), which is larger.  Both runs count 9 values, and
    their means differ as their sums do.  (The seven cells [1.0] add up
    to 7.0 without rounding, in whatever order they are added.)

    ['top_5_values'] lists values of equal count in the order in which
    the dictionary met them.  A column with the cells B, A, A, A, A, B,
    B, B read with [chunk_size = 1] meets B first; read with
    [chunk_size = 7], its first chunk counts A four times and B three
    times and hands over A first.  Both runs count A and B four times
    each, and list them in opposite orders. *)
Lemma C2_result_depends_on_chunk_size :
  (agg_categorical (aggregate 3 (read_csv dec_float 1 ["c"] [["1"]; ["2"]; ["x"]])) !! "c"
     = Some {[ "x" := 1%Z ]} /\
   agg_categorical (aggregate 3 (read_csv dec_float 3 ["c"] [["1"]; ["2"]; ["x"]])) !! "c"
     = Some (<[ "1" := 1%Z ]> (<[ "2" := 1%Z ]> {[ "x" := 1%Z ]})) /\
   agg_final (aggregate 3 (read_csv dec_float 1 ["c"] [["1"]; ["2"]; ["x"]])) !! "c"
     = Some (FinalCategorical 1 2) /\
   agg_final (aggregate 3 (read_csv dec_float 3 ["c"] [["1"]; ["2"]; ["x"]])) !! "c"
     = Some (FinalCategorical 3 0) /\
   aggregate 3 (read_csv dec_float 1 ["c"] [["1"]; ["2"]; ["x"]])
     <> aggregate 3 (read_csv dec_float 3 ["c"] [["1"]; ["2"]; ["x"]])) /\
  (let amount :=
     [Some Float64.one; Some Float64.one; Some Float64.one; Some Float64.one;
      Some Float64.one; Some Float64.one; Some Float64.one;
      Some Float64.tenth; Some Float64.tenth] in
   let run1 := Float64.process_column (Float64.read_column 1 amount) in
   let run7 := Float64.process_column (Float64.read_column 7 amount) in
   Float64.float_count run1 = 9%Z /\
   Float64.float_count run7 = 9%Z /\
   PrimFloat.ltb (Float64.float_sum run1) (Float64.float_sum run7) = true /\
   PrimFloat.ltb (Float64.mean run1) (Float64.mean run7) = true) /\
  (let rows := [["B"]; ["A"]; ["A"]; ["A"]; ["A"]; ["B"]; ["B"]; ["B"]] in
   let run1 := read_csv dec_float 1 ["category"] rows in
   let run7 := read_csv dec_float 7 ["category"] rows in
   categorical_stats (process_chunks run1) = categorical_stats (process_chunks run7) /\
   categorical_stats (process_chunks run1) !! "category"
     = Some (<[ "A" := 4%Z ]> {[ "B" := 4%Z ]}) /\
   TopValues.top_5_values "category" run1 = Some [("B", 4%Z); ("A", 4%Z)] /\
   TopValues.top_5_values "category" run7 = Some [("A", 4%Z); ("B", 4%Z)]).
Proof.
  split; [|split].
  - assert (H1 : agg_final (aggregate 3 (read_csv dec_float 1 ["c"] [["1"]; ["2"]; ["x"]]))
                   !! "c"
                 = Some (FinalCategorical 1 2)) by (vm_compute; reflexivity).
    assert (H3 : agg_final (aggregate 3 (read_csv dec_float 3 ["c"] [["1"]; ["2"]; ["x"]]))
                   !! "c"
                 = Some (FinalCategorical 3 0)) by (vm_compute; reflexivity).
    split; [apply (bool_decide_unpack _); vm_compute; reflexivity|].
    split; [apply (bool_decide_unpack _); vm_compute; reflexivity|].
    split; [exact H1|]. split; [exact H3|].
    intros Heq. rewrite Heq, H3 in H1. discriminate H1.
  - cbv zeta. repeat split; vm_compute; reflexivity.
  - cbv zeta.
    split; [apply (bool_decide_unpack _); vm_compute; reflexivity|].
    split; [apply (bool_decide_unpack _); vm_compute; reflexivity|].
    split; vm_compute; reflexivity.
Qed.

(** C2 (amended).  Let two lists of chunks cut the same table: both
    hold its rows in order, and every column has in each chunk the
    dtype it has in the table, or is float64 in a chunk in which all
    its cells are missing (pandas gives distinct names to the columns
    of a file).  Then the two runs agree on the null analysis (null
    counts, percentages, row total), on the count, min and max of every
    numeric column that has a value, on the frequency maps of the
    categorical columns, and on every finalized entry but for its
    mean.  The cells are finite numbers.  Left out of the comparison
    are the sample of values, the sum and the mean, which are rounded
    chunk by chunk, and ['top_5_values'], which follows the order of
    insertion. *)
Theorem C2_chunking_invariance
    (total : Z) (t : chunk) (chunks1 chunks2 : list chunk) :
  NoDup t.*1 ->
  cut_of t chunks1 ->
  cut_of t chunks2 ->
  analyze_null_values chunks1 = analyze_null_values chunks2 /\
  omap numeric_summary (numeric_stats (process_chunks chunks1))
  = omap numeric_summary (numeric_stats (process_chunks chunks2)) /\
  categorical_stats (process_chunks chunks1)
  = categorical_stats (process_chunks chunks2) /\
  summary_of <$> calculate_descriptive_statistics total chunks1
  = summary_of <$> calculate_descriptive_statistics total chunks2.
Proof.
  intros Hnd H1 H2.
  assert (Hsame : same_summary (process_chunks chunks1) (process_chunks chunks2)).
  { eapply same_summary_trans; [apply (process_chunks_cut t chunks1 Hnd H1)|].
    apply same_summary_sym, (process_chunks_cut t chunks2 Hnd H2). }
  split; [|split; [|split]].
  - rewrite (analyze_null_values_cut t chunks1 H1).
    now rewrite (analyze_null_values_cut t chunks2 H2).
  - apply numeric_summary_same, Hsame.
  - apply Hsame.
  - apply final_stats_summary, Hsame.
Qed.

(** The end-to-end scenario of the specification, read one row at a
    time and in one piece: in the third chunk of the first run the
    column [category] has no value and is float64. *)
Lemma C2_chunking_invariance_witness :
  let header := ["id"; "amount"; "category"] in
  let rows := [["1"; "10.5"; "X"]; ["2"; ""; "Y"]; ["3"; "20.0"; ""]] in
  let run1 := read_csv dec_float 1 header rows in
  let run7 := read_csv dec_float 7 header rows in
  analyze_null_values run1 = analyze_null_values run7 /\
  omap numeric_summary (numeric_stats (process_chunks run1))
  = omap numeric_summary (numeric_stats (process_chunks run7)) /\
  categorical_stats (process_chunks run1) = categorical_stats (process_chunks run7) /\
  summary_of <$> calculate_descriptive_statistics 3 run1
  = summary_of <$> calculate_descriptive_statistics 3 run7.
Proof.
  cbv zeta.
  apply (C2_chunking_invariance 3
           [("id", NumSeries [Some 1%Q; Some 2%Q; Some 3%Q]);
            ("amount", NumSeries [Some (21 # 2)%Q; None; Some 20%Q]);
            ("category", ObjSeries [Some "X"; Some "Y"; None])]).
  - apply (bool_decide_unpack _). vm_compute. reflexivity.
  - split; [vm_compute; reflexivity|]. vm_compute. repeat constructor.
  - split; [vm_compute; reflexivity|]. vm_compute. repeat constructor.
Defined.

(** C4, as stated, fails: a single chunk of 10001 numeric rows leaves
    10001 values in the sample, more than the cap of 10000. *)
Lemma C4_sample_exceeds_cap :
  (length ∘ acc_values) <$>
    (numeric_stats
       (process_chunks [[("x", NumSeries (repeat (Some 1%Q) (Z.to_nat 10001)))]])
     !! "x")
  = Some (Z.to_nat 10001).
Proof. vm_compute. reflexivity. Qed.

(** C4 (amended): the sample of a numeric column is extended, by all
    the non-missing values of the chunk at once, only when its length
    before the chunk is strictly below the cap of 10000, and is left
    as it is otherwise; hence, when no chunk has more than [k] rows,
    the sample never holds more than [9999 + k] values. *)
Theorem C4_sample_bounded_by_cap_and_chunk
    (chunks : list chunk) (k : nat) (col : string) (acc : num_acc) :
  Forall (rows_at_most k) chunks ->
  numeric_stats (process_chunks chunks) !! col = Some acc ->
  (Z.of_nat (length (acc_values acc)) <= 9999 + Z.of_nat k)%Z /\
  (forall stats cells,
      (Z.of_nat (length (acc_values stats)) < 10000)%Z ->
      acc_values (update_numeric stats cells) = acc_values stats ++ dropna cells) /\
  (forall stats cells,
      (10000 <= Z.of_nat (length (acc_values stats)))%Z ->
      acc_values (update_numeric stats cells) = acc_values stats).
Proof.
  intros Hrows Hacc. split; [|split].
  - pose proof (process_chunks_bounded k chunks Hrows col acc Hacc) as H.
    unfold values_cap in H. lia.
  - exact update_numeric_values_room.
  - exact update_numeric_values_full.
Qed.

Lemma C4_sample_bounded_by_cap_and_chunk_witness :
  exists acc,
    numeric_stats (process_chunks [[("x", NumSeries [Some 1%Q; None])]]) !! "x" = Some acc /\
    (Z.of_nat (length (acc_values acc)) <= 9999 + Z.of_nat 2)%Z.
Proof.
  eexists. split; [vm_compute; reflexivity|].
  eapply (C4_sample_bounded_by_cap_and_chunk
            [[("x", NumSeries [Some 1%Q; None])]] 2 "x").
  - repeat constructor.
  - vm_compute. reflexivity.
Defined.

(** C8, as stated, fails: a numeric column whose count is zero gets no
    entry at all in the result of the pipeline, and the row-by-row
    analyzer reports it as categorical; neither surfaces a mean marked
    as undefined. *)
Lemma C8_zero_count_has_no_mean :
  acc_count <$> (numeric_stats (process_chunks [[("c", NumSeries [None])]]) !! "c")
    = Some 0%Z /\
  calculate_descriptive_statistics 1 [[("c", NumSeries [None])]] !! "c" = None /\
  Simple.calculate_basic_statistics dec_float ["c"] [[""]] !! "c"
    = Some (Simple.Categorical 0 [] 1).
Proof. repeat split; vm_compute; reflexivity. Qed.

(** C8 (amended): finalizing a numeric column whose count is positive
    yields mean = sum / count, min, max, count and
    null_count = total_rows - count (in the row-by-row analyzer, the
    number of cells of the column less count); when the count is zero
    no numeric summary is produced, so no division is attempted: the
    pipeline writes no numeric entry for the column, and the row-by-row
    analyzer finalizes it as categorical. *)
Theorem C8_finalize_numeric :
  (forall total stats,
      (0 < acc_count stats)%Z ->
      finalize_numeric total stats
      = Some (FinalNumeric (acc_sum stats / inject_Z (acc_count stats))%Q
                           (acc_min stats) (acc_max stats) (acc_count stats)
                           (total - acc_count stats)%Z)) /\
  (forall total stats,
      (acc_count stats <= 0)%Z -> finalize_numeric total stats = None) /\
  (forall total chunks col,
      categorical_stats (process_chunks chunks) !! col = None ->
      calculate_descriptive_statistics total chunks !! col
      = numeric_stats (process_chunks chunks) !! col ≫= finalize_numeric total) /\
  (forall cs,
      Simple.numeric_values cs <> [] ->
      Simple.finalize cs
      = Simple.Numeric
          (length (Simple.numeric_values cs))
          (qsum (Simple.numeric_values cs)
           / inject_Z (Z.of_nat (length (Simple.numeric_values cs))))%Q
          (py_min (Simple.numeric_values cs)) (py_max (Simple.numeric_values cs))
          (Z.of_nat (Simple.total_count cs)
           - Z.of_nat (length (Simple.numeric_values cs)))%Z) /\
  (forall cs,
      Simple.numeric_values cs = [] ->
      Simple.is_numeric (Simple.finalize cs) = false).
Proof.
  split; [|split; [|split; [|split]]].
  - intros total stats H. unfold finalize_numeric.
    now rewrite (proj2 (Z.ltb_lt _ _)) by exact H.
  - intros total stats H. unfold finalize_numeric.
    now rewrite (proj2 (Z.ltb_ge _ _)) by exact H.
  - intros total chunks col H. apply final_stats_numeric_only, H.
  - intros cs H. unfold Simple.finalize.
    destruct (Simple.numeric_values cs); [contradiction|reflexivity].
  - intros cs H. unfold Simple.finalize. now rewrite H.
Qed.

End PipelineSpec.

(** * Further properties of the sniffer *)

Module SnifferExtra.
Import PyStr PyStrFacts Sniffer SnifferFacts.

(** A codec is usable when the first line decodes under it and is not
    blank: the test that leaves the loop over the candidates. *)
Definition usable (f : text_file) (enc : string) : bool :=
  match f enc with
  | Some line => truthy (strip line)
  | None => false
  end.

Lemma try_encodings_first_usable (f : text_file) (encs : list string) :
  forall current i enc,
    encs !! i = Some enc ->
    usable f enc = true ->
    (forall j e, j < i -> encs !! j = Some e -> usable f e = false) ->
    try_encodings f encs current = enc.
Proof.
  induction encs as [|e0 encs IH]; intros current i enc Hi Hu Hbefore.
  - discriminate Hi.
  - destruct i as [|i]; simpl in Hi.
    + injection Hi as ->. simpl. unfold usable in Hu.
      destruct (f enc) as [line|]; [|discriminate]. now rewrite Hu.
    + assert (H0 : usable f e0 = false) by (apply (Hbefore 0 e0); [lia|reflexivity]).
      simpl. unfold usable in H0.
      assert (Hrec : try_encodings f encs current = enc).
      { apply (IH current i enc Hi Hu). intros j e Hj He.
        apply (Hbefore (S j) e); [lia|exact He]. }
      destruct (f e0) as [line|]; [rewrite H0|]; exact Hrec.
Qed.

Lemma try_encodings_none_usable (f : text_file) (encs : list string) :
  forall current,
    (forall e, e ∈ encs -> usable f e = false) ->
    try_encodings f encs current = current.
Proof.
  induction encs as [|e0 encs IH]; intros current Hnone; [reflexivity|].
  assert (H0 : usable f e0 = false) by (apply Hnone; left).
  assert (Hrec : try_encodings f encs current = current)
    by (apply IH; intros e He; apply Hnone; now right).
  simpl. unfold usable in H0.
  destruct (f e0) as [line|]; [rewrite H0|]; exact Hrec.
Qed.

(** X1: the encoding reported is the first candidate under which the
    first line decodes and is not blank, and detection then succeeds,
    with the separator and column count detected on that line. *)
Theorem X1_first_usable_encoding_is_reported
    (f : text_file) (i : nat) (enc line : string) :
  encodings_to_try !! i = Some enc ->
  f enc = Some line ->
  strip line <> EmptyString ->
  (forall j e, j < i -> encodings_to_try !! j = Some e -> usable f e = false) ->
  detect_encoding_and_separator f
  = Ok (Profile enc (detect_separator (strip line)).2
                    (detect_separator (strip line)).1).
Proof.
  intros Hi Hf Hline Hbefore. unfold detect_encoding_and_separator.
  rewrite (try_encodings_first_usable f encodings_to_try "utf-8" i enc Hi);
    [|unfold usable; rewrite Hf; now destruct (strip line)|exact Hbefore].
  rewrite Hf. now destruct (detect_separator (strip line)).
Qed.

Lemma X1_first_usable_encoding_is_reported_witness :
  detect_encoding_and_separator
    (fun enc => if String.eqb enc "utf-8" then None else Some "a;b;c")
  = Ok (Profile "latin-1" ";"%char 3).
Proof.
  apply (X1_first_usable_encoding_is_reported
           (fun enc => if String.eqb enc "utf-8" then None else Some "a;b;c")
           1 "latin-1" "a;b;c").
  - reflexivity.
  - reflexivity.
  - discriminate.
  - intros j e Hj He. destruct j as [|j]; [|lia].
    injection He as <-. reflexivity.
Defined.

(** X2: when no candidate is usable the encoding stays utf-8, whatever
    the candidates decoded to; detection then fails exactly when the
    first line does not decode as utf-8. *)
Theorem X2_no_usable_encoding_keeps_utf8 (f : text_file) :
  (forall e, e ∈ encodings_to_try -> usable f e = false) ->
  detect_encoding_and_separator f
  = match f "utf-8" with
    | None => Raise UnicodeDecodeError
    | Some _ => Ok (Profile "utf-8" ","%char 1)
    end.
Proof.
  intros Hnone. unfold detect_encoding_and_separator.
  rewrite (try_encodings_none_usable f encodings_to_try "utf-8" Hnone).
  assert (H8 : usable f "utf-8" = false)
    by (apply Hnone; unfold encodings_to_try; left).
  unfold usable in H8. destruct (f "utf-8") as [line|]; [|reflexivity].
  destruct (strip line); [reflexivity|discriminate].
Qed.

Lemma X2_no_usable_encoding_keeps_utf8_witness :
  detect_encoding_and_separator
    (fun enc => if String.eqb enc "utf-8" then None else Some "  ")
  = Raise UnicodeDecodeError.
Proof.
  apply (X2_no_usable_encoding_keeps_utf8
           (fun enc => if String.eqb enc "utf-8" then None else Some "  ")).
  intros e He. unfold encodings_to_try in He.
  repeat (apply elem_of_cons in He as [->|He]; [reflexivity|]).
  inversion He.
Defined.

End SnifferExtra.

(** * Further properties of the row-by-row analyzer *)

Module SimpleExtra.
Import PyStr PyData Simple SimpleFacts.

(** ** The null counts *)

Section NullKeys.

Variable columns : list string.

(** Every entry of the null counts was created by an increment for a
    column of the header. *)
Definition null_entries_ok (m : gmap string nat) : Prop :=
  forall k n, m !! k = Some n -> 1 <= n /\ k ∈ columns.

Lemma null_cell_entries (m : gmap string nat) (iv : nat * string) :
  null_entries_ok m -> null_entries_ok (null_cell columns m iv).
Proof.
  intros Hm. unfold null_cell.
  destruct (columns !! iv.1) as [col|] eqn:Ecol; [|exact Hm].
  destruct (truthy (strip iv.2)); [exact Hm|].
  intros k n. unfold bump. destruct (decide (col = k)) as [<-|Hne].
  - rewrite lookup_insert_eq. intros [= <-]. split; [lia|].
    eapply list_elem_of_lookup_2, Ecol.
  - rewrite lookup_insert_ne by exact Hne. apply Hm.
Qed.

Lemma null_cells_entries (l : list (nat * string)) : forall m,
  null_entries_ok m -> null_entries_ok (fold_left (null_cell columns) l m).
Proof.
  induction l as [|iv l IH]; intros m Hm; simpl; [exact Hm|].
  apply IH, null_cell_entries, Hm.
Qed.

Lemma null_rows_entries (rows : list (list string)) : forall st,
  null_entries_ok (null_counts st) ->
  null_entries_ok (null_counts (fold_left (null_row columns) rows st)).
Proof.
  induction rows as [|row rows IH]; intros st Hst; simpl; [exact Hst|].
  apply IH. unfold null_row. cbn [null_counts]. apply null_cells_entries, Hst.
Qed.

Lemma analyze_null_entries (rows : list (list string)) :
  null_entries_ok (na_null_counts (analyze_null_values columns rows)).
Proof.
  unfold analyze_null_values. cbn [na_null_counts]. apply null_rows_entries.
  intros k n H. cbn [null_counts] in H. rewrite lookup_empty in H. discriminate.
Qed.

End NullKeys.

Lemma blank_cells_le_rows (i : nat) (rows : list (list string)) :
  length (filter (fun v => blank v = true) (column_cells i rows)) <= length rows.
Proof.
  pose proof (length_filter (fun v => blank v = true) (column_cells i rows)).
  pose proof (column_cells_length i rows). lia.
Qed.

(** X3: with unique column names, the null counts hold an entry exactly
    for the columns that have at least one blank cell; the entry is the
    number of blank cells of the column, between 1 and [total_rows], and
    its percentage lies in (0, 100]. *)
Theorem X3_null_counts_entries
    (columns : list string) (rows : list (list string)) :
  NoDup columns ->
  let r := analyze_null_values columns rows in
  (forall k n, na_null_counts r !! k = Some n ->
     exists i, columns !! i = Some k /\
       n = length (filter (fun v => blank v = true) (column_cells i rows)) /\
       1 <= n <= na_total_rows r) /\
  (forall i col, columns !! i = Some col ->
     (na_null_counts r !! col = None <->
      filter (fun v => blank v = true) (column_cells i rows) = [])) /\
  (forall k p, na_null_percentages r !! k = Some p -> (0 < p /\ p <= 100)%Q).
Proof.
  intros Hnd r.
  assert (Hcount : forall i col, columns !! i = Some col ->
            count_of (na_null_counts r) col
            = length (filter (fun v => blank v = true) (column_cells i rows))
            /\ na_total_rows r = length rows).
  { intros i col Hcol.
    destruct (null_rows_col columns Hnd i col Hcol rows (NullState ∅ 0)) as [H1 H2].
    split; [exact H1|exact H2]. }
  assert (Hentry : forall k n, na_null_counts r !! k = Some n ->
     exists i, columns !! i = Some k /\
       n = length (filter (fun v => blank v = true) (column_cells i rows)) /\
       1 <= n <= na_total_rows r).
  { intros k n Hk.
    destruct (analyze_null_entries columns rows k n Hk) as [Hn Hin].
    apply list_elem_of_lookup_1 in Hin as [i Hi]. exists i. split; [exact Hi|].
    destruct (Hcount i k Hi) as [Hc Ht]. unfold count_of in Hc.
    fold r in Hk. rewrite Hk in Hc. simpl in Hc. split; [exact Hc|].
    split; [exact Hn|]. rewrite Ht, Hc. apply blank_cells_le_rows. }
  split; [exact Hentry|]. split.
  - intros i col Hcol. destruct (Hcount i col Hcol) as [Hc _].
    unfold count_of in Hc. split.
    + intros Hnone. rewrite Hnone in Hc. simpl in Hc.
      now destruct (filter (fun v => blank v = true) (column_cells i rows)).
    + intros Hnil. rewrite Hnil in Hc.
      destruct (na_null_counts r !! col) as [n|] eqn:E; [|reflexivity].
      destruct (analyze_null_entries columns rows col n E) as [Hn _].
      simpl in Hc. lia.
  - intros k p Hp. unfold r, analyze_null_values in Hp.
    cbn [na_null_percentages] in Hp. rewrite lookup_fmap in Hp.
    destruct (null_counts (fold_left (null_row columns) rows (NullState ∅ 0)) !! k)
      as [n|] eqn:E; [|discriminate].
    injection Hp as <-.
    destruct (Hentry k n E) as (i & _ & _ & Hn1 & Hn2).
    unfold r, analyze_null_values in Hn2. cbn [na_total_rows] in Hn2.
    set (t := total_rows (fold_left (null_row columns) rows (NullState ∅ 0))) in *.
    destruct (Z.of_nat t) as [|tp|tp] eqn:Et; [lia| |lia].
    assert (Hz : (1 <= Z.of_nat n <= Zpos tp)%Z) by lia.
    destruct (Z.of_nat n) as [|np|np]; [lia| |lia].
    unfold Qlt, Qle, Qdiv, Qmult, Qinv, inject_Z. simpl. lia.
Qed.

Lemma X3_null_counts_entries_witness :
  na_null_counts (analyze_null_values ["a"; "b"] [["1"; " "]; ["2"; ""]]) !! "a" = None.
Proof.
  apply (proj1 (proj2 (X3_null_counts_entries ["a"; "b"] [["1"; " "]; ["2"; ""]]
                         ltac:(apply (bool_decide_unpack _); vm_compute; reflexivity)))
           0 "a" eq_refl).
  reflexivity.
Defined.


(** ** The frequency table of a column *)

(** [c[key]] on a [Counter]: zero for an absent key. *)
Fixpoint counter_get (key : string) (c : counter) : nat :=
  match c with
  | [] => 0
  | (k, n) :: r => if String.eqb k key then n else counter_get key r
  end.

(** Number of occurrences of a value in a list. *)
Definition occ (v : string) (l : list string) : nat :=
  length (filter (fun x => x = v) l).

Lemma counter_get_incr (key k : string) (c : counter) :
  counter_get k (counter_incr key c)
  = counter_get k c + (if decide (key = k) then 1 else 0).
Proof.
  induction c as [|[k0 n] c IH]; simpl.
  - destruct (decide (key = k)) as [->|Hne].
    + now rewrite String.eqb_refl.
    + now rewrite (proj2 (String.eqb_neq key k) Hne).
  - destruct (String.eqb k0 key) eqn:E0; simpl.
    + apply String.eqb_eq in E0 as ->.
      destruct (decide (key = k)) as [->|Hne].
      * rewrite String.eqb_refl. lia.
      * rewrite (proj2 (String.eqb_neq key k) Hne). lia.
    + destruct (String.eqb k0 k) eqn:E1; [|exact IH].
      apply String.eqb_eq in E1 as ->. apply String.eqb_neq in E0.
      rewrite decide_False by congruence. lia.
Qed.

Lemma counter_incr_keys (key k : string) (c : counter) :
  k ∈ (counter_incr key c).*1 <-> k = key \/ k ∈ c.*1.
Proof.
  induction c as [|[k0 n] c IH]; simpl.
  - rewrite list_elem_of_singleton. split; [auto|]. intros [H|H]; [exact H|inversion H].
  - destruct (String.eqb k0 key) eqn:E0; simpl.
    + apply String.eqb_eq in E0 as ->. rewrite elem_of_cons. tauto.
    + rewrite !elem_of_cons, IH. tauto.
Qed.

Lemma counter_incr_NoDup (key : string) (c : counter) :
  NoDup c.*1 -> NoDup (counter_incr key c).*1.
Proof.
  induction c as [|[k0 n] c IH]; simpl; intros Hnd.
  - apply NoDup_singleton.
  - apply NoDup_cons in Hnd as [Hk0 Hnd].
    destruct (String.eqb k0 key) eqn:E0; simpl.
    + apply NoDup_cons. split; assumption.
    + apply NoDup_cons. split; [|exact (IH Hnd)].
      rewrite counter_incr_keys. intros [->|H]; [|contradiction].
      now rewrite String.eqb_refl in E0.
Qed.

Lemma counter_get_elem (k : string) (n : nat) (c : counter) :
  NoDup c.*1 -> (k, n) ∈ c -> counter_get k c = n.
Proof.
  induction c as [|[k0 n0] c IH]; simpl; intros Hnd Hin; [inversion Hin|].
  apply NoDup_cons in Hnd as [Hk0 Hnd].
  apply elem_of_cons in Hin as [[= <- <-]|Hin].
  - now rewrite String.eqb_refl.
  - destruct (String.eqb k0 k) eqn:E; [|auto].
    apply String.eqb_eq in E as ->. exfalso. apply Hk0.
    apply list_elem_of_fmap. exists (k, n). split; [reflexivity|exact Hin].
Qed.

Lemma counter_get_key (k : string) (c : counter) :
  k ∈ c.*1 -> (k, counter_get k c) ∈ c.
Proof.
  induction c as [|[k0 n0] c IH]; simpl; intros Hin; [inversion Hin|].
  destruct (String.eqb k0 k) eqn:E.
  - apply String.eqb_eq in E as ->. left.
  - apply String.eqb_neq in E. apply elem_of_cons in Hin as [->|Hin];
      [contradiction|]. right. auto.
Qed.

Definition count_values (l : list string) (c : counter) : counter :=
  fold_left (fun c v => counter_incr v c) l c.

Lemma count_values_get (l : list string) : forall c k,
  counter_get k (count_values l c) = counter_get k c + occ k l.
Proof.
  unfold count_values, occ.
  induction l as [|v l IH]; intros c k; simpl; [lia|].
  rewrite IH, counter_get_incr, filter_cons.
  destruct (decide (v = k)); simpl; lia.
Qed.

Lemma count_values_keys (l : list string) : forall c k,
  k ∈ (count_values l c).*1 <-> k ∈ c.*1 \/ k ∈ l.
Proof.
  unfold count_values.
  induction l as [|v l IH]; intros c k; simpl.
  - split; [auto|]. intros [H|H]; [exact H|inversion H].
  - rewrite IH, counter_incr_keys, elem_of_cons. tauto.
Qed.

Lemma count_values_NoDup (l : list string) : forall c,
  NoDup c.*1 -> NoDup (count_values l c).*1.
Proof.
  unfold count_values.
  induction l as [|v l IH]; intros c Hc; simpl; [exact Hc|].
  apply IH, counter_incr_NoDup, Hc.
Qed.

(** X4: with unique column names, the frequency table of a column has
    one entry for each distinct value among its string cells (the cells
    that neither parse as numbers nor are blank), and the count of an
    entry is the number of cells holding that value; the keys are
    distinct, so [unique_values] is the number of distinct values. *)
Theorem X4_frequency_table
    (to_float : string -> option Q) (columns : list string)
    (rows : list (list string)) (i : nat) (col : string) :
  NoDup columns ->
  columns !! i = Some col ->
  let strings := filter (fun v => string_cell to_float v = true) (column_cells i rows) in
  exists cs,
    accumulate to_float columns rows !! col = Some cs /\
    NoDup (string_values cs).*1 /\
    (forall v n, (v, n) ∈ string_values cs <-> v ∈ strings /\ n = occ v strings) /\
    length (string_values cs) = length (remove_dups strings).
Proof.
  intros Hnd Hcol strings.
  exists (stats_fold to_float (column_cells i rows) empty_col_stats).
  split; [apply (accumulate_col to_float columns Hnd i col Hcol)|].
  rewrite stats_fold_strings. cbn [string_values empty_col_stats].
  fold strings. fold (count_values strings []).
  assert (Hnodup : NoDup (count_values strings []).*1)
    by (apply count_values_NoDup; constructor).
  assert (Hkeys : forall k, k ∈ (count_values strings []).*1 <-> k ∈ strings).
  { intros k. rewrite count_values_keys. simpl. split; [|auto].
    intros [H|H]; [inversion H|exact H]. }
  split; [exact Hnodup|]. split.
  - intros v n. split.
    + intros Hin.
      assert (Hv : v ∈ strings).
      { apply Hkeys, list_elem_of_fmap. exists (v, n). split; [reflexivity|exact Hin]. }
      split; [exact Hv|].
      rewrite <- (counter_get_elem v n _ Hnodup Hin), count_values_get. reflexivity.
    + intros [Hv ->]. apply Hkeys in Hv.
      replace (occ v strings) with (counter_get v (count_values strings []))
        by (rewrite count_values_get; reflexivity).
      apply counter_get_key, Hv.
  - rewrite <- (length_fmap fst). apply Permutation_length.
    apply NoDup_Permutation; [exact Hnodup|apply NoDup_remove_dups|].
    intros k. rewrite Hkeys, elem_of_remove_dups. reflexivity.
Qed.

Lemma X4_frequency_table_witness :
  exists cs,
    accumulate dec_float ["city"] [["Rome"]; ["Oslo"]; ["Rome"]; [""]; ["7"]] !! "city"
      = Some cs /\
    length (string_values cs) = 2.
Proof.
  destruct (X4_frequency_table dec_float ["city"]
              [["Rome"]; ["Oslo"]; ["Rome"]; [""]; ["7"]] 0 "city")
    as (cs & Hacc & _ & _ & Hlen).
  - apply (bool_decide_unpack _). vm_compute. reflexivity.
  - reflexivity.
  - exists cs. split; [exact Hacc|]. rewrite Hlen. vm_compute. reflexivity.
Defined.

(** ** The null count of a finalized column *)

(** X5: with unique column names and a number parser that rejects blank
    cells, a column finalized as numeric reports as [null_count] the
    number of its cells that are not numbers, blank or not, and a
    column finalized as categorical, which has no numeric cell, reports
    the number of its blank cells. *)
Theorem X5_reported_null_count
    (to_float : string -> option Q) (columns : list string)
    (rows : list (list string)) (i : nat) (col : string) :
  NoDup columns ->
  columns !! i = Some col ->
  (forall s, blank s = true -> to_float s = None) ->
  let cells := column_cells i rows in
  let blanks := length (filter (fun v => blank v = true) cells) in
  let strings := length (filter (fun v => string_cell to_float v = true) cells) in
  match calculate_basic_statistics to_float columns rows !! col with
  | Some (Numeric count _ _ _ null_count) =>
      count = length (omap to_float cells) /\ 0 < count /\
      null_count = Z.of_nat (blanks + strings)
  | Some (Categorical _ _ null_count) =>
      omap to_float cells = [] /\ null_count = Z.of_nat blanks
  | None => False
  end.
Proof.
  intros Hnd Hcol Hblank cells blanks strings.
  unfold calculate_basic_statistics.
  rewrite lookup_fmap, (accumulate_col to_float columns Hnd i col Hcol).
  fold cells. cbn [fmap option_fmap option_map]. unfold finalize.
  rewrite stats_fold_numeric, stats_fold_strings, stats_fold_total.
  cbn [numeric_values string_values total_count empty_col_stats app].
  pose proof (cells_partition to_float cells Hblank) as Hpart.
  fold blanks strings in Hpart.
  destruct (omap to_float cells) as [|q qs] eqn:E.
  - split; [reflexivity|]. rewrite counter_total_fold.
    cbn [counter_total fold_right length] in *. lia.
  - split; [reflexivity|]. cbn [length] in *. split; lia.
Qed.

Lemma X5_reported_null_count_witness :
  match calculate_basic_statistics dec_float ["amount"] [["10"]; ["n/a"]; [""]]
        !! "amount" with
  | Some (Numeric count _ _ _ null_count) => count = 1 /\ null_count = 2%Z
  | _ => False
  end.
Proof.
  pose proof (X5_reported_null_count dec_float ["amount"] [["10"]; ["n/a"]; [""]]
                0 "amount"
                ltac:(apply (bool_decide_unpack _); vm_compute; reflexivity)
                eq_refl dec_float_blank) as H.
  cbv zeta in H.
  destruct (calculate_basic_statistics dec_float ["amount"] [["10"]; ["n/a"]; [""]]
            !! "amount") as [[count mean lo hi nc|u t nc]|];
    [|destruct H as [H _]; discriminate H|contradiction].
  destruct H as (Hc & _ & Hn). split; [exact Hc|exact Hn].
Defined.

(** ** The least and the greatest of a list of numbers *)

Lemma Qltb_false_le (p q : Q) : Qltb p q = false -> (q <= p)%Q.
Proof.
  unfold Qltb. rewrite negb_false_iff. apply Qle_bool_imp_le.
Qed.

Lemma fold_min_spec (r : list Q) : forall x,
  let m := fold_left (fun m y => if Qltb y m then y else m) r x in
  (m = x \/ m ∈ r) /\ (m <= x)%Q /\ (forall y, y ∈ r -> (m <= y)%Q).
Proof.
  induction r as [|y r IH]; intros x; cbv zeta.
  - simpl. split; [now left|]. split; [apply Qle_refl|]. intros y Hy. inversion Hy.
  - cbn [fold_left]. destruct (IH (if Qltb y x then y else x)) as (Hin & Hle & Hall).
    set (m := fold_left (fun m y => if Qltb y m then y else m) r
                        (if Qltb y x then y else x)) in *.
    destruct (Qltb y x) eqn:E.
    + apply NumFacts.Qltb_lt in E. split; [|split].
      * right. destruct Hin as [->|Hin]; [left|now right].
      * lra.
      * intros z Hz. apply elem_of_cons in Hz as [->|Hz]; [exact Hle|auto].
    + apply Qltb_false_le in E. split; [|split].
      * destruct Hin as [Hin|Hin]; [now left|right; now right].
      * exact Hle.
      * intros z Hz. apply elem_of_cons in Hz as [->|Hz]; [lra|auto].
Qed.

Lemma fold_max_spec (r : list Q) : forall x,
  let m := fold_left (fun m y => if Qltb m y then y else m) r x in
  (m = x \/ m ∈ r) /\ (x <= m)%Q /\ (forall y, y ∈ r -> (y <= m)%Q).
Proof.
  induction r as [|y r IH]; intros x; cbv zeta.
  - simpl. split; [now left|]. split; [apply Qle_refl|]. intros y Hy. inversion Hy.
  - cbn [fold_left]. destruct (IH (if Qltb x y then y else x)) as (Hin & Hle & Hall).
    set (m := fold_left (fun m y => if Qltb m y then y else m) r
                        (if Qltb x y then y else x)) in *.
    destruct (Qltb x y) eqn:E.
    + apply NumFacts.Qltb_lt in E. split; [|split].
      * right. destruct Hin as [->|Hin]; [left|now right].
      * lra.
      * intros z Hz. apply elem_of_cons in Hz as [->|Hz]; [exact Hle|auto].
    + apply Qltb_false_le in E. split; [|split].
      * destruct Hin as [Hin|Hin]; [now left|right; now right].
      * exact Hle.
      * intros z Hz. apply elem_of_cons in Hz as [->|Hz]; [lra|auto].
Qed.

Lemma py_min_spec (l : list Q) (m : Q) :
  py_min l = Some m -> m ∈ l /\ (forall y, y ∈ l -> (m <= y)%Q).
Proof.
  destruct l as [|x r]; [discriminate|]. intros [= <-].
  destruct (fold_min_spec r x) as (Hin & Hle & Hall). split.
  - destruct Hin as [->|Hin]; [left|now right].
  - intros y Hy. apply elem_of_cons in Hy as [->|Hy]; [exact Hle|auto].
Qed.

Lemma py_max_spec (l : list Q) (m : Q) :
  py_max l = Some m -> m ∈ l /\ (forall y, y ∈ l -> (y <= m)%Q).
Proof.
  destruct l as [|x r]; [discriminate|]. intros [= <-].
  destruct (fold_max_spec r x) as (Hin & Hle & Hall). split.
  - destruct Hin as [->|Hin]; [left|now right].
  - intros y Hy. apply elem_of_cons in Hy as [->|Hy]; [exact Hle|auto].
Qed.

End SimpleExtra.

(** * Further properties of the chunked pipeline *)

Module PipelineExtra.
Import PyData Pipeline MergeFacts NumFacts PipelineFacts.

(** ** One numeric column over all the chunks *)

(** The non-missing values a chunk holds for a column it types as
    numeric, and the stream of those values over the chunks. *)
Definition chunk_values (col : string) (c : chunk) : list Q :=
  match num_of (assoc col c) with
  | Some cells => dropna cells
  | None => []
  end.

Definition col_values (col : string) (chunks : list chunk) : list Q :=
  concat (map (chunk_values col) chunks).

Definition tracks (vals : list Q) (a : num_acc) : Prop :=
  acc_count a = Z.of_nat (length vals) /\
  acc_min a = min2 PosInf (py_min vals) /\
  acc_max a = max2 NegInf (py_max vals) /\
  (acc_values a = vals \/
   ((values_cap <= Z.of_nat (length (acc_values a)))%Z /\
    acc_values a `prefix_of` vals)).

Definition tracks_opt (vals : list Q) (o : option num_acc) : Prop :=
  match o with
  | Some a => tracks vals a
  | None => vals = []
  end.

Lemma tracks_new : tracks [] new_num_acc.
Proof. unfold tracks, new_num_acc. simpl. repeat split; auto. Qed.

Lemma update_numeric_tracks (vals : list Q) (a : num_acc) (cells : list (option Q)) :
  tracks vals a -> tracks (vals ++ dropna cells) (update_numeric a cells).
Proof.
  intros (Hc & Hlo & Hhi & Hv). unfold tracks, update_numeric.
  cbn [acc_count acc_min acc_max acc_values].
  split; [rewrite Hc, length_app; lia|].
  split; [rewrite Hlo; apply min2_app|].
  split; [rewrite Hhi; apply max2_app|].
  destruct (Z.ltb_spec (Z.of_nat (length (acc_values a))) values_cap) as [Hroom|Hfull].
  - destruct Hv as [->|[Hcap _]]; [now left|lia].
  - right. split; [exact Hfull|].
    destruct Hv as [->|[_ Hpre]]; [now apply prefix_app_r|now apply prefix_app_r].
Qed.

Lemma num_apply_tracks (col : string) (c : chunk) (vals : list Q) (o : option num_acc) :
  tracks_opt vals o -> tracks_opt (vals ++ chunk_values col c) (num_apply col c o).
Proof.
  unfold num_apply, chunk_values. destruct (num_of (assoc col c)) as [cells|].
  - intros H. cbn [tracks_opt]. apply update_numeric_tracks.
    destruct o as [a|]; cbn [tracks_opt default] in *; [exact H|].
    subst vals. apply tracks_new.
  - now rewrite app_nil_r.
Qed.

Lemma num_fold_tracks (col : string) (chunks : list chunk) :
  forall vals o,
    tracks_opt vals o ->
    tracks_opt (vals ++ col_values col chunks)
               (fold_left (fun o c => num_apply col c o) chunks o).
Proof.
  unfold col_values.
  induction chunks as [|c chunks IH]; intros vals o H; simpl.
  - now rewrite app_nil_r.
  - rewrite app_assoc. apply IH, num_apply_tracks, H.
Qed.

Lemma process_rest_num (col : string) (chunks : list chunk) :
  Forall (fun c : chunk => NoDup c.*1) chunks ->
  forall st,
    numeric_stats (fold_left process_chunk chunks st) !! col
    = fold_left (fun o c => num_apply col c o) chunks (numeric_stats st !! col).
Proof.
  induction 1 as [|c chunks Hc Hall IH]; intros st; [reflexivity|].
  cbn [fold_left]. rewrite IH. f_equal. now apply process_chunk_num.
Qed.

Lemma process_chunks_tracks (col : string) (chunks : list chunk) (a : num_acc) :
  Forall (fun c : chunk => NoDup c.*1) chunks ->
  numeric_stats (process_chunks chunks) !! col = Some a ->
  tracks (col_values col chunks) a.
Proof.
  intros Hnd Ha. unfold process_chunks in Ha.
  rewrite (process_rest_num col chunks Hnd) in Ha. cbn [numeric_stats] in Ha.
  rewrite lookup_empty in Ha.
  pose proof (num_fold_tracks col chunks [] None eq_refl) as H.
  rewrite Ha in H. exact H.
Qed.

(** X8: when the columns of every chunk have distinct names, the
    accumulator of a column counts the whole stream of its non-missing
    numeric values, however the stream is cut into chunks: [count] is
    the number of values; while there is none, [min] and [max] are the
    infinities they started with; once there is one, [min] and [max]
    are values of the stream that bound all the others. *)
Theorem X8_numeric_accumulator_of_stream
    (chunks : list chunk) (col : string) (a : num_acc) :
  Forall (fun c : chunk => NoDup c.*1) chunks ->
  numeric_stats (process_chunks chunks) !! col = Some a ->
  let vals := col_values col chunks in
  acc_count a = Z.of_nat (length vals) /\
  (vals = [] -> acc_min a = PosInf /\ acc_max a = NegInf) /\
  (vals <> [] ->
   exists lo hi,
     acc_min a = Fin lo /\ acc_max a = Fin hi /\ lo ∈ vals /\ hi ∈ vals /\
     forall x, x ∈ vals -> (lo <= x /\ x <= hi)%Q).
Proof.
  intros Hnd Ha vals.
  destruct (process_chunks_tracks col chunks a Hnd Ha) as (Hc & Hlo & Hhi & _).
  fold vals in Hc, Hlo, Hhi.
  split; [exact Hc|]. split.
  - intros Hnil. rewrite Hnil in Hlo, Hhi. split; [exact Hlo|exact Hhi].
  - intros Hne. destruct vals as [|x r]; [contradiction|].
    destruct (py_min (x :: r)) as [m|] eqn:Em; [|discriminate Em].
    destruct (py_max (x :: r)) as [M|] eqn:EM; [|discriminate EM].
    destruct (SimpleExtra.py_min_spec _ _ Em) as [Hm Hmall].
    destruct (SimpleExtra.py_max_spec _ _ EM) as [HM HMall].
    exists m, M. split; [exact Hlo|]. split; [exact Hhi|].
    split; [exact Hm|]. split; [exact HM|]. intros y Hy. split; auto.
Qed.

Lemma X8_numeric_accumulator_of_stream_witness :
  exists a,
    numeric_stats (process_chunks
      [[("x", NumSeries [Some 3%Q; None])]; [("x", NumSeries [Some 1%Q])]]) !! "x"
    = Some a /\ acc_count a = 2%Z.
Proof.
  eexists. split; [vm_compute; reflexivity|].
  eapply (X8_numeric_accumulator_of_stream
            [[("x", NumSeries [Some 3%Q; None])]; [("x", NumSeries [Some 1%Q])]] "x").
  - repeat constructor; set_solver.
  - vm_compute. reflexivity.
Defined.

(** X9: under the same condition, the sample of values of a column is
    a prefix of the stream of its values (the first values met), and
    it is the whole stream as long as it holds fewer than 10000
    values. *)
Theorem X9_sample_is_prefix_of_stream
    (chunks : list chunk) (col : string) (a : num_acc) :
  Forall (fun c : chunk => NoDup c.*1) chunks ->
  numeric_stats (process_chunks chunks) !! col = Some a ->
  acc_values a `prefix_of` col_values col chunks /\
  ((Z.of_nat (length (acc_values a)) < 10000)%Z ->
   acc_values a = col_values col chunks).
Proof.
  intros Hnd Ha.
  destruct (process_chunks_tracks col chunks a Hnd Ha) as (_ & _ & _ & Hv).
  destruct Hv as [->|[Hcap Hpre]].
  - split; [reflexivity|auto].
  - split; [exact Hpre|]. unfold values_cap in Hcap. lia.
Qed.

Lemma X9_sample_is_prefix_of_stream_witness :
  exists a,
    numeric_stats (process_chunks
      [[("x", NumSeries [Some 3%Q; None])]; [("x", NumSeries [Some 1%Q])]]) !! "x"
    = Some a /\ acc_values a `prefix_of` [3%Q; 1%Q].
Proof.
  eexists. split; [vm_compute; reflexivity|].
  eapply (X9_sample_is_prefix_of_stream
            [[("x", NumSeries [Some 3%Q; None])]; [("x", NumSeries [Some 1%Q])]] "x").
  - repeat constructor; set_solver.
  - vm_compute. reflexivity.
Defined.


(** ** One categorical column over all the chunks *)

Definition chunk_strings (col : string) (c : chunk) : list string :=
  match obj_of (assoc col c) with
  | Some cells => dropna cells
  | None => []
  end.

Definition col_strings (col : string) (chunks : list chunk) : list string :=
  concat (map (chunk_strings col) chunks).

Definition counts_of (strs : list string) : gmap string Z := fold_left incr strs ∅.

Lemma incr_lookup (m : gmap string Z) (x v : string) :
  incr m x !! v
  = if decide (x = v) then Some (default 0 (m !! v) + 1)%Z else m !! v.
Proof.
  unfold incr. destruct (decide (x = v)) as [->|Hne].
  - apply lookup_insert_eq.
  - now apply lookup_insert_ne.
Qed.

Lemma occ_cons (v x : string) (l : list string) :
  SimpleExtra.occ v (x :: l)
  = (if decide (x = v) then 1 else 0) + SimpleExtra.occ v l.
Proof.
  unfold SimpleExtra.occ. rewrite filter_cons. now destruct (decide (x = v)).
Qed.

Lemma fold_incr_lookup (l : list string) : forall (m : gmap string Z) (v : string),
  fold_left incr l m !! v
  = if decide (SimpleExtra.occ v l = 0)
    then m !! v
    else Some (default 0 (m !! v) + Z.of_nat (SimpleExtra.occ v l))%Z.
Proof.
  induction l as [|x l IH]; intros m v; [reflexivity|].
  cbn [fold_left]. rewrite IH, incr_lookup, occ_cons.
  destruct (decide (x = v)) as [->|Hne].
  - rewrite (decide_False (P := 1 + SimpleExtra.occ v l = 0)) by lia.
    destruct (decide (SimpleExtra.occ v l = 0)) as [->|Hnz]; simpl; f_equal; lia.
  - reflexivity.
Qed.

Lemma total_counts_insert_fresh (m : gmap string Z) (v : string) (n : Z) :
  m !! v = None -> total_counts (<[v := n]> m) = (n + total_counts m)%Z.
Proof.
  intros Hv. unfold total_counts. apply map_fold_insert_L; [|exact Hv].
  intros. lia.
Qed.

Lemma total_counts_insert (m : gmap string Z) (v : string) (n : Z) :
  total_counts (<[v := n]> m) = (total_counts m - default 0 (m !! v) + n)%Z.
Proof.
  destruct (m !! v) as [k|] eqn:E; simpl.
  - rewrite <- (insert_delete_eq m v n).
    rewrite <- (insert_delete_id m v k E) at 2.
    rewrite !total_counts_insert_fresh by apply lookup_delete_eq. lia.
  - rewrite total_counts_insert_fresh by exact E. lia.
Qed.

Lemma total_counts_incr (m : gmap string Z) (v : string) :
  total_counts (incr m v) = (total_counts m + 1)%Z.
Proof. unfold incr. rewrite total_counts_insert. lia. Qed.

Lemma total_counts_fold_incr (l : list string) : forall m : gmap string Z,
  total_counts (fold_left incr l m) = (total_counts m + Z.of_nat (length l))%Z.
Proof.
  induction l as [|x l IH]; intros m; cbn [fold_left length]; [lia|].
  rewrite IH, total_counts_incr. lia.
Qed.

Lemma total_counts_counts_of (strs : list string) :
  total_counts (counts_of strs) = Z.of_nat (length strs).
Proof.
  unfold counts_of. rewrite total_counts_fold_incr.
  unfold total_counts. now rewrite map_fold_empty.
Qed.

Lemma value_counts_counts_of (cells : list (option string)) :
  value_counts cells = counts_of (dropna cells).
Proof. reflexivity. Qed.

Definition counted (strs : list string) (o : option (gmap string Z)) : Prop :=
  match o with
  | Some freq => freq = counts_of strs
  | None => strs = []
  end.

Lemma cat_apply_counted (col : string) (c : chunk) (strs : list string)
    (o : option (gmap string Z)) :
  counted strs o -> counted (strs ++ chunk_strings col c) (cat_apply col c o).
Proof.
  unfold cat_apply, chunk_strings. destruct (obj_of (assoc col c)) as [cells|].
  - intros H. cbn [counted]. rewrite value_counts_counts_of.
    unfold counts_of. rewrite <- fold_incr_merge, fold_left_app. f_equal.
    destruct o as [freq|]; cbn [counted default] in *; [exact H|now subst strs].
  - now rewrite app_nil_r.
Qed.

Lemma cat_fold_counted (col : string) (chunks : list chunk) :
  forall strs o,
    counted strs o ->
    counted (strs ++ col_strings col chunks)
            (fold_left (fun o c => cat_apply col c o) chunks o).
Proof.
  unfold col_strings.
  induction chunks as [|c chunks IH]; intros strs o H; simpl.
  - now rewrite app_nil_r.
  - rewrite app_assoc. apply IH, cat_apply_counted, H.
Qed.

Lemma process_rest_cat (col : string) (chunks : list chunk) :
  Forall (fun c : chunk => NoDup c.*1) chunks ->
  forall st,
    categorical_stats (fold_left process_chunk chunks st) !! col
    = fold_left (fun o c => cat_apply col c o) chunks (categorical_stats st !! col).
Proof.
  induction 1 as [|c chunks Hc Hall IH]; intros st; [reflexivity|].
  cbn [fold_left]. rewrite IH. f_equal. now apply process_chunk_cat.
Qed.

Lemma process_chunks_counted (col : string) (chunks : list chunk)
    (freq : gmap string Z) :
  Forall (fun c : chunk => NoDup c.*1) chunks ->
  categorical_stats (process_chunks chunks) !! col = Some freq ->
  freq = counts_of (col_strings col chunks).
Proof.
  intros Hnd Hf. unfold process_chunks in Hf.
  rewrite (process_rest_cat col chunks Hnd) in Hf. cbn [categorical_stats] in Hf.
  rewrite lookup_empty in Hf.
  pose proof (cat_fold_counted col chunks [] None eq_refl) as H.
  rewrite Hf in H. exact H.
Qed.

(** X10: when the columns of every chunk have distinct names, the
    frequency map of a column counts, for every value, its occurrences
    among the non-missing cells of the chunks that type the column as
    [object]; the counts add up to the number of those cells, and the
    [null_count] of the finalized entry is [total_rows] less that
    number, so the cells of the chunks that type the column as numeric
    are reported as nulls. *)
Theorem X10_frequency_map_of_stream
    (total : Z) (chunks : list chunk) (col : string) (freq : gmap string Z) :
  Forall (fun c : chunk => NoDup c.*1) chunks ->
  categorical_stats (process_chunks chunks) !! col = Some freq ->
  let strs := col_strings col chunks in
  (forall v, freq !! v
             = if decide (SimpleExtra.occ v strs = 0) then None
               else Some (Z.of_nat (SimpleExtra.occ v strs))) /\
  total_counts freq = Z.of_nat (length strs) /\
  calculate_descriptive_statistics total chunks !! col
  = Some (FinalCategorical (size freq) (total - Z.of_nat (length strs))).
Proof.
  intros Hnd Hf strs.
  pose proof (process_chunks_counted col chunks freq Hnd Hf) as Hfreq.
  fold strs in Hfreq. split; [|split].
  - intros v. rewrite Hfreq. unfold counts_of. rewrite fold_incr_lookup, lookup_empty.
    destruct (decide (SimpleExtra.occ v strs = 0)); [reflexivity|]. simpl. f_equal.
  - rewrite Hfreq. apply total_counts_counts_of.
  - unfold calculate_descriptive_statistics, final_stats.
    rewrite (lookup_union_Some_l _ _ col
               (FinalCategorical (size freq) (total - Z.of_nat (length strs))));
      [reflexivity|].
    rewrite lookup_fmap, Hf. cbn [fmap option_fmap option_map].
    unfold finalize_categorical. f_equal. f_equal. f_equal.
    rewrite Hfreq. apply total_counts_counts_of.
Qed.

Lemma X10_frequency_map_of_stream_witness :
  calculate_descriptive_statistics 3
    [[("c", NumSeries [Some 1%Q])]; [("c", ObjSeries [Some "x"; Some "x"])]] !! "c"
  = Some (FinalCategorical 1 1).
Proof.
  destruct (X10_frequency_map_of_stream 3
              [[("c", NumSeries [Some 1%Q])]; [("c", ObjSeries [Some "x"; Some "x"])]]
              "c" {[ "x" := 2%Z ]}) as (_ & _ & H).
  - repeat constructor; set_solver.
  - apply (bool_decide_unpack _). vm_compute. reflexivity.
  - rewrite H. vm_compute. reflexivity.
Defined.

(** ** Which columns are reported as categorical *)

Lemma categorical_step_some (m : gmap string (gmap string Z)) oc (col : string) :
  is_Some (categorical_step m oc !! col) <-> is_Some (m !! col) \/ oc.1 = col.
Proof.
  unfold categorical_step. destruct (decide (oc.1 = col)) as [<-|Hne].
  - rewrite lookup_insert_eq. split; [now right|eauto].
  - rewrite lookup_insert_ne by exact Hne. split; [now left|].
    intros [H|H]; [exact H|contradiction].
Qed.

Lemma categorical_fold_some (l : list (string * list (option string))) :
  forall (m : gmap string (gmap string Z)) (col : string),
    is_Some (fold_left categorical_step l m !! col)
    <-> is_Some (m !! col) \/ col ∈ l.*1.
Proof.
  induction l as [|oc l IH]; intros m col; cbn [fold_left].
  - split; [now left|]. intros [H|H]; [exact H|inversion H].
  - rewrite IH, categorical_step_some. cbn [fmap list_fmap].
    rewrite elem_of_cons. split.
    + intros [[H|H]|H]; auto.
    + intros [H|[H|H]]; auto.
Qed.

Lemma process_rest_categorical_some (chunks : list chunk) :
  forall (st : stats_state) (col : string),
    is_Some (categorical_stats (fold_left process_chunk chunks st) !! col)
    <-> is_Some (categorical_stats st !! col)
        \/ exists c, c ∈ chunks /\ col ∈ (categorical_cols c).*1.
Proof.
  induction chunks as [|c chunks IH]; intros st col; cbn [fold_left].
  - split; [now left|]. intros [H|(c & Hc & _)]; [exact H|inversion Hc].
  - rewrite IH.
    assert (Hc : forall k,
               is_Some (categorical_stats (process_chunk st c) !! k)
               <-> is_Some (categorical_stats st !! k) \/ k ∈ (categorical_cols c).*1)
      by (intros k; unfold process_chunk; cbn [categorical_stats];
          apply categorical_fold_some).
    rewrite Hc. split.
    + intros [[H|H]|(c' & Hc' & H)]; [now left| |].
      * right. exists c. split; [left|exact H].
      * right. exists c'. split; [now right|exact H].
    + intros [H|(c' & Hc' & H)]; [now left; left|].
      apply elem_of_cons in Hc' as [->|Hc']; [left; now right|].
      right. exists c'. split; assumption.
Qed.

Lemma categorical_stats_some (chunks : list chunk) (col : string) :
  is_Some (categorical_stats (process_chunks chunks) !! col)
  <-> exists c, c ∈ chunks /\ col ∈ (categorical_cols c).*1.
Proof.
  pose proof (process_rest_categorical_some chunks (StatsState ∅ ∅) col) as Hsome.
  fold (process_chunks chunks) in Hsome. cbn [categorical_stats] in Hsome.
  rewrite lookup_empty in Hsome. rewrite Hsome. split; [|now right].
  intros [[? H]|H]; [discriminate H|exact H].
Qed.

Lemma categorical_entry_iff (total : Z) (chunks : list chunk) (col : string) :
  (exists c, c ∈ chunks /\ col ∈ (categorical_cols c).*1) <->
  exists unique null_count,
    calculate_descriptive_statistics total chunks !! col
    = Some (FinalCategorical unique null_count).
Proof.
  rewrite <- categorical_stats_some. split.
  - intros [freq Hfreq].
    exists (size freq), (total - total_counts freq)%Z.
    unfold calculate_descriptive_statistics, final_stats.
    apply lookup_union_Some_l. now rewrite lookup_fmap, Hfreq.
  - intros (u & n & Hfin).
    unfold calculate_descriptive_statistics, final_stats in Hfin.
    destruct (categorical_stats (process_chunks chunks) !! col) as [freq|] eqn:E;
      [eauto|].
    rewrite lookup_union_r in Hfin by (now rewrite lookup_fmap, E).
    rewrite lookup_omap in Hfin.
    destruct (numeric_stats (process_chunks chunks) !! col) as [a|]; [|discriminate].
    simpl in Hfin. unfold finalize_numeric in Hfin.
    destruct (0 <? acc_count a)%Z; discriminate.
Qed.

(** X11: a column is reported as categorical exactly when at least one
    chunk types it as [object]; the numeric statistics gathered for it
    in the other chunks are then left out of the result.  A column that
    no chunk types as [object] is reported as numeric when its count is
    positive and not reported otherwise. *)
Theorem X11_categorical_entry_overrides (total : Z) (chunks : list chunk) (col : string) :
  ((exists c, c ∈ chunks /\ col ∈ (categorical_cols c).*1) <->
   exists unique null_count,
     calculate_descriptive_statistics total chunks !! col
     = Some (FinalCategorical unique null_count)) /\
  ((forall c, c ∈ chunks -> col ∉ (categorical_cols c).*1) ->
   calculate_descriptive_statistics total chunks !! col
   = numeric_stats (process_chunks chunks) !! col ≫= finalize_numeric total).
Proof.
  split; [apply categorical_entry_iff|].
  intros Hnone. apply final_stats_numeric_only.
  destruct (categorical_stats (process_chunks chunks) !! col) as [freq|] eqn:E;
    [|reflexivity].
  destruct (proj1 (categorical_stats_some chunks col) (mk_is_Some _ _ E))
    as (c & Hc & Hin).
  exfalso. exact (Hnone c Hc Hin).
Qed.

(** ** The null analysis of chunks that cut one table *)

Lemma concat_chunks_len (rest : list chunk) : forall c t,
  concat_chunks c rest = Some t -> chunk_len c <= chunk_len t.
Proof.
  induction rest as [|c2 rest IH]; intros c t H; simpl in H.
  - injection H as <-. lia.
  - destruct (append_chunk c c2) as [fc|] eqn:E; [|discriminate].
    pose proof (chunk_len_append c c2 fc E). pose proof (IH fc t H). lia.
Qed.

Lemma chunking_len (t : chunk) (chunks : list chunk) :
  chunking_of t chunks -> 0 < chunk_len t.
Proof.
  intros [Hcat Hlen]. destruct chunks as [|c rest]; [contradiction|].
  apply Forall_cons in Hlen as [Hc _].
  pose proof (concat_chunks_len rest c t Hcat). lia.
Qed.

Lemma analyze_null_values_table (t : chunk) (chunks : list chunk) :
  chunking_of t chunks ->
  analyze_null_values chunks
  = Return (NullAnalysis
              (isnull_sum t)
              ((fun count => (inject_Z count / inject_Z (Z.of_nat (chunk_len t))) * 100)%Q
                 <$> isnull_sum t)
              (Z.of_nat (chunk_len t))).
Proof.
  intros Hch. pose proof (chunking_len t chunks Hch) as Hlen.
  rewrite (analyze_null_values_chunking t chunks Hch).
  unfold analyze_null_values. cbn [null_loop]. unfold null_step.
  cbn [total_rows null_counts]. change (0 =? 0)%Z with true. cbv iota.
  change (0 + Z.of_nat (chunk_len t))%Z with (Z.of_nat (chunk_len t)).
  cbn [total_rows null_counts].
  rewrite (proj2 (Z.eqb_neq (Z.of_nat (chunk_len t)) 0)) by lia.
  reflexivity.
Qed.

(** X12: on chunks that cut one table (same columns and dtypes in
    every chunk, at least one row in each), the null analysis raises
    nothing, neither [KeyError] nor [ZeroDivisionError]; it returns,
    for every column, the number of missing cells of the column in the
    whole table, the percentages over the number of rows of the table,
    and that number of rows, which is positive. *)
Theorem X12_null_analysis_of_chunking (t : chunk) (chunks : list chunk) :
  chunking_of t chunks ->
  analyze_null_values chunks
  = Return (NullAnalysis
              (isnull_sum t)
              ((fun count => (inject_Z count / inject_Z (Z.of_nat (chunk_len t))) * 100)%Q
                 <$> isnull_sum t)
              (Z.of_nat (chunk_len t))) /\
  0 < chunk_len t /\
  (forall col, isnull_sum t !! col = series_nulls <$> assoc col t).
Proof.
  intros Hch. split; [apply analyze_null_values_table, Hch|].
  split; [apply (chunking_len t chunks Hch)|intros col; apply isnull_sum_lookup].
Qed.

Lemma X12_null_analysis_of_chunking_witness :
  exists r,
    analyze_null_values
      [[("a", NumSeries [Some 1%Q; None])]; [("a", NumSeries [None])]] = Return r /\
    na_null_counts r !! "a" = Some 2%Z /\ na_total_rows r = 3%Z.
Proof.
  destruct (X12_null_analysis_of_chunking
              [("a", NumSeries [Some 1%Q; None; None])]
              [[("a", NumSeries [Some 1%Q; None])]; [("a", NumSeries [None])]])
    as (H & _ & _).
  - split; [reflexivity|]. repeat constructor.
  - eexists. split; [exact H|]. split; reflexivity.
Defined.

(** ** The two passes agree on the nulls *)

Lemma length_dropna_none {A} (cells : list (option A)) :
  length cells = length (dropna cells) + count_none cells.
Proof.
  unfold dropna, count_none. induction cells as [|[x|] cells IH].
  - reflexivity.
  - rewrite filter_cons, decide_False by discriminate.
    cbn [omap list_omap length id] in *. lia.
  - rewrite filter_cons, decide_True by reflexivity.
    cbn [omap list_omap length id] in *. lia.
Qed.

Lemma calculate_of_chunking (total : Z) (t : chunk) (chunks : list chunk) :
  NoDup t.*1 ->
  chunking_of t chunks ->
  calculate_descriptive_statistics total chunks
  = final_stats total (process_chunk (StatsState ∅ ∅) t).
Proof.
  intros Hnd Hch.
  pose proof (aggregate_chunking total t chunks Hnd Hch) as H.
  apply (f_equal agg_final) in H. exact H.
Qed.

(** X13: on chunks that cut one table with distinct column names, and
    with [total_rows] the number of rows of the table, the [null_count]
    that the statistics report for a column is the null count of the
    null analysis: the number of missing cells of the column, for a
    numeric column with at least one value and for a categorical
    column alike. *)
Theorem X13_statistics_and_null_analysis_agree
    (t : chunk) (chunks : list chunk) (col : string) :
  NoDup t.*1 ->
  chunking_of t chunks ->
  exists r,
    analyze_null_values chunks = Return r /\
    na_total_rows r = Z.of_nat (chunk_len t) /\
    (forall cells,
        assoc col t = Some (NumSeries cells) ->
        length cells = chunk_len t ->
        dropna cells <> [] ->
        exists mean lo hi count null_count,
          calculate_descriptive_statistics (na_total_rows r) chunks !! col
          = Some (FinalNumeric mean lo hi count null_count) /\
          na_null_counts r !! col = Some null_count /\
          null_count = Z.of_nat (count_none cells)) /\
    (forall cells,
        assoc col t = Some (ObjSeries cells) ->
        length cells = chunk_len t ->
        exists unique null_count,
          calculate_descriptive_statistics (na_total_rows r) chunks !! col
          = Some (FinalCategorical unique null_count) /\
          na_null_counts r !! col = Some null_count /\
          null_count = Z.of_nat (count_none cells)).
Proof.
  intros Hnd Hch. eexists. split; [apply (analyze_null_values_table t chunks Hch)|].
  cbn [na_total_rows na_null_counts]. split; [reflexivity|]. split.
  - intros cells Hcol Hlen Hvals.
    rewrite (calculate_of_chunking _ t chunks Hnd Hch).
    rewrite final_stats_numeric_only
      by (rewrite process_chunk_cat by exact Hnd; unfold cat_apply;
          now rewrite Hcol).
    rewrite process_chunk_num by exact Hnd. unfold num_apply. rewrite Hcol.
    cbn [num_of numeric_stats default]. rewrite lookup_empty. cbn [default mbind option_bind].
    unfold finalize_numeric, update_numeric, new_num_acc.
    cbn [acc_count acc_sum acc_min acc_max].
    assert (Hpos : (0 < 0 + Z.of_nat (length (dropna cells)))%Z)
      by (destruct (dropna cells); [contradiction|simpl; lia]).
    rewrite (proj2 (Z.ltb_lt _ _) Hpos).
    eexists _, _, _, _, _. split; [reflexivity|].
    rewrite isnull_sum_lookup, Hcol. cbn [fmap option_fmap option_map series_nulls].
    pose proof (length_dropna_none cells) as Hsplit.
    split; [f_equal; lia|lia].
  - intros cells Hcol Hlen.
    rewrite (calculate_of_chunking _ t chunks Hnd Hch).
    unfold final_stats.
    assert (Hcat : categorical_stats (process_chunk (StatsState ∅ ∅) t) !! col
                   = Some (counts_of (dropna cells))).
    { rewrite process_chunk_cat by exact Hnd. unfold cat_apply. rewrite Hcol.
      cbn [obj_of categorical_stats]. rewrite lookup_empty. cbn [default].
      now rewrite merge_empty_l. }
    eexists _, _. split.
    + apply lookup_union_Some_l. rewrite lookup_fmap, Hcat. reflexivity.
    + rewrite isnull_sum_lookup, Hcol. cbn [fmap option_fmap option_map series_nulls].
      rewrite total_counts_counts_of.
      pose proof (length_dropna_none cells) as Hsplit.
      split; [f_equal; lia|lia].
Qed.

Lemma X13_statistics_and_null_analysis_agree_witness :
  exists r,
    analyze_null_values
      [[("a", NumSeries [Some 1%Q; None])]; [("a", NumSeries [None])]] = Return r /\
    na_total_rows r = 3%Z.
Proof.
  destruct (X13_statistics_and_null_analysis_agree
              [("a", NumSeries [Some 1%Q; None; None])]
              [[("a", NumSeries [Some 1%Q; None])]; [("a", NumSeries [None])]] "a")
    as (r & Hr & Ht & _).
  - repeat constructor; set_solver.
  - split; [reflexivity|]. repeat constructor.
  - exists r. split; [exact Hr|exact Ht].
Defined.

End PipelineExtra.

(** * The ordered frequency dictionary *)

Module TopValuesFacts.
Import PyData Pipeline MergeFacts NumFacts PipelineFacts TopValues.

Lemma add_item_keys (d : odict) (vc : string * Z) :
  (add_item d vc).*1 = if decide (vc.1 ∈ d.*1) then d.*1 else d.*1 ++ [vc.1].
Proof.
  induction d as [|[k n] d IH]; cbn [add_item fmap list_fmap fst snd].
  - rewrite decide_False by apply not_elem_of_nil. reflexivity.
  - destruct (String.eqb_spec k vc.1) as [->|Hne].
    + rewrite decide_True by left. reflexivity.
    + cbn [fmap list_fmap fst]. rewrite IH.
      destruct (decide (vc.1 ∈ d.*1)) as [Hin|Hnin].
      * rewrite decide_True by now right. reflexivity.
      * rewrite decide_False; [reflexivity|].
        intros H. apply elem_of_cons in H as [H|H]; [congruence|contradiction].
Qed.

Lemma add_item_NoDup (d : odict) (vc : string * Z) :
  NoDup d.*1 -> NoDup (add_item d vc).*1.
Proof.
  intros Hnd. rewrite add_item_keys. destruct (decide (vc.1 ∈ d.*1)); [exact Hnd|].
  apply NoDup_app. split; [exact Hnd|]. split; [|apply NoDup_singleton].
  intros x Hx Hx'. apply list_elem_of_singleton in Hx'. congruence.
Qed.

Lemma fold_add_item_NoDup (items : list (string * Z)) : forall d : odict,
  NoDup d.*1 -> NoDup (fold_left add_item items d).*1.
Proof.
  induction items as [|vc items IH]; intros d Hnd; cbn [fold_left]; [exact Hnd|].
  apply IH, add_item_NoDup, Hnd.
Qed.

(** The dictionary read as a map: adding an item is the body of the
    merge loop. *)
Lemma add_item_map (d : odict) (vc : string * Z) :
  (list_to_map (add_item d vc) : gmap string Z) = add_count (list_to_map d) vc.
Proof.
  apply map_eq. intros k. rewrite add_count_lookup.
  induction d as [|[k' n] d IH]; cbn [add_item list_to_map foldr uncurry fst snd].
  - destruct vc as [v c]. cbn [fst snd]. rewrite lookup_empty.
    destruct (decide (v = k)) as [->|Hne].
    + apply lookup_insert_eq.
    + now rewrite lookup_insert_ne, lookup_empty.
  - destruct (String.eqb_spec k' vc.1) as [->|Hne];
      cbn [list_to_map foldr uncurry fst snd].
    + destruct (decide (vc.1 = k)) as [->|Hne'].
      * now rewrite !lookup_insert_eq.
      * now rewrite !lookup_insert_ne.
    + destruct (decide (k' = k)) as [->|Hk].
      * rewrite !lookup_insert_eq. now rewrite decide_False by congruence.
      * rewrite !lookup_insert_ne by exact Hk. exact IH.
Qed.

Lemma fold_add_item_map (items : list (string * Z)) : forall d : odict,
  (list_to_map (fold_left add_item items d) : gmap string Z)
  = fold_left add_count items (list_to_map d).
Proof.
  induction items as [|vc items IH]; intros d; cbn [fold_left]; [reflexivity|].
  now rewrite IH, add_item_map.
Qed.

(** Sorting permutes. *)
Lemma insert_desc_perm (kv : string * Z) (l : list (string * Z)) :
  insert_desc kv l ≡ₚ kv :: l.
Proof.
  induction l as [|kv' l IH]; cbn [insert_desc]; [reflexivity|].
  destruct (kv'.2 <? kv.2)%Z; [reflexivity|].
  rewrite IH. apply Permutation_swap.
Qed.

Lemma sorted_by_count_perm (items : list (string * Z)) :
  sorted_by_count items ≡ₚ items.
Proof.
  unfold sorted_by_count.
  assert (H : forall acc, fold_left (fun acc kv => insert_desc kv acc) items acc
                          ≡ₚ items ++ acc).
  { induction items as [|kv items IH]; intros acc; cbn [fold_left]; [reflexivity|].
    rewrite IH, insert_desc_perm. cbn [app]. symmetry. apply Permutation_middle. }
  rewrite H. now rewrite app_nil_r.
Qed.

Lemma counted_items_map (vals : list string) : forall d : odict,
  (list_to_map (fold_left (fun d v => add_item d (v, 1%Z)) vals d) : gmap string Z)
  = fold_left incr vals (list_to_map d).
Proof.
  induction vals as [|v vals IH]; intros d; cbn [fold_left]; [reflexivity|].
  rewrite IH, add_item_map. f_equal.
  unfold add_count, incr. cbn [fst snd]. now destruct (list_to_map d !! v).
Qed.

Lemma counted_items_NoDup (vals : list string) : forall d : odict,
  NoDup d.*1 -> NoDup (fold_left (fun d v => add_item d (v, 1%Z)) vals d).*1.
Proof.
  induction vals as [|v vals IH]; intros d Hnd; cbn [fold_left]; [exact Hnd|].
  apply IH, add_item_NoDup, Hnd.
Qed.

Lemma value_counts_items_NoDup (cells : list (option string)) :
  NoDup (value_counts_items cells).*1.
Proof.
  unfold value_counts_items. rewrite sorted_by_count_perm.
  apply counted_items_NoDup. constructor.
Qed.

(** The items of [value_counts()] are the table of counts of the
    chunk. *)
Lemma value_counts_items_map (cells : list (option string)) :
  (list_to_map (value_counts_items cells) : gmap string Z) = value_counts cells.
Proof.
  unfold value_counts_items.
  rewrite (list_to_map_proper (M := gmap string) _ _
             (value_counts_items_NoDup cells) (sorted_by_count_perm _)).
  apply (counted_items_map (dropna cells) []).
Qed.

Lemma fold_add_count_merge (items : list (string * Z)) (a : gmap string Z) :
  NoDup items.*1 -> fold_left add_count items a = merge a (list_to_map items).
Proof.
  intros Hnd. rewrite merge_add_maps. apply map_eq. intros k.
  rewrite (fold_add_count_lookup items Hnd). unfold add_maps.
  now rewrite lookup_union_with.
Qed.

Lemma find_assoc {A} (col : string) (l : list (string * A)) :
  snd <$> find (fun kx : string * A => String.eqb kx.1 col) l = assoc col l.
Proof.
  induction l as [|[k x] l IH]; cbn [find assoc fst snd]; [reflexivity|].
  destruct (String.eqb_spec k col) as [->|Hne].
  - now rewrite decide_True.
  - now rewrite decide_False.
Qed.

Definition dict_ok (o : option odict) : Prop :=
  match o with
  | Some d => NoDup d.*1
  | None => True
  end.

Definition as_map (o : option odict) : option (gmap string Z) := list_to_map <$> o.

Lemma column_step_map (col : string) (c : chunk) (o : option odict) :
  NoDup c.*1 ->
  dict_ok o ->
  dict_ok (column_step col o c) /\
  as_map (column_step col o c) = cat_apply col c (as_map o).
Proof.
  intros Hnd Hok. unfold column_step, cat_apply.
  rewrite <- (assoc_categorical_cols c col Hnd), <- find_assoc.
  destruct (find _ (categorical_cols c)) as [[k cells]|];
    cbn [fmap option_fmap option_map snd]; [|split; [exact Hok|reflexivity]].
  assert (Hd : NoDup (default [] o).*1)
    by (destruct o as [d|]; [exact Hok|constructor]).
  split; [apply fold_add_item_NoDup, Hd|].
  unfold as_map. cbn [fmap option_fmap option_map]. f_equal.
  rewrite fold_add_item_map.
  rewrite fold_add_count_merge by apply value_counts_items_NoDup.
  rewrite value_counts_items_map. f_equal. now destruct o.
Qed.

(** The dictionary whose order ['top_5_values'] shows holds the
    frequency map of the column. *)
Lemma frequencies_map (col : string) (chunks : list chunk) :
  Forall (fun c : chunk => NoDup c.*1) chunks ->
  as_map (frequencies col chunks) = categorical_stats (process_chunks chunks) !! col.
Proof.
  intros Hnd. unfold frequencies, process_chunks.
  assert (H : forall (o : option odict) (st : stats_state),
             dict_ok o ->
             as_map o = categorical_stats st !! col ->
             as_map (fold_left (column_step col) chunks o)
             = categorical_stats (fold_left process_chunk chunks st) !! col).
  { induction Hnd as [|c chunks Hc Hall IH]; intros o st Hok Ho; cbn [fold_left];
      [exact Ho|].
    destruct (column_step_map col c o Hc Hok) as [Hok' Hmap].
    apply IH; [exact Hok'|].
    now rewrite Hmap, Ho, process_chunk_cat. }
  apply H; [exact I|]. cbn [categorical_stats]. now rewrite lookup_empty.
Qed.

End TopValuesFacts.

(** * The sampling loop of the visualizations *)

Module VisualExtra.
Import Pipeline PipelineFacts NumFacts Visual.

Lemma gather_values_spec {A} (k : nat) (chunks : list (list (option A))) :
  Forall (fun c => length c <= k) chunks ->
  forall values : list A,
    (Z.of_nat (length values) <= plot_limit)%Z ->
    let r := gather_values chunks values in
    exists n,
      n <= length chunks /\
      r = values ++ concat (map dropna (take n chunks)) /\
      (n < length chunks -> (plot_limit < Z.of_nat (length r))%Z) /\
      (Z.of_nat (length r) <= plot_limit + Z.of_nat k)%Z.
Proof.
  induction 1 as [|c chunks Hc Hall IH]; intros values Hv; cbv zeta.
  - exists 0. simpl. rewrite app_nil_r. repeat split; try lia.
  - cbn [gather_values].
    destruct (Z.ltb_spec plot_limit (Z.of_nat (length (values ++ dropna c))))
      as [Hover|Hroom].
    + exists 1. cbn [take map concat length]. rewrite take_0. cbn [map concat].
      rewrite app_nil_r. split; [lia|]. split; [reflexivity|]. split; [auto|].
      rewrite length_app. pose proof (dropna_length c). lia.
    + destruct (IH (values ++ dropna c) Hroom) as (n & Hn & Hr & Hlt & Hlen).
      exists (S n). cbn [take map concat length].
      split; [lia|]. split; [now rewrite app_assoc|].
      split; [intros H; apply Hlt; lia|exact Hlen].
Qed.

(** X14: the values gathered for the histogram of a column are those
    of the first chunks, taken whole and in order; the loop stops
    before the last chunk only once more than 10000 values are held;
    when no chunk has more than [k] rows at most [10000 + k] values are
    held; and when at most 10000 are held they are all the values of
    the column. *)
Theorem X14_gathered_values_for_histogram
    {A} (k : nat) (chunks : list (list (option A))) :
  Forall (fun c => length c <= k) chunks ->
  let r := gather_values chunks [] in
  (exists n, n <= length chunks /\
             r = concat (map dropna (take n chunks)) /\
             (n < length chunks -> (10000 < Z.of_nat (length r))%Z)) /\
  (Z.of_nat (length r) <= 10000 + Z.of_nat k)%Z /\
  ((Z.of_nat (length r) <= 10000)%Z -> r = concat (map dropna chunks)).
Proof.
  intros Hk r.
  destruct (gather_values_spec k chunks Hk [] ltac:(unfold plot_limit; simpl; lia))
    as (n & Hn & Hr & Hlt & Hlen).
  fold r in Hr, Hlt, Hlen. unfold plot_limit in *. simpl in Hr.
  split; [exists n; auto|]. split; [exact Hlen|].
  intros Hsmall. rewrite Hr.
  destruct (decide (n < length chunks)) as [H|H]; [specialize (Hlt H); lia|].
  now rewrite take_ge by lia.
Qed.

Lemma X14_gathered_values_for_histogram_witness :
  gather_values [[Some 1%Q; None]; [Some 2%Q]] []
  = concat (map dropna [[Some 1%Q; None]; [Some 2%Q]]).
Proof.
  apply (X14_gathered_values_for_histogram 2 [[Some 1%Q; None]; [Some 2%Q]]).
  - repeat constructor.
  - vm_compute. discriminate.
Defined.

End VisualExtra.

(** * The passes of the row-by-row analyzer over one file *)

Module SimpleFileExtra.
Import PyData Simple SimpleFacts.

Lemma null_rows_total (columns : list string) (rows : list (list string)) :
  forall st,
    total_rows (fold_left (null_row columns) rows st) = total_rows st + length rows.
Proof.
  induction rows as [|row rows IH]; intros st; simpl; [lia|].
  rewrite IH. unfold null_row. simpl. lia.
Qed.

Lemma stats_cell_some (to_float : string -> option Q) (columns : list string)
    (stats : gmap string col_stats) (iv : nat * string) (col : string) :
  is_Some (stats_cell to_float columns stats iv !! col) <-> is_Some (stats !! col).
Proof.
  unfold stats_cell. destruct (columns !! iv.1) as [c|]; [|reflexivity].
  rewrite lookup_alter. destruct (decide (c = col)) as [->|]; [|reflexivity].
  apply fmap_is_Some.
Qed.

Lemma stats_rows_some (to_float : string -> option Q) (columns : list string)
    (rows : list (list string)) :
  forall (stats : gmap string col_stats) (col : string),
    is_Some (fold_left (stats_row to_float columns) rows stats !! col)
    <-> is_Some (stats !! col).
Proof.
  induction rows as [|row rows IH]; intros stats col; [reflexivity|].
  cbn [fold_left]. rewrite IH. unfold stats_row.
  generalize (enumerate row). intros l. revert stats.
  induction l as [|iv l IHl]; intros stats; [reflexivity|].
  cbn [fold_left]. rewrite IHl. apply stats_cell_some.
Qed.

Lemma statistics_keys (to_float : string -> option Q) (columns : list string)
    (rows : list (list string)) (col : string) :
  is_Some (Simple.calculate_basic_statistics to_float columns rows !! col)
  <-> col ∈ columns.
Proof.
  unfold Simple.calculate_basic_statistics. rewrite lookup_fmap, fmap_is_Some.
  unfold accumulate. rewrite stats_rows_some. unfold init_stats.
  rewrite init_stats_lookup_gen. destruct (decide (col ∈ columns)) as [Hin|Hnin].
  - split; [auto|eauto].
  - rewrite lookup_empty. split; [intros [? H]; discriminate H|contradiction].
Qed.

(** X15: on a file with a header row the passes of the analyzer agree:
    the row count of [count_rows_and_columns] is the [total_rows] of
    the null analysis, the sample holds the first [min(nrows,
    total_rows)] data rows, and the statistics have an entry for every
    column of the header and for nothing else.  On an empty file
    [count_rows_and_columns] returns no rows and no columns, while the
    three other passes raise [StopIteration]. *)
Theorem X15_passes_over_one_file
    (to_float : string -> option Q) (nrows : nat) (reader : list (list string)) :
  match reader with
  | [] =>
      SimpleFile.count_rows_and_columns reader = (0, []) /\
      SimpleFile.get_sample_data nrows reader = SimpleFile.Raise SimpleFile.StopIteration /\
      SimpleFile.analyze_null_values reader = SimpleFile.Raise SimpleFile.StopIteration /\
      SimpleFile.calculate_basic_statistics to_float reader
      = SimpleFile.Raise SimpleFile.StopIteration
  | columns :: rows =>
      exists sample nulls stats,
        SimpleFile.get_sample_data nrows reader = SimpleFile.Ok sample /\
        SimpleFile.analyze_null_values reader = SimpleFile.Ok nulls /\
        SimpleFile.calculate_basic_statistics to_float reader = SimpleFile.Ok stats /\
        (SimpleFile.count_rows_and_columns reader).1 = na_total_rows nulls /\
        (SimpleFile.count_rows_and_columns reader).2 = columns /\
        sample `prefix_of` rows /\
        length sample = Nat.min nrows (na_total_rows nulls) /\
        (forall col, is_Some (stats !! col) <-> col ∈ columns)
  end.
Proof.
  destruct reader as [|columns rows]; [repeat split|].
  eexists _, _, _. split; [reflexivity|]. split; [reflexivity|].
  split; [reflexivity|].
  assert (Ht : na_total_rows (Simple.analyze_null_values columns rows) = length rows)
    by apply (null_rows_total columns rows (NullState ∅ 0)).
  split; [symmetry; exact Ht|]. split; [reflexivity|].
  split; [apply prefix_take|]. split; [rewrite Ht; apply length_take|].
  intros col. apply statistics_keys.
Qed.

End SimpleFileExtra.

(** * The summary report of the pipeline *)

Module ReportExtra.
Import Pipeline PipelineFacts PipelineExtra Report.

Section Formats.

Variable fmt_thousands : Z -> string.
Variable fmt_1f : Q -> string.
Variable fmt_2f : Q -> string.
Variable str_float : ext -> string.
Variable str_int : nat -> string.
Variable csv_path : string.
Variable encoding : option string.
Variable separator : string.
Variable dtypes : option (list (string * string)).

(** An entry the numeric section cannot print: ['mean'] or ['count']
    is absent. *)
Definition unprintable (ds : gmap string stats_dict) (col : string) : Prop :=
  exists sd, ds !! col = Some sd /\ (sd_mean sd = None \/ sd_count sd = None).

Lemma numeric_lines_raises (ds : gmap string stats_dict) (col : string) :
  numeric_lines fmt_thousands fmt_2f str_float ds col = Raise ValueError
  <-> unprintable ds col.
Proof.
  unfold numeric_lines, unprintable. destruct (ds !! col) as [sd|].
  - destruct (sd_mean sd) as [m|] eqn:Em, (sd_count sd) as [k|] eqn:Ek; simpl;
      (split;
       [ first [discriminate | intros _; exists sd; split; [reflexivity|auto]]
       | intros (sd' & [= <-] & [H|H]); congruence ]).
  - split; [discriminate|]. intros (sd & H & _). discriminate H.
Qed.

Lemma numeric_section_raises (ds : gmap string stats_dict) (cols : list string) :
  numeric_section fmt_thousands fmt_2f str_float ds cols = Raise ValueError
  <-> exists col, col ∈ cols /\ unprintable ds col.
Proof.
  induction cols as [|col cols IH]; cbn [numeric_section].
  - split; [discriminate|]. intros (c & Hc & _). inversion Hc.
  - destruct (numeric_lines fmt_thousands fmt_2f str_float ds col) as [lines|[]] eqn:E.
    + assert (Hcol : ~ unprintable ds col)
        by (intros H; apply numeric_lines_raises in H; congruence).
      destruct (numeric_section fmt_thousands fmt_2f str_float ds cols) as [more|[]].
      * split; [discriminate|]. intros (c & Hc & Hu).
        apply elem_of_cons in Hc as [->|Hc]; [contradiction|].
        assert (H : Ok more = Raise ValueError) by (apply IH; eauto). discriminate H.
      * split; [|reflexivity]. intros _.
        destruct (proj1 IH eq_refl) as (c & Hc & Hu). exists c. split; [now right|exact Hu].
    + split; [|reflexivity]. intros _. exists col. split; [left|].
      now apply numeric_lines_raises.
Qed.

Lemma report_raises (info : structure_info) (null_percentages : list (string * Q))
    (ds : gmap string stats_dict) :
  generate_summary_report fmt_thousands fmt_1f fmt_2f str_float str_int
    csv_path encoding separator dtypes info null_percentages ds = Raise ValueError
  <-> exists col,
        col ∈ take 5 (numeric_dtype_cols (dtypes_given dtypes)) /\ unprintable ds col.
Proof.
  rewrite <- numeric_section_raises.
  unfold generate_summary_report, statistics_lines.
  destruct (numeric_section fmt_thousands fmt_2f str_float ds
              (take 5 (numeric_dtype_cols (dtypes_given dtypes)))) as [lines|[]].
  - split; discriminate.
  - split; reflexivity.
Qed.

(** X16: the report raises [ValueError] exactly when one of the first
    five columns whose sampled dtype is an integer or a float has an
    entry in the statistics without ['mean'] or without ['count'].
    With the entries that [calculate_descriptive_statistics] writes,
    that is exactly when one of those columns was typed [object] in
    some chunk, and thus reported as categorical. *)
Theorem X16_report_raises_on_mixed_column
    (info : structure_info) (null_percentages : list (string * Q)) :
  (forall ds : gmap string stats_dict,
      generate_summary_report fmt_thousands fmt_1f fmt_2f str_float str_int
        csv_path encoding separator dtypes info null_percentages ds = Raise ValueError
      <-> exists col sd,
            col ∈ take 5 (numeric_dtype_cols (dtypes_given dtypes)) /\
            ds !! col = Some sd /\ (sd_mean sd = None \/ sd_count sd = None)) /\
  (forall (total : Z) (chunks : list chunk) (top_5 : string -> list (string * Z)),
      generate_summary_report fmt_thousands fmt_1f fmt_2f str_float str_int
        csv_path encoding separator dtypes info null_percentages
        (map_imap (fun col e => Some (stats_dict_of (top_5 col) e))
                  (calculate_descriptive_statistics total chunks))
      = Raise ValueError
      <-> exists col c,
            col ∈ take 5 (numeric_dtype_cols (dtypes_given dtypes)) /\
            c ∈ chunks /\ col ∈ (categorical_cols c).*1).
Proof.
  split.
  - intros ds. rewrite report_raises. unfold unprintable. split.
    + intros (col & Hcol & sd & Hsd & H). eauto.
    + intros (col & sd & Hcol & Hsd & H). eauto.
  - intros total chunks top_5. rewrite report_raises. split.
    + intros (col & Hcol & sd & Hsd & Hmiss). exists col.
      rewrite map_lookup_imap in Hsd.
      destruct (calculate_descriptive_statistics total chunks !! col) as [e|] eqn:E;
        [|discriminate]. simpl in Hsd. injection Hsd as <-.
      destruct e as [mean lo hi count nc|u nc];
        [destruct Hmiss as [H|H]; discriminate H|].
      destruct (proj2 (categorical_entry_iff total chunks col)) as (c & Hc & Hin);
        [eauto|]. exists c. auto.
    + intros (col & c & Hcol & Hc & Hin). exists col. split; [exact Hcol|].
      destruct (proj1 (categorical_entry_iff total chunks col)) as (u & nc & He);
        [eauto|].
      exists (stats_dict_of (top_5 col) (FinalCategorical u nc)).
      split; [now rewrite map_lookup_imap, He|]. now left.
Qed.

End Formats.

Lemma report_raises_example :
  generate_summary_report (fun _ => "") (fun _ => "") (fun _ => "") (fun _ => "")
    (fun _ => "") "data.csv" (Some "utf-8") "," (Some [("c", "int64")])
    (StructureInfo 2 1 0 0) []
    (map_imap (fun col e => Some (stats_dict_of [] e))
       (calculate_descriptive_statistics 2
          [[("c", NumSeries [Some 1%Q])]; [("c", ObjSeries [Some "x"])]]))
  = Raise ValueError.
Proof. vm_compute. reflexivity. Qed.

End ReportExtra.
